(** * Churn-prediction preprocessing pipeline: a shallow embedding

    The development follows the Python sources

    - [config/settings.py]            (constants and tables),
    - [src/encoders.py]               ([EncoderManager]),
    - [src/feature_engineering.py]    (the four engineered features),
    - [streamlit_cloud/src/preprocessing.py] ([ClientInput], [ChurnPreprocessor]).

    Modelling conventions.

    - A Python [int] is a [Z]. A Python [float] is an IEEE-754 binary64
      value, a [pyfloat]: a finite value is carried as the rational it
      denotes, and every float operation of the preprocessing pipeline is
      the exact operation followed by rounding to nearest, ties to even,
      with gradual underflow and overflow to infinity ([round64]). An [int]
      operand of a float operation is converted first, which raises
      [OverflowError] when it is too large. The sign of a zero is not
      observable in this program (zeros compare equal, and dividing by one
      raises) and is not modelled. A value of type [Union[float, int]] is a
      [pynum].
    - The charges of a client record, a probability and the decision
      threshold are finite floats and have type [Q]; the feature functions
      of [feature_engineering.py] take any float. A decimal literal of the
      sources stands for the decimal it writes ([0.01] is [1 # 100]). The
      confidence score of [model_wrapper.py] is computed on these rationals
      without rounding; only statements that do not depend on the rounding
      of that one expression are made about it.
    - A [dict] with string keys is a [gmap string _]; where the iteration
      order of a dict is observable ([self.encoders.keys()],
      [ENCODER_FILES.items()]) it is an association list in insertion order.
    - A function that may raise returns a [result]; every [raise] site of
      the sources is one constructor of [exn]. *)

From Stdlib Require Import ZArith QArith Qround Qpower String List Lia Bool Lqa.
From stdpp Require Import gmap strings list fin_maps pretty.

Open Scope string_scope.
Open Scope Z_scope.

(** ** Python floats *)

Definition Qlt_bool (x y : Q) : bool := negb (Qle_bool y x).

(** A binary64 value: finite (the rational it denotes), an infinity or a
    NaN. *)
Inductive pyfloat : Type :=
  | Finite (x : Q)
  | Infinite (negative : bool)
  | NaN.

Coercion Finite : Q >-> pyfloat.

(** The format: 53 significant bits, exponents such that the smallest
    positive value is [2^-1074] and every finite value is below [2^1024]. *)
Definition prec : Z := 53.
Definition emin : Z := -1074.
Definition emax : Z := 1024.

Definition pow2 (e : Z) : Q := (2 ^ e)%Q.

(** The binary exponent of a positive rational: [2^e <= x < 2^(e+1)]. *)
Definition Qlog2 (x : Q) : Z :=
  let e := Z.log2 (Qnum x) - Z.log2 (Zpos (Qden x)) in
  if Qle_bool (pow2 e) x then e else e - 1.

(** The nearest integer, ties to the even one. *)
Definition round_half_even (x : Q) : Z :=
  let f := Qfloor x in
  match (x - inject_Z f ?= 1 # 2)%Q with
  | Lt => f
  | Gt => f + 1
  | Eq => if Z.even f then f else f + 1
  end.

(** The exponent of the unit in the last place of a positive [x]: 52 below
    its binary exponent, but never below [emin] (subnormal range). *)
Definition ulp_exponent (x : Q) : Z := Z.max (Qlog2 x - (prec - 1)) emin.

(** A positive [x] rounded to a multiple of its unit in the last place. *)
Definition round_val (x : Q) : Q :=
  let q := ulp_exponent x in
  (inject_Z (round_half_even (x / pow2 q)) * pow2 q)%Q.

Definition round_pos (x : Q) : pyfloat :=
  let y := Qred (round_val x) in
  if Qle_bool (pow2 emax) y then Infinite false else Finite y.

Definition fneg (a : pyfloat) : pyfloat :=
  match a with
  | Finite x => Finite (Qred (- x))
  | Infinite s => Infinite (negb s)
  | NaN => NaN
  end.

(** The binary64 value nearest to the rational [x]. *)
Definition round64 (x : Q) : pyfloat :=
  match (x ?= 0)%Q with
  | Eq => Finite 0
  | Gt => round_pos x
  | Lt => fneg (round_pos (- x))
  end.

(** Whether the rational [x] is the value of a binary64 float. *)
Definition binary64 (x : Q) : bool :=
  match round64 x with
  | Finite y => Qeq_bool y x
  | _ => false
  end.

(** [a * b] on two floats. *)
Definition fmul (a b : pyfloat) : pyfloat :=
  match a, b with
  | NaN, _ | _, NaN => NaN
  | Finite x, Finite y => round64 (x * y)
  | Infinite s, Finite y | Finite y, Infinite s =>
      if Qeq_bool y 0 then NaN else Infinite (xorb s (Qlt_bool y 0))
  | Infinite s, Infinite t => Infinite (xorb s t)
  end.

(** [a / b] on two floats, for a divisor [b] that is not zero (Python
    raises before dividing by a zero, see [py_div]). *)
Definition fdiv (a b : pyfloat) : pyfloat :=
  match a, b with
  | NaN, _ | _, NaN => NaN
  | Finite x, Finite y => round64 (x / y)
  | Finite _, Infinite _ => Finite 0
  | Infinite s, Finite y => Infinite (xorb s (Qlt_bool y 0))
  | Infinite _, Infinite _ => NaN
  end.

(** [a < b], [a <= b] and [a == b]: false as soon as one side is a NaN. *)
Definition fltb (a b : pyfloat) : bool :=
  match a, b with
  | NaN, _ | _, NaN => false
  | Finite x, Finite y => Qlt_bool x y
  | Finite _, Infinite t => negb t
  | Infinite s, Finite _ => s
  | Infinite s, Infinite t => s && negb t
  end.

Definition fleb (a b : pyfloat) : bool :=
  match a, b with
  | NaN, _ | _, NaN => false
  | Finite x, Finite y => Qle_bool x y
  | Finite _, Infinite t => negb t
  | Infinite s, Finite _ => s
  | Infinite s, Infinite t => s || negb t
  end.

Definition feqb (a b : pyfloat) : bool :=
  match a, b with
  | Finite x, Finite y => Qeq_bool x y
  | Infinite s, Infinite t => Bool.eqb s t
  | _, _ => false
  end.

(** ** Python numbers *)

Inductive pynum : Type :=
  | PyInt (n : Z)
  | PyFloat (x : pyfloat).

(** The mathematical value of a number. *)
Definition num_value (v : pynum) : pyfloat :=
  match v with
  | PyInt n => Finite (inject_Z n)
  | PyFloat x => x
  end.

(** Mixed int/float comparisons compare the mathematical values. *)
Definition num_ltb (a b : pynum) : bool := fltb (num_value a) (num_value b).
Definition num_leb (a b : pynum) : bool := fleb (num_value a) (num_value b).
Definition num_eqb (a b : pynum) : bool := feqb (num_value a) (num_value b).

(** [x in xs] for a list of numbers. *)
Definition num_in (x : pynum) (xs : list pynum) : bool := existsb (num_eqb x) xs.

(** ** Exceptions and results *)

(** One entry of a pydantic [ValidationError]: the reason a field failed. *)
Inductive field_error : Type :=
  | NumberNotGe (limit_value : pynum)   (* "ensure this value is greater than or equal to ..." *)
  | NumberNotGt (limit_value : pynum)   (* "ensure this value is greater than ..." *)
  | NotAllowed (label : string) (allowed : list string).
                                        (* ValueError(f"{label} doit être dans {allowed}") *)

Inductive exn : Type :=
  (* built-ins *)
  | KeyError (key : string)                     (* d[key] on a missing key *)
  | ZeroDivisionError
  | OverflowError                               (* "int too large to convert to float" *)
  (* encoders.py *)
  | EncoderFileMissing (path : string)          (* FileNotFoundError("Encoder requis manquant : ...") *)
  | EncoderLoadError (error : string)           (* what open or pickle.load raised, re-raised as is *)
  | EncoderUnavailable (feature_name : string)  (* KeyError("Encoder {feature_name} non disponible") *)
  | InvalidValue (value feature_name : string) (valid_values : list string)
                                                (* ValueError("Valeur '..' invalide pour ..") *)
  | CannotEncode (feature_name value : string)  (* ValueError("Impossible d'encoder ..") *)
  (* feature_engineering.py *)
  | MustBePositive (name : string) (received : pynum)     (* ValueError(".. doit être > 0, reçu: ..") *)
  | MustBeNonNegative (name : string) (received : pynum)  (* ValueError(".. doit être >= 0, reçu: ..") *)
  (* preprocessing.py *)
  | InvalidData (errors : list (string * field_error))
                                                (* ValueError("Données invalides: {e}") *)
  | InvalidEngineered                           (* ValueError("Features engineered invalides") *)
  | MissingFeature (feature_name : string)      (* ValueError("Feature manquante: ..") *)
  | BatchError (i : nat) (e : exn).             (* ValueError("Erreur preprocessing client {i}: {e}") *)

(** The Python class of each exception. *)
Inductive pyclass : Type :=
  | PyKeyError | PyValueError | PyZeroDivisionError | PyOverflowError
  | PyFileNotFoundError
  | PyOtherError (error : string).

Definition exn_class (e : exn) : pyclass :=
  match e with
  | KeyError _ | EncoderUnavailable _ => PyKeyError
  | ZeroDivisionError => PyZeroDivisionError
  | OverflowError => PyOverflowError
  | EncoderFileMissing _ => PyFileNotFoundError
  | EncoderLoadError error => PyOtherError error
  | _ => PyValueError
  end.

Inductive result (A : Type) : Type :=
  | OK (a : A)
  | Raise (e : exn).
Arguments OK {A} a.
Arguments Raise {A} e.

#[global] Instance result_ret : MRet result := fun A a => OK a.
#[global] Instance result_bind : MBind result := fun A B k r =>
  match r with
  | OK a => k a
  | Raise e => Raise e
  end.

(** [d[key]] *)
Definition subscript {V : Type} (d : gmap string V) (key : string) : result V :=
  match d !! key with
  | Some v => OK v
  | None => Raise (KeyError key)
  end.

(** [float(n)], also applied to the [int] operand of a float operation:
    the nearest float, or [OverflowError] when that is not finite. *)
Definition float_of_int (n : Z) : result pyfloat :=
  match round64 (inject_Z n) with
  | Finite y => OK (Finite y)
  | _ => Raise OverflowError
  end.

(** [x / y] on floats. *)
Definition py_div (x y : pyfloat) : result pyfloat :=
  if feqb y 0%Q then Raise ZeroDivisionError else OK (fdiv x y).

(** ** config/settings.py *)

Definition CONTRACT_VALUES : list string :=
  ["Month-to-month"; "One year"; "Two year"].
Definition PAYMENT_METHOD_VALUES : list string :=
  ["Bank transfer (automatic)"; "Credit card (automatic)";
   "Electronic check"; "Mailed check"].
Definition INTERNET_SERVICE_VALUES : list string :=
  ["DSL"; "Fiber optic"; "No"].
Definition PAPERLESS_BILLING_VALUES : list string :=
  ["No"; "Yes"].

Definition TENURE_SEGMENT_MAPPING : gmap string Z :=
  <["Nouveaux_0-6m" := 0]> (<["Junior_6-12m" := 1]>
  (<["Moyen_12-24m" := 2]> (<["Senior_24m+" := 3]> ∅))).

Definition MODEL_FEATURES : list string :=
  ["Ratio_MonthlyCharges_tenure";
   "Contract";
   "tenure";
   "MonthlyCharges";
   "tenure_segment_encoded";
   "TotalCharges";
   "is_new_customer";
   "PaymentMethod";
   "InternetService";
   "PaperlessBilling";
   "Ratio_TotalCharges_MonthlyCharges*tenure"].

Definition MIN_TENURE : Z := 0.
Definition MIN_MONTHLY_CHARGES : Q := 1 # 100.   (* 0.01 *)
Definition MIN_TOTAL_CHARGES : Z := 0.

(** ** src/feature_engineering.py *)

(** [monthly_charges / (tenure + 1)]: float by int. *)
Definition calculate_ratio_monthly_charges_tenure
    (monthly_charges : pyfloat) (tenure : Z) : result pyfloat :=
  if fleb monthly_charges 0%Q then
    Raise (MustBePositive "MonthlyCharges" (PyFloat monthly_charges))
  else if tenure <? 0 then
    Raise (MustBeNonNegative "Tenure" (PyInt tenure))
  else
    divisor ← float_of_int (tenure + 1);
    py_div monthly_charges divisor.

(** [monthly_charges * tenure] is float by int, the quotient float by
    float. *)
Definition calculate_ratio_total_monthly_tenure
    (total_charges monthly_charges : pyfloat) (tenure : Z) : result pyfloat :=
  if fltb total_charges 0%Q then
    Raise (MustBeNonNegative "TotalCharges" (PyFloat total_charges))
  else if fleb monthly_charges 0%Q then
    Raise (MustBePositive "MonthlyCharges" (PyFloat monthly_charges))
  else if tenure <? 0 then
    Raise (MustBeNonNegative "Tenure" (PyInt tenure))
  else if tenure =? 0 then
    OK (Finite 1)
  else
    months ← float_of_int tenure;
    let denominator := fmul monthly_charges months in
    py_div total_charges denominator.

Definition calculate_tenure_segment_encoded (tenure : Z) : result Z :=
  if tenure <? 0 then
    Raise (MustBeNonNegative "Tenure" (PyInt tenure))
  else
    let segment :=
      if tenure <=? 6 then "Nouveaux_0-6m"
      else if tenure <=? 12 then "Junior_6-12m"
      else if tenure <=? 24 then "Moyen_12-24m"
      else "Senior_24m+" in
    subscript TENURE_SEGMENT_MAPPING segment.

Definition calculate_is_new_customer (tenure : Z) : result Z :=
  if tenure <? 0 then
    Raise (MustBeNonNegative "Tenure" (PyInt tenure))
  else
    OK (if tenure <=? 6 then 1 else 0).

Definition compute_all_engineered_features
    (tenure : Z) (monthly_charges total_charges : pyfloat)
    : result (gmap string pynum) :=
  if tenure <? 0 then
    Raise (MustBeNonNegative "tenure" (PyInt tenure))
  else if fleb monthly_charges 0%Q then
    Raise (MustBePositive "monthly_charges" (PyFloat monthly_charges))
  else if fltb total_charges 0%Q then
    Raise (MustBeNonNegative "total_charges" (PyFloat total_charges))
  else
    r1 ← calculate_ratio_monthly_charges_tenure monthly_charges tenure;
    seg ← calculate_tenure_segment_encoded tenure;
    new ← calculate_is_new_customer tenure;
    r2 ← calculate_ratio_total_monthly_tenure total_charges monthly_charges tenure;
    OK (<["Ratio_MonthlyCharges_tenure" := PyFloat r1]>
       (<["tenure_segment_encoded" := PyInt seg]>
       (<["is_new_customer" := PyInt new]>
       (<["Ratio_TotalCharges_MonthlyCharges*tenure" := PyFloat r2]> ∅)))).

Definition required_features : list string :=
  ["Ratio_MonthlyCharges_tenure";
   "tenure_segment_encoded";
   "is_new_customer";
   "Ratio_TotalCharges_MonthlyCharges*tenure"].

(** The presence loop over [required_features], then the four checks.
    A subscript [features[k]] is a lookup; its [None] branch stands for the
    [KeyError] of a missing key, which the presence loop has ruled out. *)
Definition validate_engineered_features (features : gmap string pynum) : bool :=
  if negb (forallb (fun feature => bool_decide (is_Some (features !! feature)))
                   required_features)
  then false
  else
    match features !! "Ratio_MonthlyCharges_tenure",
          features !! "tenure_segment_encoded",
          features !! "is_new_customer",
          features !! "Ratio_TotalCharges_MonthlyCharges*tenure" with
    | Some r1, Some seg, Some new, Some r2 =>
        let checks :=
          [ num_ltb (PyInt 0) r1;
            num_in seg [PyInt 0; PyInt 1; PyInt 2; PyInt 3];
            num_in new [PyInt 0; PyInt 1];
            num_leb (PyInt 0) r2 ] in
        if negb (forallb id checks) then false else true
    | _, _, _, _ => false
    end.

(** ** Python dicts whose iteration order is observed *)

Fixpoint dict_get {V : Type} (d : list (string * V)) (key : string) : option V :=
  match d with
  | [] => None
  | (k, v) :: rest => if String.eqb k key then Some v else dict_get rest key
  end.

(** [d[key] = v]: overwrite in place, or append a new key. *)
Fixpoint dict_set {V : Type} (d : list (string * V)) (key : string) (v : V)
    : list (string * V) :=
  match d with
  | [] => [(key, v)]
  | (k, w) :: rest =>
      if String.eqb k key then (k, v) :: rest else (k, w) :: dict_set rest key v
  end.

Definition dict_keys {V : Type} (d : list (string * V)) : list string := map fst d.

(** ** src/encoders.py *)

(** A fitted [sklearn.preprocessing.LabelEncoder]: its sorted [classes_],
    a numpy array, which [transform] indexes with 64-bit integers. *)
Record LabelEncoder : Type := {
  classes_ : list string;
  classes_size : (Z.of_nat (length classes_) <? 2 ^ 63) = true
}.

Fixpoint index_of (value : string) (classes : list string) : option Z :=
  match classes with
  | [] => None
  | c :: rest =>
      if String.eqb c value then Some 0
      else match index_of value rest with
           | Some i => Some (i + 1)
           | None => None
           end
  end.

(** [int(encoder.transform([value])[0])]: the position of [value] in
    [classes_]; [None] stands for the exception sklearn raises on a label
    it has not seen. *)
Definition transform (encoder : LabelEncoder) (value : string) : option Z :=
  index_of value (classes_ encoder).

(** [ENCODER_FILES]: feature name and the file under [ENCODERS_DIR]. *)
Definition ENCODER_FILES : list (string * string) :=
  [("Contract", "labelencoder_Contract.pkl");
   ("PaymentMethod", "labelencoder_PaymentMethod.pkl");
   ("InternetService", "labelencoder_InternetService.pkl");
   ("PaperlessBilling", "labelencoder_PaperlessBilling.pkl")].

Record EncoderManager : Type := {
  encoders : list (string * LabelEncoder);
  feature_mappings : gmap string (list string)
}.

(** What [open(encoder_path, 'rb')] followed by [pickle.load] gives. *)
Inductive unpickled : Type :=
  | Unpickled (encoder : LabelEncoder)
  | NotFound                        (* FileNotFoundError *)
  | Unreadable (error : string).    (* any other exception *)

(** The encoder directory is a parameter: [pickle_load path] is what
    opening and unpickling [path] gives. *)
Fixpoint _load_encoders (pickle_load : string -> unpickled)
    (files : list (string * string)) (encoders : list (string * LabelEncoder))
    : result (list (string * LabelEncoder)) :=
  match files with
  | [] => OK encoders
  | (feature_name, encoder_path) :: rest =>
      match pickle_load encoder_path with
      | Unpickled encoder =>
          _load_encoders pickle_load rest (dict_set encoders feature_name encoder)
      | NotFound => Raise (EncoderFileMissing encoder_path)
      | Unreadable error => Raise (EncoderLoadError error)
      end
  end.

(** The dict literal [__init__] assigns to [self.feature_mappings]. *)
Definition FEATURE_MAPPINGS : gmap string (list string) :=
  <["Contract" := CONTRACT_VALUES]>
  (<["PaymentMethod" := PAYMENT_METHOD_VALUES]>
  (<["InternetService" := INTERNET_SERVICE_VALUES]>
  (<["PaperlessBilling" := PAPERLESS_BILLING_VALUES]> ∅))).

(** [EncoderManager.__init__] *)
Definition EncoderManager_init (pickle_load : string -> unpickled)
    : result EncoderManager :=
  encoders ← _load_encoders pickle_load ENCODER_FILES [];
  OK {| encoders := encoders; feature_mappings := FEATURE_MAPPINGS |}.

Definition encode_feature (self : EncoderManager) (feature_name value : string)
    : result Z :=
  match dict_get (encoders self) feature_name with
  | None => Raise (EncoderUnavailable feature_name)
  | Some encoder =>
      valid_values ← subscript (feature_mappings self) feature_name;
      if negb (bool_decide (value ∈ valid_values)) then
        Raise (InvalidValue value feature_name valid_values)
      else
        match transform encoder value with
        | Some encoded_value => OK encoded_value
        | None => Raise (CannotEncode feature_name value)
        end
  end.

(** The body of [for feature_name in self.encoders.keys(): ...], threading
    [encoded_data]. *)
Fixpoint encode_all_loop (self : EncoderManager) (keys : list string)
    (data : gmap string string) (encoded_data : gmap string Z)
    : result (gmap string Z) :=
  match keys with
  | [] => OK encoded_data
  | feature_name :: rest =>
      match data !! feature_name with
      | Some value =>
          code ← encode_feature self feature_name value;
          encode_all_loop self rest data (<[feature_name := code]> encoded_data)
      | None => encode_all_loop self rest data encoded_data
      end
  end.

Definition encode_all_features (self : EncoderManager) (data : gmap string string)
    : result (gmap string Z) :=
  encode_all_loop self (dict_keys (encoders self)) data ∅.

(** ** streamlit_cloud/src/preprocessing.py *)

(** [client_data]: the keyword arguments the [ClientInput] constructor is called with.
    The seven keys are present and carry values of the declared types, so
    pydantic's "field required" and type-coercion errors do not arise. *)
Module Raw.
Record t : Type := mk {
  contract : string;
  tenure : Z;
  monthly_charges : Q;
  total_charges : Q;
  payment_method : string;
  internet_service : string;
  paperless_billing : string
}.
End Raw.

(** A validated [ClientInput] object. *)
Record ClientInput : Type := {
  contract : string;
  tenure : Z;
  monthly_charges : Q;
  total_charges : Q;
  payment_method : string;
  internet_service : string;
  paperless_billing : string
}.

(** The constraints [ge=] and [gt=] of [Field(...)]. *)
Definition field_ge (limit : Z) (v : Z) : option field_error :=
  if limit <=? v then None else Some (NumberNotGe (PyInt limit)).
Definition field_ge_float (limit : Z) (v : Q) : option field_error :=
  if Qle_bool (inject_Z limit) v then None else Some (NumberNotGe (PyInt limit)).
Definition field_gt_float (limit : Q) (v : Q) : option field_error :=
  if Qlt_bool limit v then None else Some (NumberNotGt (PyFloat limit)).

(** The four [@validator] methods. *)
Definition validate_contract (v : string) : option field_error :=
  if negb (bool_decide (v ∈ CONTRACT_VALUES))
  then Some (NotAllowed "Contract" CONTRACT_VALUES) else None.
Definition validate_payment_method (v : string) : option field_error :=
  if negb (bool_decide (v ∈ PAYMENT_METHOD_VALUES))
  then Some (NotAllowed "PaymentMethod" PAYMENT_METHOD_VALUES) else None.
Definition validate_internet_service (v : string) : option field_error :=
  if negb (bool_decide (v ∈ INTERNET_SERVICE_VALUES))
  then Some (NotAllowed "InternetService" INTERNET_SERVICE_VALUES) else None.
Definition validate_paperless_billing (v : string) : option field_error :=
  if negb (bool_decide (v ∈ PAPERLESS_BILLING_VALUES))
  then Some (NotAllowed "PaperlessBilling" PAPERLESS_BILLING_VALUES) else None.

(** pydantic validates the fields one after the other, in declaration
    order, and appends the error of each field that fails. *)
Definition validate_field {A : Type} (loc : string) (check : A -> option field_error)
    (v : A) (errors : list (string * field_error)) : list (string * field_error) :=
  match check v with
  | Some e => errors ++ [(loc, e)]
  | None => errors
  end.

Definition ClientInput_errors (d : Raw.t) : list (string * field_error) :=
  let errors := [] in
  let errors := validate_field "contract" validate_contract (Raw.contract d) errors in
  let errors := validate_field "tenure" (field_ge MIN_TENURE) (Raw.tenure d) errors in
  let errors := validate_field "monthly_charges" (field_gt_float MIN_MONTHLY_CHARGES)
                               (Raw.monthly_charges d) errors in
  let errors := validate_field "total_charges" (field_ge_float MIN_TOTAL_CHARGES)
                               (Raw.total_charges d) errors in
  let errors := validate_field "payment_method" validate_payment_method
                               (Raw.payment_method d) errors in
  let errors := validate_field "internet_service" validate_internet_service
                               (Raw.internet_service d) errors in
  let errors := validate_field "paperless_billing" validate_paperless_billing
                               (Raw.paperless_billing d) errors in
  errors.

(** Constructing a [ClientInput] from [client_data]: the object, or the [ValidationError]
    carrying every collected error. *)
Definition ClientInput_new (d : Raw.t) : list (string * field_error) + ClientInput :=
  match ClientInput_errors d with
  | [] => inr {| contract := Raw.contract d;
                 tenure := Raw.tenure d;
                 monthly_charges := Raw.monthly_charges d;
                 total_charges := Raw.total_charges d;
                 payment_method := Raw.payment_method d;
                 internet_service := Raw.internet_service d;
                 paperless_billing := Raw.paperless_billing d |}
  | errors => inl errors
  end.

Record ChurnPreprocessor : Type := {
  encoder_manager : EncoderManager;
  feature_order : list string
}.

(** [ChurnPreprocessor.__init__] *)
Definition ChurnPreprocessor_init (pickle_load : string -> unpickled)
    : result ChurnPreprocessor :=
  em ← EncoderManager_init pickle_load;
  OK {| encoder_manager := em; feature_order := MODEL_FEATURES |}.

Definition validate_input (client_data : Raw.t) : result ClientInput :=
  match ClientInput_new client_data with
  | inr validated_input => OK validated_input
  | inl e => Raise (InvalidData e)
  end.

Definition encode_categorical_features (self : ChurnPreprocessor)
    (validated_input : ClientInput) : result (gmap string Z) :=
  let categorical_data : gmap string string :=
    <["Contract" := contract validated_input]>
    (<["PaymentMethod" := payment_method validated_input]>
    (<["InternetService" := internet_service validated_input]>
    (<["PaperlessBilling" := paperless_billing validated_input]> ∅))) in
  encode_all_features (encoder_manager self) categorical_data.

Definition compute_engineered_features (validated_input : ClientInput)
    : result (gmap string pynum) :=
  engineered_features ←
    compute_all_engineered_features (tenure validated_input)
      (monthly_charges validated_input) (total_charges validated_input);
  if negb (validate_engineered_features engineered_features) then
    Raise InvalidEngineered
  else OK engineered_features.

(** The loop of [build_feature_vector] over [self.feature_order]. *)
Fixpoint build_loop (all_features : gmap string pynum) (order : list string)
    (feature_vector : list pynum) : result (list pynum) :=
  match order with
  | [] => OK feature_vector
  | feature_name :: rest =>
      match all_features !! feature_name with
      | None => Raise (MissingFeature feature_name)
      | Some v => build_loop all_features rest (feature_vector ++ [v])
      end
  end.

(** [{**a, **b}]: the keys of [b] win. *)
Definition dict_update {V : Type} (a b : gmap string V) : gmap string V := b ∪ a.

(** [np.array(values, dtype=np.float64)]: a float is stored as it is, an
    int is converted. *)
Definition float64 (v : pynum) : result pyfloat :=
  match v with
  | PyInt n => float_of_int n
  | PyFloat x => OK x
  end.

Fixpoint np_array (values : list pynum) : result (list pyfloat) :=
  match values with
  | [] => OK []
  | v :: rest =>
      x ← float64 v;
      xs ← np_array rest;
      OK (x :: xs)
  end.

Definition build_feature_vector (self : ChurnPreprocessor)
    (validated_input : ClientInput) (encoded_features : gmap string Z)
    (engineered_features : gmap string pynum) : result (list pyfloat) :=
  let raw : gmap string pynum :=
    <["tenure" := PyInt (tenure validated_input)]>
    (<["MonthlyCharges" := PyFloat (monthly_charges validated_input)]>
    (<["TotalCharges" := PyFloat (total_charges validated_input)]> ∅)) in
  let all_features :=
    dict_update (dict_update raw (PyInt <$> encoded_features)) engineered_features in
  feature_vector ← build_loop all_features (feature_order self) [];
  np_array feature_vector.

Record Metadata : Type := {
  input_data : ClientInput;
  encoded_features : gmap string Z;
  engineered_features : gmap string pynum;
  feature_names : list string;
  feature_vector_shape : nat
}.

Definition preprocess (self : ChurnPreprocessor) (client_data : Raw.t)
    : result (list pyfloat * Metadata) :=
  validated_input ← validate_input client_data;
  encoded ← encode_categorical_features self validated_input;
  engineered ← compute_engineered_features validated_input;
  feature_vector ← build_feature_vector self validated_input encoded engineered;
  let metadata :=
    {| input_data := validated_input;
       encoded_features := encoded;
       engineered_features := engineered;
       feature_names := feature_order self;
       feature_vector_shape := length feature_vector |} in
  OK (feature_vector, metadata).

(** The loop of [preprocess_batch]; [i] is the index [enumerate] hands out. *)
Fixpoint preprocess_batch_loop (self : ChurnPreprocessor) (i : nat)
    (clients_data : list Raw.t)
    (feature_vectors : list (list pyfloat)) (metadatas : list Metadata)
    : result (list (list pyfloat) * list Metadata) :=
  match clients_data with
  | [] => OK (feature_vectors, metadatas)
  | client_data :: rest =>
      match preprocess self client_data with
      | OK (feature_vector, metadata) =>
          preprocess_batch_loop self (S i) rest
            (feature_vectors ++ [feature_vector]) (metadatas ++ [metadata])
      | Raise e => Raise (BatchError i e)
      end
  end.

Definition preprocess_batch (self : ChurnPreprocessor) (clients_data : list Raw.t)
    : result (list (list pyfloat) * list Metadata) :=
  preprocess_batch_loop self 0 clients_data [] [].

(** ** src/encoders.py, introspection *)

(** [validate_input_values]: one boolean per field of [feature_mappings]
    that is a key of [data]. The loop raises nothing, so the order in which
    it visits [feature_mappings.items()] is not observable. *)
Definition validate_input_values (self : EncoderManager) (data : gmap string string)
    : gmap string bool :=
  map_imap (fun feature_name allowed_values =>
              match data !! feature_name with
              | Some value => Some (bool_decide (value ∈ allowed_values))
              | None => None
              end)
           (feature_mappings self).

(** The value of [get_feature_info]: a dict with four fixed keys. An entry
    of [mapping] is [None] where [encoder.transform] raised. *)
Record FeatureInfo : Type := {
  info_feature_name : string;
  info_allowed_values : list string;
  info_mapping : gmap string (option Z);
  info_encoder_classes : list string
}.

Inductive info_exn : Type :=
  | FeatureNotFound (feature_name : string)  (* KeyError("Feature {feature_name} non trouvée") *)
  | MappingMissing (key : string).           (* self.feature_mappings[key] on a missing key *)

(** The loop [for value in allowed_values: mapping[value] = ...]. *)
Fixpoint mapping_loop (encoder : LabelEncoder) (allowed_values : list string)
    (mapping : gmap string (option Z)) : gmap string (option Z) :=
  match allowed_values with
  | [] => mapping
  | value :: rest =>
      mapping_loop encoder rest (<[value := transform encoder value]> mapping)
  end.

Definition get_feature_info (self : EncoderManager) (feature_name : string)
    : info_exn + FeatureInfo :=
  match dict_get (encoders self) feature_name with
  | None => inl (FeatureNotFound feature_name)
  | Some encoder =>
      match feature_mappings self !! feature_name with
      | None => inl (MappingMissing feature_name)
      | Some allowed_values =>
          inr {| info_feature_name := feature_name;
                 info_allowed_values := allowed_values;
                 info_mapping := mapping_loop encoder allowed_values ∅;
                 info_encoder_classes := classes_ encoder |}
      end
  end.

(** The dict comprehension of [get_all_features_info] over
    [self.encoders.keys()]. *)
Fixpoint all_info_loop (self : EncoderManager) (keys : list string)
    (infos : gmap string FeatureInfo) : info_exn + gmap string FeatureInfo :=
  match keys with
  | [] => inr infos
  | name :: rest =>
      match get_feature_info self name with
      | inl e => inl e
      | inr info => all_info_loop self rest (<[name := info]> infos)
      end
  end.

Definition get_all_features_info (self : EncoderManager)
    : info_exn + gmap string FeatureInfo :=
  all_info_loop self (dict_keys (encoders self)) ∅.

(** ** streamlit_cloud/src/model_wrapper.py *)

(** Python's [abs], [max], [min] and [/] on the rationals that stand for
    the probability and the threshold. *)
Definition py_abs (x : Q) : Q := if Qlt_bool x 0 then (- x)%Q else x.
Definition py_max (a b : Q) : Q := if Qlt_bool a b then b else a.
Definition py_min (a b : Q) : Q := if Qlt_bool b a then b else a.
Definition py_quotient (x y : Q) : result Q :=
  if Qeq_bool y 0 then Raise ZeroDivisionError else OK (x / y)%Q.

(** What made [predict_single] fail inside its [try] block. *)
Inductive failure : Type :=
  | PipelineError (e : exn)        (* raised by the preprocessor or the arithmetic *)
  | ModelError (message : string)  (* raised by [model.predict_proba] *)
  | NoneError (attribute : string).
                                   (* an attribute of the predictor is still [None] *)

Inductive predictor_exn : Type :=
  | ModelLoadError                              (* RuntimeError("Impossible de charger le modèle: ..") *)
  | PreprocessorInitError (e : exn)             (* RuntimeError("Impossible d'initialiser le preprocessor: ..") *)
  | ModelNotLoaded                              (* RuntimeError("Modèle non chargé") *)
  | PredictionError (cause : failure)           (* ValueError("Erreur lors de la prédiction: ..") *)
  | ClientIdsMismatch.                          (* ValueError("Nombre de client_ids différent ..") *)

(** [business_recommendation]: one of the fixed texts, or the text
    [f"Erreur: {str(e)}"] of a failed record. *)
Inductive recommendation : Type :=
  | Advice (text : string)
  | ErrorAdvice (e : predictor_exn).

(** [model_metadata] as [predict_single] fills it. *)
Record ModelMetadata : Type := {
  meta_optimal_threshold : Q;
  meta_preprocessing_metadata : Metadata;
  meta_model_version : string;
  meta_features_used : list string
}.

Record ChurnPredictionResult : Type := {
  client_id : option string;
  churn_probability : Q;
  churn_prediction : Z;
  risk_level : string;
  business_recommendation : recommendation;
  confidence_score : Q;
  prediction_timestamp : string;
  model_metadata : option ModelMetadata
}.

(** [ChurnPredictionResult.__init__]; [now] is [datetime.now().isoformat()]. *)
Definition ChurnPredictionResult_init (now : string) (client_id : option string)
    : ChurnPredictionResult :=
  {| client_id := client_id;
     churn_probability := 0;
     churn_prediction := 0;
     risk_level := "";
     business_recommendation := Advice "";
     confidence_score := 0;
     prediction_timestamp := now;
     model_metadata := None |}.

(** The predictor. [model] stands for
    [fun v => model.predict_proba(v.reshape(1, -1))[0, 1]]: the probability
    of class 1, or the message of the exception the model raised. The
    hyperparameters and metrics files are only echoed by [get_model_info]
    and are left out. *)
Record ChurnPredictor : Type := {
  model : option (list pyfloat -> string + Q);
  optimal_threshold : option Q;
  preprocessor : option ChurnPreprocessor;
  is_loaded : bool
}.

(** [ChurnPredictor.__init__]: [_load_model_artifacts] then
    [_initialize_preprocessor]. [load_model] and [load_threshold] are what
    [joblib.load] returns for the two paths, [None] when it raises. *)
Definition ChurnPredictor_init
    (load_model : option (list pyfloat -> string + Q)) (load_threshold : option Q)
    (pickle_load : string -> unpickled)
    : predictor_exn + ChurnPredictor :=
  match load_model with
  | None => inl ModelLoadError
  | Some m =>
      match load_threshold with
      | None => inl ModelLoadError
      | Some t =>
          match ChurnPreprocessor_init pickle_load with
          | Raise e => inl (PreprocessorInitError e)
          | OK pp =>
              inr {| model := Some m;
                     optimal_threshold := Some t;
                     preprocessor := Some pp;
                     is_loaded := true |}
          end
      end
  end.

(** [_interpret_probability], with [self.optimal_threshold] as an argument. *)
Definition _interpret_probability (optimal_threshold probability : Q)
    : string * string :=
  if Qle_bool optimal_threshold probability then
    if Qle_bool (4 # 5) probability then
      ("Critical Risk",
       "🚨 ACTION IMMÉDIATE: Contact urgent + offre de rétention premium")
    else if Qle_bool (13 # 20) probability then
      ("High Risk",
       "⚠️ PRIORITÉ ÉLEVÉE: Contact sous 48h + analyse besoins client")
    else
      ("Medium-High Risk",
       "📞 SURVEILLANCE: Contact sous 1 semaine + suivi personnalisé")
  else
    if Qle_bool (2 # 5) probability then
      ("Medium Risk",
       "👀 MONITORING: Surveillance renforcée + enquête satisfaction")
    else if Qle_bool (1 # 5) probability then
      ("Low-Medium Risk",
       "📊 TRACKING: Suivi mensuel + programme fidélité")
    else
      ("Low Risk",
       "✅ STABLE: Client fidèle - maintenir qualité service").

(** [_calculate_confidence], with [self.optimal_threshold] as an argument. *)
Definition _calculate_confidence (optimal_threshold probability : Q) : result Q :=
  let distance_to_threshold := py_abs (probability - optimal_threshold) in
  let max_distance := py_max optimal_threshold (1 - optimal_threshold) in
  ratio ← py_quotient distance_to_threshold max_distance;
  let confidence := ((1 # 2) + ratio * (1 # 2))%Q in
  OK (py_min confidence 1).

Definition predict_single (self : ChurnPredictor) (now : string)
    (client_data : Raw.t) (client_id : option string)
    : predictor_exn + ChurnPredictionResult :=
  if negb (is_loaded self) then inl ModelNotLoaded
  else
    match preprocessor self with
    | None => inl (PredictionError (NoneError "preprocessor"))
    | Some pp =>
        match preprocess pp client_data with
        | Raise e => inl (PredictionError (PipelineError e))
        | OK (feature_vector, preprocessing_metadata) =>
            match model self with
            | None => inl (PredictionError (NoneError "model"))
            | Some predict_proba =>
                match predict_proba feature_vector with
                | inl message => inl (PredictionError (ModelError message))
                | inr churn_probability =>
                    match optimal_threshold self with
                    | None => inl (PredictionError (NoneError "optimal_threshold"))
                    | Some threshold =>
                        let churn_prediction :=
                          if Qle_bool threshold churn_probability then 1 else 0 in
                        let '(level, advice) :=
                          _interpret_probability threshold churn_probability in
                        match _calculate_confidence threshold churn_probability with
                        | Raise e => inl (PredictionError (PipelineError e))
                        | OK confidence =>
                            inr {| client_id := client_id;
                                   churn_probability := churn_probability;
                                   churn_prediction := churn_prediction;
                                   risk_level := level;
                                   business_recommendation := Advice advice;
                                   confidence_score := confidence;
                                   prediction_timestamp := now;
                                   model_metadata :=
                                     Some {| meta_optimal_threshold := threshold;
                                             meta_preprocessing_metadata :=
                                               preprocessing_metadata;
                                             meta_model_version :=
                                               "XGBoost_Champion_11_Features";
                                             meta_features_used :=
                                               feature_names preprocessing_metadata |} |}
                        end
                    end
                end
            end
        end
    end.

(** The result appended for a record on which [predict_single] raised. *)
Definition error_result (now : string) (client_id : option string) (e : predictor_exn)
    : ChurnPredictionResult :=
  {| client_id := client_id;
     churn_probability := 0;
     churn_prediction := 0;
     risk_level := "Error";
     business_recommendation := ErrorAdvice e;
     confidence_score := 0;
     prediction_timestamp := now;
     model_metadata := None |}.

(** [[f"client_{i}" for i in range(n)]], starting at [i]. *)
Fixpoint default_client_ids (i n : nat) : list string :=
  match n with
  | O => []
  | S n' => ("client_" +:+ pretty i) :: default_client_ids (S i) n'
  end.

(** The loop of [predict_batch] over [zip(clients_data, client_ids)];
    [now i] is the clock reading while record [i] is handled. *)
Fixpoint predict_batch_loop (self : ChurnPredictor) (now : nat -> string) (i : nat)
    (clients_data : list Raw.t) (client_ids : list string)
    (results : list ChurnPredictionResult) : list ChurnPredictionResult :=
  match clients_data, client_ids with
  | client_data :: rest, client_id :: ids =>
      let r :=
        match predict_single self (now i) client_data (Some client_id) with
        | inr r => r
        | inl e => error_result (now i) (Some client_id) e
        end in
      predict_batch_loop self now (S i) rest ids (results ++ [r])
  | _, _ => results
  end.

Definition predict_batch (self : ChurnPredictor) (now : nat -> string)
    (clients_data : list Raw.t) (client_ids : option (list string))
    : predictor_exn + list ChurnPredictionResult :=
  if negb (is_loaded self) then inl ModelNotLoaded
  else
    let client_ids :=
      match client_ids with
      | None => default_client_ids 0 (length clients_data)
      | Some ids => ids
      end in
    if negb (length client_ids =? length clients_data)%nat then inl ClientIdsMismatch
    else inr (predict_batch_loop self now 0 clients_data client_ids []).

(** The dict [health_check] returns; the optional keys are [None] when the
    code does not set them. *)
Record Health : Type := {
  health_status : string;
  health_model_loaded : bool;
  health_threshold_loaded : bool;
  health_preprocessor_ready : bool;
  health_timestamp : string;
  health_test_prediction_success : option bool;
  health_test_probability : option Q;
  health_test_error : option predictor_exn
}.

(** The record [health_check] scores. *)
Definition health_test_data : Raw.t :=
  Raw.mk "Month-to-month" 12 75 900 "Electronic check" "Fiber optic" "Yes".

(** [now] is read for the dict, [now_test] inside the test prediction. *)
Definition health_check (self : ChurnPredictor) (now now_test : string) : Health :=
  let health :=
    {| health_status := if is_loaded self then "healthy" else "unhealthy";
       health_model_loaded := is_loaded self;
       health_threshold_loaded := bool_decide (is_Some (optimal_threshold self));
       health_preprocessor_ready := bool_decide (is_Some (preprocessor self));
       health_timestamp := now;
       health_test_prediction_success := None;
       health_test_probability := None;
       health_test_error := None |} in
  if is_loaded self then
    match predict_single self now_test health_test_data (Some "health_check") with
    | inr test_result =>
        {| health_status := health_status health;
           health_model_loaded := health_model_loaded health;
           health_threshold_loaded := health_threshold_loaded health;
           health_preprocessor_ready := health_preprocessor_ready health;
           health_timestamp := health_timestamp health;
           health_test_prediction_success := Some true;
           health_test_probability := Some (churn_probability test_result);
           health_test_error := None |}
    | inl e =>
        {| health_status := "degraded";
           health_model_loaded := health_model_loaded health;
           health_threshold_loaded := health_threshold_loaded health;
           health_preprocessor_ready := health_preprocessor_ready health;
           health_timestamp := health_timestamp health;
           health_test_prediction_success := Some false;
           health_test_probability := None;
           health_test_error := Some e |}
    end
  else health.

(** * Definitions used to state the properties *)

(** The dict literal built by [compute_all_engineered_features]. *)
Definition engineered_dict (r1 : pyfloat) (seg new : Z) (r2 : pyfloat)
    : gmap string pynum :=
  <["Ratio_MonthlyCharges_tenure" := PyFloat r1]>
  (<["tenure_segment_encoded" := PyInt seg]>
  (<["is_new_customer" := PyInt new]>
  (<["Ratio_TotalCharges_MonthlyCharges*tenure" := PyFloat r2]> ∅))).

(** The values the feature functions return on inputs that pass their
    guards: the segment, the new-customer flag and the two ratios, the
    latter for a tenure that converts to a float. *)
Definition segment_of (tenure : Z) : Z :=
  if tenure <=? 6 then 0
  else if tenure <=? 12 then 1
  else if tenure <=? 24 then 2
  else 3.

Definition new_of (tenure : Z) : Z := if tenure <=? 6 then 1 else 0.

(** [float(n)] for an [n] that converts. *)
Definition as_float (n : Z) : pyfloat := round64 (inject_Z n).

Definition ratio_monthly_of (monthly_charges : pyfloat) (tenure : Z) : pyfloat :=
  fdiv monthly_charges (as_float (tenure + 1)).

Definition ratio_total_of (total_charges monthly_charges : pyfloat) (tenure : Z)
    : pyfloat :=
  if tenure =? 0 then Finite 1
  else fdiv total_charges (fmul monthly_charges (as_float tenure)).

(** Whether a value is a float: a finite one has to be representable. *)
Definition is_float (a : pyfloat) : bool :=
  match a with
  | Finite x => binary64 x
  | _ => true
  end.

(** Whether [float(n)] succeeds. *)
Definition converts (n : Z) : bool :=
  match float_of_int n with
  | OK _ => true
  | Raise _ => false
  end.

(** The smallest positive int that [float] refuses: half a unit in the
    last place above the largest float, about 1.797e308. *)
Definition float_limit : Z := 2 ^ 1024 - 2 ^ 970.

(** The four recognized categorical fields and their allowed values, as the
    data model lists them. *)
Definition recognized_fields : list string :=
  ["Contract"; "PaymentMethod"; "InternetService"; "PaperlessBilling"].

(** The allowed-value set of a field; [None] for any other field name. *)
Definition allowed_values (field : string) : option (list string) :=
  if String.eqb field "Contract" then Some CONTRACT_VALUES
  else if String.eqb field "PaymentMethod" then Some PAYMENT_METHOD_VALUES
  else if String.eqb field "InternetService" then Some INTERNET_SERVICE_VALUES
  else if String.eqb field "PaperlessBilling" then Some PAPERLESS_BILLING_VALUES
  else None.

(** What is assumed of the persisted encoders, which are not part of the
    sources: each one was fitted on labels that include every allowed value
    of its field. *)
Definition artifacts_cover (em : EncoderManager) : bool :=
  forallb (fun '(feature_name, encoder) =>
             match feature_mappings em !! feature_name with
             | Some values =>
                 forallb (fun v => bool_decide (v ∈ classes_ encoder)) values
             | None => false
             end)
          (encoders em).

(** Modelled from the spec: the persisted encoder files
    ([labelencoder_*.pkl]) are not among the sources. The specification
    describes them as one fixed value-to-code table per field over the
    field's allowed values; the tests expect the position in the sorted
    value list ('Month-to-month' is 0, 'Electronic check' is 2), which is
    what [LabelEncoder.fit] yields. This instance of the parameter
    [pickle_load] is used to show the assumptions can be met. *)
Definition fitted (classes : list string)
    (size : (Z.of_nat (length classes) <? 2 ^ 63) = true) : LabelEncoder :=
  {| classes_ := classes; classes_size := size |}.

Definition fitted_artifacts (path : string) : unpickled :=
  if String.eqb path "labelencoder_Contract.pkl" then
    Unpickled (fitted CONTRACT_VALUES eq_refl)
  else if String.eqb path "labelencoder_PaymentMethod.pkl" then
    Unpickled (fitted PAYMENT_METHOD_VALUES eq_refl)
  else if String.eqb path "labelencoder_InternetService.pkl" then
    Unpickled (fitted INTERNET_SERVICE_VALUES eq_refl)
  else if String.eqb path "labelencoder_PaperlessBilling.pkl" then
    Unpickled (fitted PAPERLESS_BILLING_VALUES eq_refl)
  else NotFound.

(** The manager and the preprocessor [__init__] builds from them. *)
Definition fitted_manager : EncoderManager :=
  {| encoders :=
       [("Contract", fitted CONTRACT_VALUES eq_refl);
        ("PaymentMethod", fitted PAYMENT_METHOD_VALUES eq_refl);
        ("InternetService", fitted INTERNET_SERVICE_VALUES eq_refl);
        ("PaperlessBilling", fitted PAPERLESS_BILLING_VALUES eq_refl)];
     feature_mappings := FEATURE_MAPPINGS |}.

Definition fitted_preprocessor : ChurnPreprocessor :=
  {| encoder_manager := fitted_manager; feature_order := MODEL_FEATURES |}.

(** The code [encode_feature] yields, if it yields one. *)
Definition code_of (self : EncoderManager) (feature_name value : string) : option Z :=
  match encode_feature self feature_name value with
  | OK code => Some code
  | Raise _ => None
  end.

(** Lookups in the engineered and in the raw dict, as functions of the key. *)
Definition engineered_lookup (r1 : pyfloat) (seg new : Z) (r2 : pyfloat) (k : string)
    : option pynum :=
  if String.eqb k "Ratio_MonthlyCharges_tenure" then Some (PyFloat r1)
  else if String.eqb k "tenure_segment_encoded" then Some (PyInt seg)
  else if String.eqb k "is_new_customer" then Some (PyInt new)
  else if String.eqb k "Ratio_TotalCharges_MonthlyCharges*tenure" then Some (PyFloat r2)
  else None.

Definition raw_lookup (t : Z) (m tc : Q) (k : string) : option pynum :=
  if String.eqb k "tenure" then Some (PyInt t)
  else if String.eqb k "MonthlyCharges" then Some (PyFloat m)
  else if String.eqb k "TotalCharges" then Some (PyFloat tc)
  else None.

(** The constraints of the data model on a raw client record, written from
    the specification: each categorical field in its enumeration, tenure an
    integer >= 0, monthly_charges > 0, total_charges >= 0. *)
Module Spec.

Definition fields : list string :=
  ["contract"; "tenure"; "monthly_charges"; "total_charges";
   "payment_method"; "internet_service"; "paperless_billing"].

Definition field_ok (d : Raw.t) (field : string) : bool :=
  if String.eqb field "contract" then
    bool_decide (Raw.contract d ∈ ["Month-to-month"; "One year"; "Two year"])
  else if String.eqb field "tenure" then 0 <=? Raw.tenure d
  else if String.eqb field "monthly_charges" then Qlt_bool 0 (Raw.monthly_charges d)
  else if String.eqb field "total_charges" then Qle_bool 0 (Raw.total_charges d)
  else if String.eqb field "payment_method" then
    bool_decide (Raw.payment_method d ∈
                   ["Bank transfer (automatic)"; "Credit card (automatic)";
                    "Electronic check"; "Mailed check"])
  else if String.eqb field "internet_service" then
    bool_decide (Raw.internet_service d ∈ ["DSL"; "Fiber optic"; "No"])
  else if String.eqb field "paperless_billing" then
    bool_decide (Raw.paperless_billing d ∈ ["No"; "Yes"])
  else true.

Definition violated_fields (d : Raw.t) : list string :=
  List.filter (fun field => negb (field_ok d field)) fields.

Definition valid (d : Raw.t) : Prop := violated_fields d = [].

End Spec.

(** The error list one field contributes. *)
Definition error_entry (loc : string) (o : option field_error)
    : list (string * field_error) :=
  match o with
  | Some e => [(loc, e)]
  | None => []
  end.

(** The [ClientInput] object holding the values of [d]. *)
Definition of_raw (d : Raw.t) : ClientInput :=
  {| contract := Raw.contract d;
     tenure := Raw.tenure d;
     monthly_charges := Raw.monthly_charges d;
     total_charges := Raw.total_charges d;
     payment_method := Raw.payment_method d;
     internet_service := Raw.internet_service d;
     paperless_billing := Raw.paperless_billing d |}.

(** The constraints [ClientInput] enforces, field by field. *)
Record accepted (d : Raw.t) : Prop := {
  acc_contract : Raw.contract d ∈ CONTRACT_VALUES;
  acc_tenure : MIN_TENURE <= Raw.tenure d;
  acc_monthly : (MIN_MONTHLY_CHARGES < Raw.monthly_charges d)%Q;
  acc_total : (inject_Z MIN_TOTAL_CHARGES <= Raw.total_charges d)%Q;
  acc_payment : Raw.payment_method d ∈ PAYMENT_METHOD_VALUES;
  acc_internet : Raw.internet_service d ∈ INTERNET_SERVICE_VALUES;
  acc_paperless : Raw.paperless_billing d ∈ PAPERLESS_BILLING_VALUES
}.

(** The encoded dict of a record whose four categorical values encode. *)
Definition encoded_dict (c p i b : Z) : gmap string Z :=
  <["PaperlessBilling" := b]> (<["InternetService" := i]>
  (<["PaymentMethod" := p]> (<["Contract" := c]> ∅))).

(** The feature vector of an accepted record, position by position. *)
Definition expected_vector (d : Raw.t) (c p i b : Z) : list pyfloat :=
  [ ratio_monthly_of (Raw.monthly_charges d) (Raw.tenure d);
    as_float c;
    as_float (Raw.tenure d);
    Finite (Raw.monthly_charges d);
    as_float (segment_of (Raw.tenure d));
    Finite (Raw.total_charges d);
    as_float (new_of (Raw.tenure d));
    as_float p;
    as_float i;
    as_float b;
    ratio_total_of (Raw.total_charges d) (Raw.monthly_charges d) (Raw.tenure d) ].

Definition expected_metadata (d : Raw.t) (c p i b : Z) : Metadata :=
  {| input_data := of_raw d;
     encoded_features := encoded_dict c p i b;
     engineered_features :=
       engineered_dict (ratio_monthly_of (Raw.monthly_charges d) (Raw.tenure d))
         (segment_of (Raw.tenure d)) (new_of (Raw.tenure d))
         (ratio_total_of (Raw.total_charges d) (Raw.monthly_charges d) (Raw.tenure d));
     feature_names := MODEL_FEATURES;
     feature_vector_shape := 11 |}.


(** A validated record whose monthly charge is the smallest positive
    float, 2^-1074. *)
Definition tiny_charges_input : ClientInput :=
  {| contract := "Month-to-month"; tenure := 1;
     monthly_charges := pow2 (-1074); total_charges := 0;
     payment_method := "Electronic check";
     internet_service := "Fiber optic"; paperless_billing := "Yes" |}.

(** A record the data model admits and the code refuses: only
    monthly_charges = 0.005 stands between it and a feature vector. *)
Definition small_charges_client : Raw.t :=
  Raw.mk "Month-to-month" 12 (1 # 200) 906 "Electronic check" "Fiber optic" "Yes".

(** The same record with monthly_charges = 0.01, the bound itself. *)
Definition one_cent_client : Raw.t :=
  Raw.mk "Month-to-month" 12 (1 # 100) 906 "Electronic check" "Fiber optic" "Yes".

(** The labels [_interpret_probability] can return, from the mildest to the
    most severe, and the position of a label in that order. *)
Definition risk_levels : list string :=
  ["Low Risk"; "Low-Medium Risk"; "Medium Risk";
   "Medium-High Risk"; "High Risk"; "Critical Risk"].

Definition risk_rank (level : string) : nat :=
  if String.eqb level "Low Risk" then 0
  else if String.eqb level "Low-Medium Risk" then 1
  else if String.eqb level "Medium Risk" then 2
  else if String.eqb level "Medium-High Risk" then 3
  else if String.eqb level "High Risk" then 4
  else if String.eqb level "Critical Risk" then 5
  else 6.

(** The labels given at or above the decision threshold. *)
Definition churn_levels : list string :=
  ["Medium-High Risk"; "High Risk"; "Critical Risk"].

(** The value of a key in the dict [build_feature_vector] merges: the
    engineered features shadow the encoded ones, which shadow the raw ones. *)
Definition merged_lookup (validated_input : ClientInput) (encoded : gmap string Z)
    (engineered : gmap string pynum) (k : string) : option pynum :=
  match engineered !! k with
  | Some v => Some v
  | None =>
      match encoded !! k with
      | Some c => Some (PyInt c)
      | None =>
          raw_lookup (tenure validated_input) (monthly_charges validated_input)
            (total_charges validated_input) k
      end
  end.

(** The files [__init__] opens, in the order of [ENCODER_FILES]. *)
Definition encoder_paths : list string := map snd ENCODER_FILES.

(** Whether a file loads, and the exception [_load_encoders] raises when it
    does not. *)
Definition loads (pickle_load : string -> unpickled) (path : string) : bool :=
  match pickle_load path with
  | Unpickled _ => true
  | _ => false
  end.

Definition load_error (path : string) (u : unpickled) : option exn :=
  match u with
  | Unpickled _ => None
  | NotFound => Some (EncoderFileMissing path)
  | Unreadable error => Some (EncoderLoadError error)
  end.

(** What [predict_batch] appends for one record. *)
Definition batch_entry (self : ChurnPredictor) (now : string) (client_data : Raw.t)
    (client_id : string) : ChurnPredictionResult :=
  match predict_single self now client_data (Some client_id) with
  | inr r => r
  | inl e => error_result now (Some client_id) e
  end.

(** A predictor to instantiate the statements with: the fitted encoders, a
    threshold of 0.351 and a model that scores every vector 0.7. *)
Definition demo_model : list pyfloat -> string + Q := fun _ => inr (7 # 10).

Definition demo_predictor : ChurnPredictor :=
  {| model := Some demo_model;
     optimal_threshold := Some (351 # 1000);
     preprocessor := Some fitted_preprocessor;
     is_loaded := true |}.



(** * Properties *)

(** Closed decidable goals, such as membership of a literal in a literal
    list. *)
Ltac by_decide := apply (bool_decide_unpack _); vm_compute; exact I.

(** Looking a key up in a dict literal written as a chain of inserts. *)
Ltac lookup_literal :=
  repeat first
    [ rewrite lookup_insert_eq
    | rewrite lookup_insert_ne by (discriminate || congruence)
    | rewrite lookup_empty ];
  reflexivity.

(** ** Comparisons on rationals *)

Lemma Qlt_bool_iff (x y : Q) : Qlt_bool x y = true <-> (x < y)%Q.
Proof.
  unfold Qlt_bool. rewrite negb_true_iff, <- not_true_iff_false, Qle_bool_iff.
  split; [apply Qnot_le_lt | apply Qlt_not_le].
Qed.

Lemma Qlt_bool_false (x y : Q) : (y <= x)%Q -> Qlt_bool x y = false.
Proof.
  intros H. apply not_true_iff_false. rewrite Qlt_bool_iff.
  now apply Qle_not_lt.
Qed.

Lemma Qle_bool_false (x y : Q) : (y < x)%Q -> Qle_bool x y = false.
Proof.
  intros H. apply not_true_iff_false. rewrite Qle_bool_iff.
  now apply Qlt_not_le.
Qed.

Lemma Qeq_bool_pos_false (x : Q) : (0 < x)%Q -> Qeq_bool x 0 = false.
Proof.
  intros H. apply not_true_iff_false. rewrite Qeq_bool_iff.
  intros E. rewrite E in H. now apply (Qlt_irrefl 0).
Qed.

Lemma inject_Z_pos (z : Z) : 0 < z -> (0 < inject_Z z)%Q.
Proof. intros H. unfold Qlt. simpl. lia. Qed.

Lemma Qdiv_pos (x y : Q) : (0 < x)%Q -> (0 < y)%Q -> (0 < x / y)%Q.
Proof.
  intros Hx Hy. apply Qlt_shift_div_l; [exact Hy |].
  now rewrite Qmult_0_l.
Qed.

Lemma Qdiv_nonneg (x y : Q) : (0 <= x)%Q -> (0 < y)%Q -> (0 <= x / y)%Q.
Proof.
  intros Hx Hy. apply Qle_shift_div_l; [exact Hy |].
  now rewrite Qmult_0_l.
Qed.

Lemma py_quotient_pos (x y : Q) : (0 < y)%Q -> py_quotient x y = OK (x / y)%Q.
Proof. intros Hy. unfold py_quotient. now rewrite Qeq_bool_pos_false. Qed.

(** ** Rounding to binary64 *)

(** Powers of two. *)

Lemma pow2_pos (e : Z) : (0 < pow2 e)%Q.
Proof. apply Qpower_0_lt. reflexivity. Qed.

Lemma pow2_add (a b : Z) : (pow2 (a + b) == pow2 a * pow2 b)%Q.
Proof. apply Qpower_plus. discriminate. Qed.

Lemma pow2_le (a b : Z) : a <= b -> (pow2 a <= pow2 b)%Q.
Proof. intros H. apply Qpower_le_compat_l; [exact H | discriminate]. Qed.

Lemma pow2_lt (a b : Z) : a < b -> (pow2 a < pow2 b)%Q.
Proof. intros H. apply Qpower_lt_compat_l; [exact H | reflexivity]. Qed.

Lemma pow2_lt_inv (a b : Z) : (pow2 a < pow2 b)%Q -> a < b.
Proof. intros H. apply (Qpower_lt_compat_l_inv 2); [exact H | reflexivity]. Qed.

Lemma pow2_inject (a : Z) : 0 <= a -> (pow2 a == inject_Z (2 ^ a))%Q.
Proof. intros H. unfold pow2. rewrite Zpower_Qpower by exact H. reflexivity. Qed.

Lemma pow2_div (a b : Z) : (pow2 a / pow2 b == pow2 (a - b))%Q.
Proof.
  pose proof (pow2_pos b) as Hb.
  replace a with ((a - b) + b) at 1 by ring.
  rewrite pow2_add. field. intros E. rewrite E in Hb. discriminate.
Qed.

(** The binary exponent of a positive rational. *)

Lemma Qlog2_spec (x : Q) :
  (0 < x)%Q -> (pow2 (Qlog2 x) <= x)%Q /\ (x < pow2 (Qlog2 x + 1))%Q.
Proof.
  intros Hx. destruct x as [n d].
  assert (Hn : 0 < n) by (unfold Qlt in Hx; simpl in Hx; lia).
  unfold Qlog2. simpl Qnum. simpl Qden.
  set (a := Z.log2 n). set (b := Z.log2 (Z.pos d)).
  destruct (Z.log2_spec n Hn) as [Ha1 Ha2]. fold a in Ha1, Ha2.
  destruct (Z.log2_spec (Z.pos d) (Pos2Z.is_pos d)) as [Hb1 Hb2]. fold b in Hb1, Hb2.
  assert (Ha0 : 0 <= a) by apply Z.log2_nonneg.
  assert (Hb0 : 0 <= b) by apply Z.log2_nonneg.
  assert (Hd : (0 < inject_Z (Z.pos d))%Q) by reflexivity.
  assert (Hx' : (n # d == inject_Z n / inject_Z (Z.pos d))%Q) by apply Qmake_Qdiv.
  assert (Hlow : (pow2 (a - b - 1) <= n # d)%Q).
  { rewrite Hx'. replace (a - b - 1) with (a - (b + 1)) by ring.
    rewrite <- pow2_div. rewrite (pow2_inject a), (pow2_inject (b + 1)) by lia.
    apply Qle_shift_div_l; [exact Hd |].
    unfold Qdiv. rewrite <- Qmult_assoc, (Qmult_comm (/ _)), Qmult_assoc.
    apply Qle_shift_div_r.
    { change 0%Q with (inject_Z 0). rewrite <- Zlt_Qlt. lia. }
    rewrite <- !inject_Z_mult. rewrite <- Zle_Qle. nia. }
  assert (Hhigh : (n # d < pow2 (a - b + 1))%Q).
  { rewrite Hx'. replace (a - b + 1) with ((a + 1) - b) by ring.
    rewrite <- pow2_div. rewrite (pow2_inject (a + 1)), (pow2_inject b) by lia.
    apply Qlt_shift_div_r; [exact Hd |].
    unfold Qdiv. rewrite <- Qmult_assoc, (Qmult_comm (/ _)), Qmult_assoc.
    apply Qlt_shift_div_l.
    { change 0%Q with (inject_Z 0). rewrite <- Zlt_Qlt. lia. }
    rewrite <- !inject_Z_mult. rewrite <- Zlt_Qlt. nia. }
  destruct (Qle_bool (pow2 (a - b)) (n # d)) eqn:E.
  - apply Qle_bool_iff in E. split; [exact E | exact Hhigh].
  - split.
    + exact Hlow.
    + replace (a - b - 1 + 1) with (a - b) by ring.
      apply Qnot_le_lt. intros H. apply Qle_bool_iff in H. congruence.
Qed.

Lemma Qlog2_ge (x : Q) (k : Z) : (0 < x)%Q -> (pow2 k <= x)%Q -> k <= Qlog2 x.
Proof.
  intros Hx Hk. destruct (Qlog2_spec x Hx) as [_ H].
  pose proof (pow2_lt_inv k (Qlog2 x + 1) (Qle_lt_trans _ _ _ Hk H)). lia.
Qed.

Lemma Qlog2_lt (x : Q) (k : Z) : (0 < x)%Q -> (x < pow2 k)%Q -> Qlog2 x < k.
Proof.
  intros Hx Hk. destruct (Qlog2_spec x Hx) as [H _].
  exact (pow2_lt_inv _ _ (Qle_lt_trans _ _ _ H Hk)).
Qed.

Lemma Qlog2_le (x : Q) (k : Z) : (0 < x)%Q -> (x <= pow2 k)%Q -> Qlog2 x <= k.
Proof.
  intros Hx Hk. destruct (Qlog2_spec x Hx) as [H _].
  pose proof (Qle_trans _ _ _ H Hk) as H'.
  apply (Qpower_le_compat_l_inv 2); [exact H' | reflexivity].
Qed.

(** Rounding to the nearest integer, ties to even. *)

Lemma round_half_even_floor (x : Q) :
  Qfloor x <= round_half_even x <= Qfloor x + 1.
Proof.
  unfold round_half_even. destruct (_ ?= _)%Q; [destruct (Z.even _) | |]; lia.
Qed.

Lemma round_half_even_ge (x : Q) (z : Z) :
  (inject_Z z <= x)%Q -> z <= round_half_even x.
Proof.
  intros H. pose proof (Qfloor_resp_le _ _ H) as Hf. rewrite Qfloor_Z in Hf.
  pose proof (round_half_even_floor x). lia.
Qed.

Lemma round_half_even_le (x : Q) (z : Z) :
  (x <= inject_Z z)%Q -> round_half_even x <= z.
Proof.
  intros H. pose proof (Qfloor_resp_le _ _ H) as Hf. rewrite Qfloor_Z in Hf.
  pose proof (round_half_even_floor x) as Hr.
  destruct (Z.eq_dec (Qfloor x) z) as [E | E]; [| lia].
  unfold round_half_even.
  pose proof (Qfloor_le x) as Hfl. rewrite E in Hfl |- *.
  destruct (Qcompare_spec (x - inject_Z z) (1 # 2)) as [C | C | C]; try lia; lra.
Qed.

Lemma round_half_even_mono (x y : Q) :
  (x <= y)%Q -> round_half_even x <= round_half_even y.
Proof.
  intros H. pose proof (Qfloor_resp_le _ _ H) as Hf.
  pose proof (round_half_even_floor x) as Hx.
  pose proof (round_half_even_floor y) as Hy.
  destruct (Z.eq_dec (Qfloor x) (Qfloor y)) as [E | E]; [| lia].
  unfold round_half_even. rewrite E.
  destruct (Qcompare_spec (x - inject_Z (Qfloor y)) (1 # 2)) as [C | C | C];
    destruct (Qcompare_spec (y - inject_Z (Qfloor y)) (1 # 2)) as [D | D | D];
    try destruct (Z.even _); try lia; lra.
Qed.

(** Rounding a positive rational to 53 significant bits: the result is
    between the powers of two that enclose the argument, and rounding is
    monotone. *)

Lemma scaled_by_ulp (q k : Z) :
  q <= k -> (pow2 k / pow2 q == inject_Z (2 ^ (k - q)))%Q.
Proof. intros H. rewrite pow2_div. apply pow2_inject. lia. Qed.

Lemma Qdiv_le_compat (a b c : Q) : (0 < c)%Q -> (a <= b)%Q -> (a / c <= b / c)%Q.
Proof.
  intros Hc H. unfold Qdiv. apply Qmult_le_compat_r; [exact H |].
  apply Qlt_le_weak, Qinv_lt_0_compat, Hc.
Qed.

Lemma unscale (q k : Z) :
  q <= k -> (inject_Z (2 ^ (k - q)) * pow2 q == pow2 k)%Q.
Proof.
  intros H. rewrite <- pow2_inject by lia. rewrite <- pow2_add.
  replace (k - q + q) with k by ring. reflexivity.
Qed.

Lemma round_val_ge (x : Q) (k : Z) :
  (0 < x)%Q -> emin <= k -> (pow2 k <= x)%Q -> (pow2 k <= round_val x)%Q.
Proof.
  intros Hx Hk H. unfold round_val.
  set (q := ulp_exponent x).
  pose proof (Qlog2_ge x k Hx H) as He.
  destruct (Qlog2_spec x Hx) as [Hlow _].
  assert (Hq : q <= Qlog2 x) by (unfold q, ulp_exponent, prec; lia).
  assert (Hn : 2 ^ (Qlog2 x - q) <= round_half_even (x / pow2 q)).
  { apply round_half_even_ge. rewrite <- (scaled_by_ulp q _ Hq).
    apply Qdiv_le_compat; [apply pow2_pos | exact Hlow]. }
  apply Qle_trans with (pow2 (Qlog2 x)); [apply pow2_le, He |].
  rewrite <- (unscale q _ Hq).
  apply Qmult_le_compat_r; [| apply Qlt_le_weak, pow2_pos].
  rewrite <- Zle_Qle. exact Hn.
Qed.

Lemma round_val_le (x : Q) (k : Z) :
  (0 < x)%Q -> emin <= k -> (x <= pow2 k)%Q -> (round_val x <= pow2 k)%Q.
Proof.
  intros Hx Hk H. unfold round_val.
  set (q := ulp_exponent x).
  assert (Hq : q <= k).
  { pose proof (Qlog2_le x k Hx H). unfold q, ulp_exponent, prec. lia. }
  assert (Hn : round_half_even (x / pow2 q) <= 2 ^ (k - q)).
  { apply round_half_even_le. rewrite <- (scaled_by_ulp q k Hq).
    apply Qdiv_le_compat; [apply pow2_pos | exact H]. }
  rewrite <- (unscale q k Hq).
  apply Qmult_le_compat_r; [| apply Qlt_le_weak, pow2_pos].
  rewrite <- Zle_Qle. exact Hn.
Qed.

Lemma round_val_nonneg (x : Q) : (0 <= x)%Q -> (0 <= round_val x)%Q.
Proof.
  intros Hx. unfold round_val. apply Qmult_le_0_compat.
  - change 0%Q with (inject_Z 0). rewrite <- Zle_Qle.
    apply round_half_even_ge.
    apply Qle_shift_div_l; [apply pow2_pos |].
    change (inject_Z 0) with 0%Q. rewrite Qmult_0_l. exact Hx.
  - apply Qlt_le_weak, pow2_pos.
Qed.

Lemma ulp_exponent_mono (x y : Q) :
  (0 < x)%Q -> (x <= y)%Q -> ulp_exponent x <= ulp_exponent y.
Proof.
  intros Hx H. destruct (Qlog2_spec x Hx) as [Hlow _].
  pose proof (Qlog2_ge y (Qlog2 x) (Qlt_le_trans _ _ _ Hx H) (Qle_trans _ _ _ Hlow H)).
  unfold ulp_exponent. lia.
Qed.

Lemma round_val_mono (x y : Q) :
  (0 < x)%Q -> (x <= y)%Q -> (round_val x <= round_val y)%Q.
Proof.
  intros Hx H.
  assert (Hy : (0 < y)%Q) by exact (Qlt_le_trans _ _ _ Hx H).
  pose proof (ulp_exponent_mono x y Hx H) as Hq.
  destruct (Z.eq_dec (ulp_exponent x) (ulp_exponent y)) as [E | E].
  - unfold round_val. rewrite E.
    apply Qmult_le_compat_r; [| apply Qlt_le_weak, pow2_pos].
    rewrite <- Zle_Qle. apply round_half_even_mono.
    apply Qdiv_le_compat; [apply pow2_pos | exact H].
  - assert (He : Qlog2 x < Qlog2 y /\ emin < Qlog2 y).
    { unfold ulp_exponent, prec in Hq, E. lia. }
    destruct He as [He Hm].
    destruct (Qlog2_spec x Hx) as [_ Hxh].
    destruct (Qlog2_spec y Hy) as [Hyl _].
    apply Qle_trans with (pow2 (Z.max (Qlog2 x + 1) emin)).
    + apply round_val_le; [exact Hx | lia |].
      apply Qle_trans with (pow2 (Qlog2 x + 1)); [apply Qlt_le_weak, Hxh |].
      apply pow2_le. lia.
    + apply Qle_trans with (pow2 (Qlog2 y)); [apply pow2_le; lia |].
      apply round_val_ge; [exact Hy | lia | exact Hyl].
Qed.

Lemma round_pos_cases (x : Q) :
  (round_pos x = Infinite false /\ (pow2 emax <= round_val x)%Q) \/
  (exists y, round_pos x = Finite y /\ (y == round_val x)%Q /\ (y < pow2 emax)%Q).
Proof.
  unfold round_pos. destruct (Qle_bool _ _) eqn:E.
  - left. split; [reflexivity |]. apply Qle_bool_iff in E.
    now rewrite Qred_correct in E.
  - right. exists (Qred (round_val x)). split; [reflexivity |].
    split; [apply Qred_correct |].
    apply Qnot_le_lt. intros H. apply Qle_bool_iff in H. congruence.
Qed.

Lemma round64_pos (x : Q) : (0 < x)%Q -> round64 x = round_pos x.
Proof.
  intros Hx. unfold round64. apply Qgt_alt in Hx. now rewrite Hx.
Qed.

Lemma round64_zero (x : Q) : (x == 0)%Q -> round64 x = Finite 0.
Proof.
  intros Hx. unfold round64. apply Qeq_alt in Hx. now rewrite Hx.
Qed.

(** Floats at or above a power of two stay there. *)
Lemma round64_lower (x : Q) (k : Z) :
  emin <= k -> (pow2 k <= x)%Q -> fleb (pow2 k) (round64 x) = true.
Proof.
  intros Hk H.
  assert (Hx : (0 < x)%Q) by exact (Qlt_le_trans _ _ _ (pow2_pos k) H).
  rewrite (round64_pos x Hx).
  destruct (round_pos_cases x) as [[-> _] | (y & -> & Hy & _)]; [reflexivity |].
  cbn. apply Qle_bool_iff. rewrite Hy. now apply round_val_ge.
Qed.

(** Rationals up to a power of two below [2^1024] round to a finite float
    that is still below it. *)
Lemma round64_upper (x : Q) (k : Z) :
  emin <= k -> k < emax -> (0 <= x)%Q -> (x <= pow2 k)%Q ->
  exists y, round64 x = Finite y /\ (0 <= y)%Q /\ (y <= pow2 k)%Q.
Proof.
  intros Hk Hk' H0 H.
  destruct (Qle_lt_or_eq _ _ H0) as [Hx | Hx].
  - rewrite (round64_pos x Hx).
    pose proof (round_val_le x k Hx Hk H) as Hle.
    destruct (round_pos_cases x) as [[_ Hinf] | (y & -> & Hy & _)].
    + exfalso. apply (Qlt_irrefl (pow2 emax)).
      apply Qle_lt_trans with (pow2 k); [| now apply pow2_lt].
      exact (Qle_trans _ _ _ Hinf Hle).
    + exists y. split; [reflexivity |]. rewrite Hy. split; [| exact Hle].
      apply round_val_nonneg, H0.
  - exists 0%Q. split; [apply round64_zero; now symmetry |].
    split; [apply Qle_refl | apply Qlt_le_weak, pow2_pos].
Qed.

Lemma round64_nonneg (x : Q) : (0 <= x)%Q -> fleb 0%Q (round64 x) = true.
Proof.
  intros H0. destruct (Qle_lt_or_eq _ _ H0) as [Hx | Hx].
  - rewrite (round64_pos x Hx).
    destruct (round_pos_cases x) as [[-> _] | (y & -> & Hy & _)]; [reflexivity |].
    cbn. apply Qle_bool_iff. rewrite Hy. apply round_val_nonneg, H0.
  - rewrite round64_zero by now symmetry. reflexivity.
Qed.

Lemma round64_mono (x y : Q) :
  (0 <= x)%Q -> (x <= y)%Q -> fleb (round64 x) (round64 y) = true.
Proof.
  intros H0 H. destruct (Qle_lt_or_eq _ _ H0) as [Hx | Hx].
  - assert (Hy : (0 < y)%Q) by exact (Qlt_le_trans _ _ _ Hx H).
    rewrite (round64_pos x Hx), (round64_pos y Hy).
    pose proof (round_val_mono x y Hx H) as Hle.
    destruct (round_pos_cases x) as [[-> Hxi] | (a & -> & Ha & Hxf)];
      destruct (round_pos_cases y) as [[-> Hyi] | (b & -> & Hb & Hyf)];
      try reflexivity.
    + exfalso. apply (Qlt_irrefl (pow2 emax)).
      apply Qle_lt_trans with b; [| exact Hyf].
      rewrite Hb. exact (Qle_trans _ _ _ Hxi Hle).
    + cbn. apply Qle_bool_iff. now rewrite Ha, Hb.
  - rewrite (round64_zero x) by now symmetry.
    apply round64_nonneg. now rewrite Hx.
Qed.

(** The smallest positive float is [2^-1074]. *)
Lemma binary64_pos_min (x : Q) :
  binary64 x = true -> (0 < x)%Q -> (pow2 emin <= x)%Q.
Proof.
  intros Hb Hx. apply Qnot_lt_le. intros Hlt.
  unfold binary64 in Hb. rewrite (round64_pos x Hx) in Hb.
  destruct (round_pos_cases x) as [[E _] | (y & E & Hy & _)];
    rewrite E in Hb; [discriminate |].
  apply Qeq_bool_iff in Hb. rewrite Hy in Hb.
  assert (Hq : ulp_exponent x = emin).
  { pose proof (Qlog2_lt x emin Hx Hlt). unfold ulp_exponent, prec. lia. }
  unfold round_val in Hb. rewrite Hq in Hb.
  set (n := round_half_even (x / pow2 emin)) in Hb.
  assert (Hn0 : 0 <= n).
  { apply round_half_even_ge. apply Qle_shift_div_l; [apply pow2_pos |].
    change (inject_Z 0) with 0%Q. rewrite Qmult_0_l. now apply Qlt_le_weak. }
  assert (Hn1 : n <= 1).
  { apply round_half_even_le. apply Qle_shift_div_r; [apply pow2_pos |].
    change (inject_Z 1) with 1%Q. rewrite Qmult_1_l. now apply Qlt_le_weak. }
  assert (Hn : n = 0 \/ n = 1) by lia.
  destruct Hn as [-> | ->].
  - change (inject_Z 0) with 0%Q in Hb. rewrite Qmult_0_l in Hb.
    rewrite <- Hb in Hx. now apply (Qlt_irrefl 0).
  - change (inject_Z 1) with 1%Q in Hb. rewrite Qmult_1_l in Hb.
    rewrite <- Hb in Hlt. now apply (Qlt_irrefl (pow2 emin)).
Qed.

(** ** Comparisons on floats *)

Lemma fleb_fltb (a : Q) (r : pyfloat) :
  (0 < a)%Q -> fleb a r = true -> fltb 0%Q r = true.
Proof.
  intros Ha. destruct r as [y | s |]; cbn; try easy.
  intros H. apply Qle_bool_iff in H. apply Qlt_bool_iff.
  exact (Qlt_le_trans _ _ _ Ha H).
Qed.

Lemma fltb_nonzero (r : pyfloat) : fltb 0%Q r = true -> feqb r 0%Q = false.
Proof.
  destruct r as [y | s |]; cbn; try easy.
  intros H. apply Qlt_bool_iff in H. now apply Qeq_bool_pos_false.
Qed.

(** ** Converting an int to a float *)

Lemma float_of_int_converts (n : Z) :
  converts n = true -> float_of_int n = OK (as_float n).
Proof.
  unfold converts, float_of_int, as_float.
  destruct (round64 (inject_Z n)); [reflexivity | discriminate | discriminate].
Qed.

Lemma float_of_int_overflow (n : Z) :
  converts n = false -> float_of_int n = Raise OverflowError.
Proof.
  unfold converts, float_of_int.
  destruct (round64 (inject_Z n)); [discriminate | reflexivity | reflexivity].
Qed.

Lemma converts_finite (n : Z) :
  converts n = true -> exists y, as_float n = Finite y.
Proof.
  unfold converts, float_of_int, as_float.
  destruct (round64 (inject_Z n)) as [y | |]; [eauto | discriminate | discriminate].
Qed.

(** Below [2^1023] every int converts (the largest that does is just
    under [2^1024]). *)
Lemma converts_small (n : Z) : 0 <= n <= 2 ^ 1023 -> converts n = true.
Proof.
  intros [H0 H].
  destruct (round64_upper (inject_Z n) 1023) as (y & E & _).
  - discriminate.
  - reflexivity.
  - change 0%Q with (inject_Z 0). now rewrite <- Zle_Qle.
  - rewrite (pow2_inject 1023) by discriminate. now rewrite <- Zle_Qle.
  - unfold converts, float_of_int. now rewrite E.
Qed.

(** If an int converts, so does every smaller non-negative one. *)
Lemma converts_mono (n m : Z) :
  0 <= n <= m -> converts m = true -> converts n = true.
Proof.
  intros [H0 H] Hm.
  destruct (converts_finite m Hm) as (b & Eb). unfold as_float in Eb.
  assert (Hle : fleb (round64 (inject_Z n)) (round64 (inject_Z m)) = true).
  { apply round64_mono.
    - change 0%Q with (inject_Z 0). now rewrite <- Zle_Qle.
    - now rewrite <- Zle_Qle. }
  assert (Hnn : fleb 0%Q (round64 (inject_Z n)) = true).
  { apply round64_nonneg. change 0%Q with (inject_Z 0). now rewrite <- Zle_Qle. }
  unfold converts, float_of_int. rewrite Eb in Hle.
  destruct (round64 (inject_Z n)) as [a | [] |]; try reflexivity; discriminate.
Qed.

(** A non-negative int converts exactly when it is below [float_limit]. *)
Lemma converts_iff (n : Z) : 0 <= n -> (converts n = true <-> n < float_limit).
Proof.
  intros H0. split.
  - intros Hc. destruct (Z.lt_ge_cases n float_limit) as [Hlt | Hge]; [exact Hlt |].
    assert (Hlim : converts float_limit = true).
    { apply (converts_mono float_limit n); [| exact Hc].
      split; [discriminate | exact Hge]. }
    vm_compute in Hlim. discriminate.
  - intros Hlt. apply (converts_mono n (float_limit - 1)); [lia |].
    vm_compute. reflexivity.
Qed.

Lemma converts_below (n : Z) : 0 <= n -> n < float_limit -> converts n = true.
Proof. intros H0 H. now apply converts_iff. Qed.

Lemma converts_above (n : Z) : 0 <= n -> float_limit <= n -> converts n = false.
Proof.
  intros H0 H. destruct (converts n) eqn:E; [| reflexivity].
  apply converts_iff in E; [lia | exact H0].
Qed.

(** A positive int converts to a float that is at least 1 and below
    [2^1024]. *)
Lemma as_float_ge1 (n : Z) :
  1 <= n -> converts n = true ->
  exists y, as_float n = Finite y /\ (1 <= y)%Q /\ (y < pow2 emax)%Q.
Proof.
  intros Hn Hc. destruct (converts_finite n Hc) as (y & E).
  exists y. split; [exact E |].
  assert (H1 : (pow2 0 <= inject_Z n)%Q).
  { change (pow2 0) with (inject_Z 1). now rewrite <- Zle_Qle. }
  assert (Hpos : (0 < inject_Z n)%Q) by (apply inject_Z_pos; lia).
  pose proof (round64_lower (inject_Z n) 0 ltac:(discriminate) H1) as Hlow.
  unfold as_float in E. rewrite E in Hlow. cbn in Hlow. apply Qle_bool_iff in Hlow.
  split; [exact Hlow |].
  rewrite (round64_pos _ Hpos) in E.
  destruct (round_pos_cases (inject_Z n)) as [[E' _] | (y' & E' & _ & Hlt)];
    rewrite E' in E; [discriminate |].
  now injection E as <-.
Qed.

(** A small non-negative int converts to a non-negative float. *)
Lemma as_float_small (n : Z) :
  0 <= n <= 2 ^ 63 -> converts n = true /\ float64 (PyInt n) = OK (as_float n).
Proof.
  intros H. assert (Hc : converts n = true) by (apply converts_small; lia).
  split; [exact Hc |]. cbn. now apply float_of_int_converts.
Qed.

(** ** The engineered features, one by one *)

Lemma segment_mapping_lookups :
  subscript TENURE_SEGMENT_MAPPING "Nouveaux_0-6m" = OK 0 /\
  subscript TENURE_SEGMENT_MAPPING "Junior_6-12m" = OK 1 /\
  subscript TENURE_SEGMENT_MAPPING "Moyen_12-24m" = OK 2 /\
  subscript TENURE_SEGMENT_MAPPING "Senior_24m+" = OK 3.
Proof. repeat split; vm_compute; reflexivity. Qed.

(** The closed form of the segment function on non-negative tenures. *)
Lemma segment_closed_form (tenure : Z) :
  0 <= tenure ->
  calculate_tenure_segment_encoded tenure =
    OK (if tenure <=? 6 then 0
        else if tenure <=? 12 then 1
        else if tenure <=? 24 then 2
        else 3).
Proof.
  intros Ht. unfold calculate_tenure_segment_encoded.
  destruct segment_mapping_lookups as (E0 & E1 & E2 & E3).
  destruct (Z.ltb_spec tenure 0) as [Hneg | _]; [lia |].
  destruct (tenure <=? 6); [exact E0 |].
  destruct (tenure <=? 12); [exact E1 |].
  destruct (tenure <=? 24); [exact E2 | exact E3].
Qed.

(** The divisor [tenure + 1], once converted, is at least 1. *)
Lemma divisor_nonzero (n : Z) :
  1 <= n -> converts n = true -> feqb (as_float n) 0%Q = false.
Proof.
  intros Hn Hc. destruct (as_float_ge1 n Hn Hc) as (y & -> & Hy & _).
  cbn [feqb]. apply Qeq_bool_pos_false.
  apply Qlt_le_trans with 1%Q; [reflexivity | exact Hy].
Qed.

(** The monthly ratio, on every input: the guards in source order, then
    the conversion of [tenure + 1], then the division. *)
Lemma ratio_monthly_cases (monthly_charges : pyfloat) (tenure : Z) :
  calculate_ratio_monthly_charges_tenure monthly_charges tenure =
    if fleb monthly_charges 0%Q then
      Raise (MustBePositive "MonthlyCharges" (PyFloat monthly_charges))
    else if tenure <? 0 then Raise (MustBeNonNegative "Tenure" (PyInt tenure))
    else if converts (tenure + 1) then OK (ratio_monthly_of monthly_charges tenure)
    else Raise OverflowError.
Proof.
  unfold calculate_ratio_monthly_charges_tenure.
  destruct (fleb monthly_charges 0%Q); [reflexivity |].
  destruct (Z.ltb_spec tenure 0) as [Hneg | Ht]; [reflexivity |].
  destruct (converts (tenure + 1)) eqn:Hc.
  - rewrite (float_of_int_converts _ Hc). cbn [mbind result_bind].
    unfold py_div. now rewrite (divisor_nonzero (tenure + 1) ltac:(lia) Hc).
  - now rewrite (float_of_int_overflow _ Hc).
Qed.

Lemma ratio_monthly_closed_form (monthly_charges : Q) (tenure : Z) :
  (0 < monthly_charges)%Q -> 0 <= tenure ->
  calculate_ratio_monthly_charges_tenure monthly_charges tenure =
    if converts (tenure + 1) then OK (ratio_monthly_of monthly_charges tenure)
    else Raise OverflowError.
Proof.
  intros Hm Ht. rewrite ratio_monthly_cases. cbn [fleb].
  rewrite (Qle_bool_false _ _ Hm).
  now destruct (Z.ltb_spec tenure 0) as [Hneg | _]; [lia |].
Qed.

(** The product [monthly_charges * tenure] of a positive float and a
    positive tenure is a positive float (possibly infinite). *)
Lemma denominator_positive (monthly_charges : Q) (tenure : Z) :
  (pow2 emin <= monthly_charges)%Q -> 0 < tenure -> converts tenure = true ->
  fltb 0%Q (fmul monthly_charges (as_float tenure)) = true.
Proof.
  intros Hm Ht Hc.
  destruct (as_float_ge1 tenure ltac:(lia) Hc) as (y & -> & Hy & _).
  cbn [fmul]. apply (fleb_fltb (pow2 emin)); [apply pow2_pos |].
  apply round64_lower; [lia |].
  rewrite <- (Qmult_1_r (pow2 emin)).
  apply Qmult_le_compat_nonneg.
  - split; [apply Qlt_le_weak, pow2_pos | exact Hm].
  - split; [discriminate | exact Hy].
Qed.

(** Whatever float passes the guard [monthly_charges <= 0] (a positive
    float, +inf or a NaN), its product with a positive tenure is not
    zero. *)
Lemma denominator_nonzero (monthly_charges : pyfloat) (tenure : Z) :
  is_float monthly_charges = true -> fleb monthly_charges 0%Q = false ->
  0 < tenure -> converts tenure = true ->
  feqb (fmul monthly_charges (as_float tenure)) 0%Q = false.
Proof.
  intros Hf Hm Ht Hc. destruct monthly_charges as [x | [] |].
  - apply fltb_nonzero, denominator_positive; [| exact Ht | exact Hc].
    cbn in Hf, Hm. apply binary64_pos_min; [exact Hf |].
    apply Qnot_le_lt. intros H. apply Qle_bool_iff in H. congruence.
  - discriminate Hm.
  - destruct (as_float_ge1 tenure ltac:(lia) Hc) as (y & -> & Hy & _).
    cbn [fmul]. rewrite Qeq_bool_pos_false; [reflexivity |].
    apply Qlt_le_trans with 1%Q; [reflexivity | exact Hy].
  - destruct (as_float tenure); reflexivity.
Qed.

(** The total ratio, on every input. *)
Lemma ratio_total_cases (total_charges monthly_charges : pyfloat) (tenure : Z) :
  is_float monthly_charges = true ->
  calculate_ratio_total_monthly_tenure total_charges monthly_charges tenure =
    if fltb total_charges 0%Q then
      Raise (MustBeNonNegative "TotalCharges" (PyFloat total_charges))
    else if fleb monthly_charges 0%Q then
      Raise (MustBePositive "MonthlyCharges" (PyFloat monthly_charges))
    else if tenure <? 0 then Raise (MustBeNonNegative "Tenure" (PyInt tenure))
    else if (tenure =? 0) || converts tenure then
      OK (ratio_total_of total_charges monthly_charges tenure)
    else Raise OverflowError.
Proof.
  intros Hf. unfold calculate_ratio_total_monthly_tenure, ratio_total_of.
  destruct (fltb total_charges 0%Q); [reflexivity |].
  destruct (fleb monthly_charges 0%Q) eqn:Hm; [reflexivity |].
  destruct (Z.ltb_spec tenure 0) as [Hneg | Ht]; [reflexivity |].
  destruct (Z.eqb_spec tenure 0) as [E | NE]; [reflexivity |].
  cbn [orb]. destruct (converts tenure) eqn:Hc.
  - rewrite (float_of_int_converts _ Hc). cbn [mbind result_bind]. unfold py_div.
    assert (Hpos : 0 < tenure) by lia.
    now rewrite (denominator_nonzero _ _ Hf Hm Hpos Hc).
  - now rewrite (float_of_int_overflow _ Hc).
Qed.

Lemma ratio_total_closed_form (total_charges monthly_charges : Q) (tenure : Z) :
  (0 <= total_charges)%Q -> (pow2 emin <= monthly_charges)%Q -> 0 <= tenure ->
  calculate_ratio_total_monthly_tenure total_charges monthly_charges tenure =
    if (tenure =? 0) || converts tenure
    then OK (ratio_total_of total_charges monthly_charges tenure)
    else Raise OverflowError.
Proof.
  intros Htc Hm Ht. unfold calculate_ratio_total_monthly_tenure, ratio_total_of.
  assert (Hm' : (0 < monthly_charges)%Q)
    by exact (Qlt_le_trans _ _ _ (pow2_pos emin) Hm).
  cbn [fltb fleb].
  rewrite (Qlt_bool_false _ _ Htc), (Qle_bool_false _ _ Hm').
  destruct (Z.ltb_spec tenure 0) as [Hneg | _]; [lia |].
  destruct (Z.eqb_spec tenure 0) as [E | NE]; [reflexivity |].
  cbn [orb]. destruct (converts tenure) eqn:Hc.
  - rewrite (float_of_int_converts _ Hc). cbn [mbind result_bind]. unfold py_div.
    rewrite fltb_nonzero; [reflexivity |].
    apply denominator_positive; [exact Hm | lia | exact Hc].
  - now rewrite (float_of_int_overflow _ Hc).
Qed.

(** Guards and hypotheses on floats. *)
Lemma fleb_not_fltb (a b : pyfloat) : fleb a b = true -> fltb b a = false.
Proof.
  destruct a as [x | [] |], b as [y | [] |]; cbn; try easy.
  intros H. apply Qle_bool_iff in H. now apply Qlt_bool_false.
Qed.

Lemma fltb_not_fleb (a b : pyfloat) : fltb a b = true -> fleb b a = false.
Proof.
  destruct a as [x | [] |], b as [y | [] |]; cbn; try easy.
  intros H. apply Qlt_bool_iff in H. now apply Qle_bool_false.
Qed.

(** C3, corrected. For total_charges >= 0 and monthly_charges > 0,
    [calculate_ratio_total_monthly_tenure] returns exactly 1.0 when
    tenure = 0, whatever total_charges is (0 included). When tenure > 0
    is below 2^1024 - 2^970, so that it converts to a float, it returns the
    float quotient total_charges / (monthly_charges * tenure), product and
    quotient each rounded to the nearest float; from that limit on it
    returns nothing and raises [OverflowError]. *)
Theorem C3_ratio_total_monthly_tenure
    (total_charges monthly_charges : pyfloat) (tenure : Z) :
  fleb 0%Q total_charges = true -> fltb 0%Q monthly_charges = true ->
  (tenure = 0 ->
     calculate_ratio_total_monthly_tenure total_charges monthly_charges tenure
       = OK (Finite 1)) /\
  (0 < tenure -> is_float monthly_charges = true -> tenure < float_limit ->
     calculate_ratio_total_monthly_tenure total_charges monthly_charges tenure
       = OK (fdiv total_charges (fmul monthly_charges (as_float tenure)))) /\
  (float_limit <= tenure ->
     calculate_ratio_total_monthly_tenure total_charges monthly_charges tenure
       = Raise OverflowError).
Proof.
  intros Htc Hm.
  apply fleb_not_fltb in Htc. apply fltb_not_fleb in Hm.
  split; [| split].
  - intros ->. unfold calculate_ratio_total_monthly_tenure.
    now rewrite Htc, Hm.
  - intros Ht Hf Hlim.
    pose proof (converts_below tenure ltac:(lia) Hlim) as Hc.
    rewrite (ratio_total_cases _ _ _ Hf), Htc, Hm.
    destruct (Z.ltb_spec tenure 0) as [Hneg | _]; [lia |].
    rewrite Hc, orb_true_r. unfold ratio_total_of.
    destruct (Z.eqb_spec tenure 0); [lia | reflexivity].
  - intros Hlim.
    assert (Ht : 0 < tenure) by (eapply Z.lt_le_trans; [| exact Hlim]; reflexivity).
    pose proof (converts_above tenure ltac:(lia) Hlim) as Hc.
    unfold calculate_ratio_total_monthly_tenure.
    rewrite Htc, Hm.
    destruct (Z.ltb_spec tenure 0) as [Hneg | _]; [lia |].
    destruct (Z.eqb_spec tenure 0) as [E | NE]; [lia |].
    now rewrite (float_of_int_overflow _ Hc).
Qed.

Lemma C3_ratio_total_monthly_tenure_witness :
  calculate_ratio_total_monthly_tenure 0%Q 50%Q 0 = OK (Finite 1) /\
  calculate_ratio_total_monthly_tenure 600%Q 50%Q 12 = OK (Finite 1) /\
  calculate_ratio_total_monthly_tenure 100%Q 50%Q 3
    = OK (Finite (6004799503160661 # 9007199254740992)) /\
  calculate_ratio_total_monthly_tenure (Infinite false) (Infinite false) 3 = OK NaN /\
  calculate_ratio_total_monthly_tenure 600%Q 50%Q (10 ^ 400) = Raise OverflowError.
Proof.
  split; [| split; [| split; [| split]]].
  - apply (C3_ratio_total_monthly_tenure 0%Q 50%Q 0); reflexivity.
  - apply (C3_ratio_total_monthly_tenure 600%Q 50%Q 12); reflexivity.
  - apply (C3_ratio_total_monthly_tenure 100%Q 50%Q 3); reflexivity.
  - apply (C3_ratio_total_monthly_tenure (Infinite false) (Infinite false) 3);
      reflexivity.
  - apply (C3_ratio_total_monthly_tenure 600%Q 50%Q (10 ^ 400));
      [reflexivity | reflexivity | vm_compute; discriminate].
Defined.

(** C3, as stated, fails: tenure = 10^400 is > 0, total_charges = 600 is
    >= 0 and monthly_charges = 50 is > 0, yet no quotient is returned. *)
Lemma C3_ratio_total_monthly_tenure_counterexample :
  fleb 0%Q 600%Q = true /\ fltb 0%Q 50%Q = true /\ 0 < 10 ^ 400 /\
  calculate_ratio_total_monthly_tenure 600%Q 50%Q (10 ^ 400) = Raise OverflowError /\
  ~ (exists ratio,
       calculate_ratio_total_monthly_tenure 600%Q 50%Q (10 ^ 400) = OK ratio).
Proof.
  assert (E : calculate_ratio_total_monthly_tenure 600%Q 50%Q (10 ^ 400)
              = Raise OverflowError) by (vm_compute; reflexivity).
  split; [reflexivity |]. split; [reflexivity |]. split; [reflexivity |].
  split; [exact E |]. intros [ratio H]. rewrite E in H. discriminate.
Qed.

(** C4. On every tenure >= 0, [calculate_tenure_segment_encoded] is the
    step function: tenure <= 6 gives 0, 7..12 gives 1, 13..24 gives 2 and
    every tenure > 24 gives 3, with no upper bound; in particular
    segment(6)=0, segment(7)=1, segment(12)=1, segment(13)=2,
    segment(24)=2, segment(25)=3. *)
Theorem C4_tenure_segment_step_function (tenure : Z) :
  0 <= tenure ->
  ((tenure <= 6 -> calculate_tenure_segment_encoded tenure = OK 0) /\
   (7 <= tenure <= 12 -> calculate_tenure_segment_encoded tenure = OK 1) /\
   (13 <= tenure <= 24 -> calculate_tenure_segment_encoded tenure = OK 2) /\
   (24 < tenure -> calculate_tenure_segment_encoded tenure = OK 3)) /\
  (calculate_tenure_segment_encoded 6 = OK 0 /\
   calculate_tenure_segment_encoded 7 = OK 1 /\
   calculate_tenure_segment_encoded 12 = OK 1 /\
   calculate_tenure_segment_encoded 13 = OK 2 /\
   calculate_tenure_segment_encoded 24 = OK 2 /\
   calculate_tenure_segment_encoded 25 = OK 3).
Proof.
  intros Ht. split.
  - rewrite (segment_closed_form tenure Ht).
    repeat split; intros H;
      repeat match goal with
             | |- context [?a <=? ?b] => destruct (Z.leb_spec a b); try lia
             end; reflexivity.
  - repeat split; rewrite segment_closed_form by lia; reflexivity.
Qed.

Lemma C4_tenure_segment_step_function_witness :
  calculate_tenure_segment_encoded 1000000 = OK 3.
Proof.
  apply (C4_tenure_segment_step_function 1000000); lia.
Defined.

(** C10. For every tenure >= 0 the segment is 0 exactly when the
    new-customer flag is 1: both switch at tenure <= 6. *)
Theorem C10_segment_zero_iff_new_customer (tenure : Z) :
  0 <= tenure ->
  (calculate_tenure_segment_encoded tenure = OK 0 <->
   calculate_is_new_customer tenure = OK 1).
Proof.
  intros Ht. rewrite (segment_closed_form tenure Ht).
  unfold calculate_is_new_customer.
  destruct (Z.ltb_spec tenure 0) as [Hneg | _]; [lia |].
  destruct (tenure <=? 6); [tauto |].
  destruct (tenure <=? 12); [split; discriminate |].
  destruct (tenure <=? 24); split; discriminate.
Qed.

Lemma C10_segment_zero_iff_new_customer_witness :
  calculate_tenure_segment_encoded 6 = OK 0 <->
  calculate_is_new_customer 6 = OK 1.
Proof.
  apply (C10_segment_zero_iff_new_customer 6). lia.
Defined.

(** ** The validation gate *)

Lemma engineered_dict_lookups (r1 : pyfloat) (seg new : Z) (r2 : pyfloat) :
  engineered_dict r1 seg new r2 !! "Ratio_MonthlyCharges_tenure" = Some (PyFloat r1) /\
  engineered_dict r1 seg new r2 !! "tenure_segment_encoded" = Some (PyInt seg) /\
  engineered_dict r1 seg new r2 !! "is_new_customer" = Some (PyInt new) /\
  engineered_dict r1 seg new r2 !! "Ratio_TotalCharges_MonthlyCharges*tenure"
    = Some (PyFloat r2).
Proof. unfold engineered_dict. repeat split; lookup_literal. Qed.

(** What [compute_all_engineered_features] does on inputs that pass its
    guards: the four features when [tenure + 1] converts to a float, an
    [OverflowError] from the first ratio when it does not. *)
Lemma compute_all_closed_form (tenure : Z) (monthly_charges total_charges : Q) :
  0 <= tenure -> (pow2 emin <= monthly_charges)%Q -> (0 <= total_charges)%Q ->
  compute_all_engineered_features tenure monthly_charges total_charges =
    if converts (tenure + 1) then
      OK (engineered_dict (ratio_monthly_of monthly_charges tenure)
                          (segment_of tenure) (new_of tenure)
                          (ratio_total_of total_charges monthly_charges tenure))
    else Raise OverflowError.
Proof.
  intros Ht Hm Htc. unfold compute_all_engineered_features.
  assert (Hm' : (0 < monthly_charges)%Q)
    by exact (Qlt_le_trans _ _ _ (pow2_pos emin) Hm).
  destruct (Z.ltb_spec tenure 0) as [Hneg | _]; [lia |].
  cbn [fleb fltb].
  rewrite (Qle_bool_false _ _ Hm'), (Qlt_bool_false _ _ Htc).
  rewrite ratio_monthly_closed_form, segment_closed_form,
    ratio_total_closed_form by assumption.
  destruct (converts (tenure + 1)) eqn:Hc; [| reflexivity].
  rewrite (converts_mono tenure (tenure + 1) ltac:(lia) Hc), orb_true_r.
  unfold calculate_is_new_customer.
  destruct (Z.ltb_spec tenure 0) as [Hneg | _]; [lia |].
  reflexivity.
Qed.

Lemma validate_engineered_dict (r1 : pyfloat) (seg new : Z) (r2 : pyfloat) :
  validate_engineered_features (engineered_dict r1 seg new r2) =
    num_ltb (PyInt 0) (PyFloat r1)
    && num_in (PyInt seg) [PyInt 0; PyInt 1; PyInt 2; PyInt 3]
    && num_in (PyInt new) [PyInt 0; PyInt 1]
    && num_leb (PyInt 0) (PyFloat r2).
Proof.
  destruct (engineered_dict_lookups r1 seg new r2) as (E1 & E2 & E3 & E4).
  unfold validate_engineered_features, required_features.
  cbn [forallb]. rewrite E1, E2, E3, E4.
  rewrite !bool_decide_eq_true_2 by eauto. cbn [negb andb id].
  destruct (num_ltb _ _), (num_in (PyInt seg) _), (num_in (PyInt new) _),
    (num_leb _ _); reflexivity.
Qed.

Lemma segment_of_range (tenure : Z) :
  num_in (PyInt (segment_of tenure)) [PyInt 0; PyInt 1; PyInt 2; PyInt 3] = true.
Proof.
  unfold segment_of.
  destruct (tenure <=? 6); [reflexivity |].
  destruct (tenure <=? 12); [reflexivity |].
  destruct (tenure <=? 24); reflexivity.
Qed.

Lemma new_of_range (tenure : Z) :
  num_in (PyInt (new_of tenure)) [PyInt 0; PyInt 1] = true.
Proof. unfold new_of. destruct (tenure <=? 6); reflexivity. Qed.

(** A monthly charge of at least [2^-50] divided by a float below [2^1024]
    does not underflow to zero. *)
Lemma ratio_monthly_of_positive (monthly_charges : Q) (tenure : Z) :
  0 <= tenure -> converts (tenure + 1) = true ->
  (pow2 (-50) <= monthly_charges)%Q ->
  fltb 0%Q (ratio_monthly_of monthly_charges tenure) = true.
Proof.
  intros Ht Hc Hm. unfold ratio_monthly_of.
  destruct (as_float_ge1 (tenure + 1) ltac:(lia) Hc) as (y & -> & Hy1 & Hy2).
  cbn [fdiv]. apply (fleb_fltb (pow2 emin)); [apply pow2_pos |].
  apply round64_lower; [lia |].
  assert (Hy : (0 < y)%Q) by (apply Qlt_le_trans with 1%Q; [reflexivity | exact Hy1]).
  apply Qle_shift_div_l; [exact Hy |].
  apply Qle_trans with (pow2 emin * pow2 emax)%Q.
  - apply Qmult_le_compat_nonneg.
    + split; [apply Qlt_le_weak, pow2_pos | apply Qle_refl].
    + split; [now apply Qlt_le_weak | now apply Qlt_le_weak].
  - rewrite <- pow2_add. exact Hm.
Qed.

Lemma ratio_total_of_nonneg (total_charges monthly_charges : Q) (tenure : Z) :
  0 <= tenure -> (tenure =? 0) || converts tenure = true ->
  (pow2 emin <= monthly_charges)%Q -> (0 <= total_charges)%Q ->
  fleb 0%Q (ratio_total_of total_charges monthly_charges tenure) = true.
Proof.
  intros Ht Hc Hm Htc. unfold ratio_total_of.
  destruct (Z.eqb_spec tenure 0) as [E | NE]; [reflexivity |].
  cbn [orb] in Hc.
  pose proof (denominator_positive monthly_charges tenure Hm ltac:(lia) Hc) as Hd.
  destruct (fmul monthly_charges (as_float tenure)) as [d | [] |];
    try discriminate; [| reflexivity].
  cbn in Hd. apply Qlt_bool_iff in Hd.
  cbn [fdiv]. apply round64_nonneg. now apply Qdiv_nonneg.
Qed.

(** C8, corrected. Whenever tenure >= 0 is such that tenure + 1 is below
    2^1024 - 2^970 (so that it converts to a float), monthly_charges is
    finite and >= 2^-50 (as is every value above the validated minimum
    0.01) and total_charges is finite and >= 0,
    [compute_all_engineered_features] returns a dict holding the four keys
    with Ratio_MonthlyCharges_tenure > 0, tenure_segment_encoded in
    {0,1,2,3}, is_new_customer in {0,1} and the total ratio >= 0;
    [validate_engineered_features] returns True on it, so
    [compute_engineered_features] returns it and does not raise
    "Features engineered invalides". *)
Theorem C8_engineered_features_pass_validation (validated_input : ClientInput) :
  0 <= tenure validated_input ->
  tenure validated_input + 1 < float_limit ->
  (pow2 (-50) <= monthly_charges validated_input)%Q ->
  (0 <= total_charges validated_input)%Q ->
  exists (r1 : pyfloat) (seg new : Z) (r2 : pyfloat),
    compute_all_engineered_features (tenure validated_input)
      (monthly_charges validated_input) (total_charges validated_input)
      = OK (engineered_dict r1 seg new r2) /\
    fltb 0%Q r1 = true /\ seg ∈ [0; 1; 2; 3] /\ new ∈ [0; 1] /\ fleb 0%Q r2 = true /\
    validate_engineered_features (engineered_dict r1 seg new r2) = true /\
    compute_engineered_features validated_input = OK (engineered_dict r1 seg new r2).
Proof.
  intros Ht Hlim Hm Htc.
  pose proof (converts_below (tenure validated_input + 1) ltac:(lia) Hlim) as Hc.
  assert (Hm' : (pow2 emin <= monthly_charges validated_input)%Q).
  { apply Qle_trans with (pow2 (-50)); [apply pow2_le; discriminate | exact Hm]. }
  pose proof (compute_all_closed_form _ _ _ Ht Hm' Htc) as Hall.
  rewrite Hc in Hall.
  set (r1 := ratio_monthly_of _ _) in *.
  set (r2 := ratio_total_of _ _ _) in *.
  assert (Hr1 : fltb 0%Q r1 = true) by (now apply ratio_monthly_of_positive).
  assert (Hr2 : fleb 0%Q r2 = true).
  { apply ratio_total_of_nonneg; try assumption.
    rewrite (converts_mono (tenure validated_input) (tenure validated_input + 1)
               ltac:(lia) Hc).
    apply orb_true_r. }
  assert (Hval : validate_engineered_features
                   (engineered_dict r1 (segment_of (tenure validated_input))
                      (new_of (tenure validated_input)) r2) = true).
  { rewrite validate_engineered_dict, segment_of_range, new_of_range.
    unfold num_ltb, num_leb. cbn [num_value]. change (inject_Z 0) with 0%Q.
    rewrite Hr1, Hr2. reflexivity. }
  exists r1, (segment_of (tenure validated_input)),
    (new_of (tenure validated_input)), r2.
  repeat split; try assumption.
  - unfold segment_of. repeat case_match;
      repeat first [apply list_elem_of_here | apply list_elem_of_further].
  - unfold new_of. case_match;
      repeat first [apply list_elem_of_here | apply list_elem_of_further].
  - unfold compute_engineered_features. rewrite Hall.
    unfold mbind, result_bind. now rewrite Hval.
Qed.

Lemma C8_engineered_features_pass_validation_witness :
  exists (r1 : pyfloat) (seg new : Z) (r2 : pyfloat),
    compute_all_engineered_features 0 50%Q 0%Q = OK (engineered_dict r1 seg new r2) /\
    fltb 0%Q r1 = true /\ seg ∈ [0; 1; 2; 3] /\ new ∈ [0; 1] /\ fleb 0%Q r2 = true /\
    validate_engineered_features (engineered_dict r1 seg new r2) = true /\
    compute_engineered_features
      {| contract := "Month-to-month"; tenure := 0; monthly_charges := 50;
         total_charges := 0; payment_method := "Electronic check";
         internet_service := "Fiber optic"; paperless_billing := "Yes" |}
      = OK (engineered_dict r1 seg new r2).
Proof.
  apply (C8_engineered_features_pass_validation
           {| contract := "Month-to-month"; tenure := 0; monthly_charges := 50;
              total_charges := 0; payment_method := "Electronic check";
              internet_service := "Fiber optic"; paperless_billing := "Yes" |});
    simpl; [lia | reflexivity | vm_compute; discriminate | discriminate].
Defined.

(** C8, as stated, fails in two ways. With monthly_charges = 2^-1074 (the
    smallest positive float) and tenure = 1 the monthly ratio underflows to
    0.0: the dict is returned, [validate_engineered_features] returns False
    on it and [compute_engineered_features] raises "Features engineered
    invalides". With tenure = 10^400 no dict is returned at all. *)
Lemma C8_engineered_features_pass_validation_counterexample :
  (0 <= tenure tiny_charges_input /\
   (0 < monthly_charges tiny_charges_input)%Q /\
   binary64 (monthly_charges tiny_charges_input) = true /\
   (0 <= total_charges tiny_charges_input)%Q) /\
  compute_all_engineered_features 1 (pow2 (-1074)) 0%Q
    = OK (engineered_dict (Finite 0) 0 1 (Finite 0)) /\
  validate_engineered_features (engineered_dict (Finite 0) 0 1 (Finite 0)) = false /\
  compute_engineered_features tiny_charges_input = Raise InvalidEngineered /\
  compute_all_engineered_features (10 ^ 400) 50%Q 0%Q = Raise OverflowError.
Proof.
  split; [| split; [| split; [| split]]].
  - split; [discriminate |]. split; [apply pow2_pos |].
    split; [vm_compute; reflexivity | discriminate].
  - vm_compute. reflexivity.
  - vm_compute. reflexivity.
  - vm_compute. reflexivity.
  - vm_compute. reflexivity.
Qed.

(** ** The categorical encoder *)

Lemma fitted_manager_init : EncoderManager_init fitted_artifacts = OK fitted_manager.
Proof. reflexivity. Qed.

Lemma fitted_preprocessor_init :
  ChurnPreprocessor_init fitted_artifacts = OK fitted_preprocessor.
Proof. reflexivity. Qed.

Lemma fitted_manager_cover : artifacts_cover fitted_manager = true.
Proof. vm_compute. reflexivity. Qed.

Lemma EncoderManager_init_inv (pickle_load : string -> unpickled)
    (em : EncoderManager) :
  EncoderManager_init pickle_load = OK em ->
  exists e1 e2 e3 e4,
    em = {| encoders := [("Contract", e1); ("PaymentMethod", e2);
                         ("InternetService", e3); ("PaperlessBilling", e4)];
            feature_mappings := FEATURE_MAPPINGS |}.
Proof.
  unfold EncoderManager_init. cbn.
  destruct (pickle_load "labelencoder_Contract.pkl") as [e1 | | ?]; [| discriminate | discriminate].
  destruct (pickle_load "labelencoder_PaymentMethod.pkl") as [e2 | | ?]; [| discriminate | discriminate].
  destruct (pickle_load "labelencoder_InternetService.pkl") as [e3 | | ?]; [| discriminate | discriminate].
  destruct (pickle_load "labelencoder_PaperlessBilling.pkl") as [e4 | | ?]; [| discriminate | discriminate].
  cbn. intros [= <-]. now exists e1, e2, e3, e4.
Qed.

Lemma feature_mappings_lookups :
  FEATURE_MAPPINGS !! "Contract" = Some CONTRACT_VALUES /\
  FEATURE_MAPPINGS !! "PaymentMethod" = Some PAYMENT_METHOD_VALUES /\
  FEATURE_MAPPINGS !! "InternetService" = Some INTERNET_SERVICE_VALUES /\
  FEATURE_MAPPINGS !! "PaperlessBilling" = Some PAPERLESS_BILLING_VALUES.
Proof. repeat split; vm_compute; reflexivity. Qed.

Lemma index_of_elem (value : string) (classes : list string) :
  value ∈ classes -> is_Some (index_of value classes).
Proof.
  induction classes as [| c rest IH]; intros Hin.
  - by apply elem_of_nil in Hin.
  - cbn. destruct (String.eqb_spec c value) as [-> | NE]; [by eexists |].
    apply elem_of_cons in Hin as [-> | Hin]; [done |].
    destruct (IH Hin) as [i ->]. by eexists.
Qed.

Lemma forallb_elem {A : Type} (f : A -> bool) (l : list A) (x : A) :
  forallb f l = true -> x ∈ l -> f x = true.
Proof.
  intros H Hin. rewrite forallb_forall in H. apply H. by apply list_elem_of_In.
Qed.

(** What [encode_feature] does once the encoder and the value list of the
    field are known. *)
Lemma encode_feature_known (em : EncoderManager) (feature_name value : string)
    (encoder : LabelEncoder) (values : list string) :
  dict_get (encoders em) feature_name = Some encoder ->
  feature_mappings em !! feature_name = Some values ->
  encode_feature em feature_name value =
    if bool_decide (value ∈ values) then
      match transform encoder value with
      | Some code => OK code
      | None => Raise (CannotEncode feature_name value)
      end
    else Raise (InvalidValue value feature_name values).
Proof.
  intros He Hv. unfold encode_feature, subscript. rewrite He, Hv. cbn.
  by destruct (bool_decide _).
Qed.

Lemma encode_feature_covered (em : EncoderManager) (feature_name value : string)
    (encoder : LabelEncoder) (values : list string) :
  dict_get (encoders em) feature_name = Some encoder ->
  feature_mappings em !! feature_name = Some values ->
  forallb (fun v => bool_decide (v ∈ classes_ encoder)) values = true ->
  if bool_decide (value ∈ values)
  then exists code, encode_feature em feature_name value = OK code
  else encode_feature em feature_name value
         = Raise (InvalidValue value feature_name values).
Proof.
  intros Hget Hmap Hall.
  rewrite (encode_feature_known em feature_name value encoder values Hget Hmap).
  destruct (bool_decide_reflect (value ∈ values)) as [Hin | Hout]; [| reflexivity].
  pose proof (forallb_elem _ _ _ Hall Hin) as Hcls.
  apply bool_decide_eq_true_1 in Hcls.
  destruct (index_of_elem _ _ Hcls) as [code Hcode].
  exists code. unfold transform. by rewrite Hcode.
Qed.

(** The trichotomy behind C5, for a manager built by [__init__] whose
    encoders cover the allowed values. *)
Lemma encode_feature_cases (pickle_load : string -> unpickled)
    (em : EncoderManager) (feature_name value : string) :
  EncoderManager_init pickle_load = OK em ->
  artifacts_cover em = true ->
  match allowed_values feature_name with
  | Some values =>
      if bool_decide (value ∈ values)
      then exists code, encode_feature em feature_name value = OK code
      else encode_feature em feature_name value
             = Raise (InvalidValue value feature_name values)
  | None =>
      encode_feature em feature_name value = Raise (EncoderUnavailable feature_name)
  end.
Proof.
  intros Hinit Hcover.
  destruct (EncoderManager_init_inv _ _ Hinit) as (e1 & e2 & e3 & e4 & ->).
  destruct feature_mappings_lookups as (M1 & M2 & M3 & M4).
  unfold artifacts_cover in Hcover. cbn [encoders feature_mappings forallb] in Hcover.
  rewrite M1, M2, M3, M4 in Hcover.
  apply andb_prop in Hcover as [C1 Hcover].
  apply andb_prop in Hcover as [C2 Hcover].
  apply andb_prop in Hcover as [C3 Hcover].
  apply andb_prop in Hcover as [C4 _].
  unfold allowed_values.
  destruct (String.eqb_spec feature_name "Contract") as [-> | N1];
    [apply (encode_feature_covered _ _ _ e1); [reflexivity | exact M1 | exact C1] |].
  destruct (String.eqb_spec feature_name "PaymentMethod") as [-> | N2];
    [apply (encode_feature_covered _ _ _ e2); [reflexivity | exact M2 | exact C2] |].
  destruct (String.eqb_spec feature_name "InternetService") as [-> | N3];
    [apply (encode_feature_covered _ _ _ e3); [reflexivity | exact M3 | exact C3] |].
  destruct (String.eqb_spec feature_name "PaperlessBilling") as [-> | N4];
    [apply (encode_feature_covered _ _ _ e4); [reflexivity | exact M4 | exact C4] |].
  unfold encode_feature. cbn [encoders dict_get].
  destruct (String.eqb_spec "Contract" feature_name); [congruence |].
  destruct (String.eqb_spec "PaymentMethod" feature_name); [congruence |].
  destruct (String.eqb_spec "InternetService" feature_name); [congruence |].
  destruct (String.eqb_spec "PaperlessBilling" feature_name); [congruence |].
  reflexivity.
Qed.

(** C5. With the encoders loaded, [encode_feature] returns an integer code
    for every value in the allowed set of each of the four recognized
    fields, raises the invalid-value [ValueError] for every value outside
    that set, and raises the unknown-encoder [KeyError] for every other
    field name; it succeeds if and only if the field is recognized and the
    value is allowed. *)
Theorem C5_encode_feature_domain (pickle_load : string -> unpickled)
    (em : EncoderManager) (feature_name value : string) :
  EncoderManager_init pickle_load = OK em ->
  artifacts_cover em = true ->
  (forall values, allowed_values feature_name = Some values -> value ∈ values ->
     exists code, encode_feature em feature_name value = OK code) /\
  (forall values, allowed_values feature_name = Some values -> value ∉ values ->
     encode_feature em feature_name value
       = Raise (InvalidValue value feature_name values) /\
     exn_class (InvalidValue value feature_name values) = PyValueError) /\
  (allowed_values feature_name = None ->
     encode_feature em feature_name value = Raise (EncoderUnavailable feature_name) /\
     exn_class (EncoderUnavailable feature_name) = PyKeyError) /\
  ((exists code, encode_feature em feature_name value = OK code) <->
   (exists values, allowed_values feature_name = Some values /\ value ∈ values)).
Proof.
  intros Hinit Hcover.
  pose proof (encode_feature_cases _ _ feature_name value Hinit Hcover) as Hcases.
  destruct (allowed_values feature_name) as [values |].
  - destruct (bool_decide_reflect (value ∈ values)) as [Hin | Hout].
    + split; [| split; [| split; [| split]]].
      * by intros ? [= <-] _.
      * by intros ? [= <-] ?.
      * discriminate.
      * intros _. by exists values.
      * by intros _.
    + split; [| split; [| split; [| split]]].
      * by intros ? [= <-] ?.
      * by intros ? [= <-] _.
      * discriminate.
      * intros [code Hcode]. congruence.
      * intros (? & [= <-] & ?). done.
  - split; [| split; [| split; [| split]]]; try discriminate.
    + by intros _.
    + intros [code Hcode]. congruence.
    + intros (? & ? & _). discriminate.
Qed.

Lemma C5_encode_feature_domain_witness :
  (exists code, encode_feature fitted_manager "PaymentMethod" "Electronic check" = OK code)
  <-> (exists values, allowed_values "PaymentMethod" = Some values /\
                      "Electronic check" ∈ values).
Proof.
  apply (C5_encode_feature_domain fitted_artifacts fitted_manager
           "PaymentMethod" "Electronic check"); reflexivity.
Defined.

(** ** Encoding a whole dictionary *)

Lemma encode_all_loop_spec (self : EncoderManager) (keys : list string)
    (data : gmap string string) (encoded_data : gmap string Z) :
  match encode_all_loop self keys data encoded_data with
  | OK out =>
      forall f : string,
        out !! f =
          match data !! f with
          | Some v => if bool_decide (f ∈ keys) then code_of self f v
                      else encoded_data !! f
          | None => encoded_data !! f
          end
  | Raise e =>
      exists f v, f ∈ keys /\ data !! f = Some v /\
                  encode_feature self f v = Raise e
  end.
Proof.
  revert encoded_data.
  induction keys as [| k rest IH]; intros encoded_data; cbn [encode_all_loop].
  - intros f. destruct (data !! f); [| reflexivity].
    rewrite bool_decide_eq_false_2; [reflexivity | apply not_elem_of_nil].
  - destruct (data !! k) as [value |] eqn:Hk.
    + destruct (encode_feature self k value) as [code | e] eqn:Hcode; cbn.
      * specialize (IH (<[k := code]> encoded_data)).
        destruct (encode_all_loop self rest data _) as [out | e].
        -- intros f. rewrite IH.
           destruct (decide (f = k)) as [-> | Hne].
           ++ rewrite Hk, lookup_insert_eq.
              rewrite (bool_decide_eq_true_2 (k ∈ k :: rest)) by apply list_elem_of_here.
              unfold code_of at 2. rewrite Hcode.
              destruct (bool_decide (k ∈ rest)); [| reflexivity].
              unfold code_of. now rewrite Hcode.
           ++ rewrite (lookup_insert_ne _ k f) by congruence.
              destruct (data !! f); [| reflexivity].
              assert (Hiff : f ∈ k :: rest <-> f ∈ rest)
                by (rewrite elem_of_cons; tauto).
              now rewrite (bool_decide_ext _ _ Hiff).
        -- destruct IH as (f & v & Hin & Hf & He).
           exists f, v. split; [by apply list_elem_of_further | done].
      * exists k, value. split; [apply list_elem_of_here | done].
    + specialize (IH encoded_data).
      destruct (encode_all_loop self rest data encoded_data) as [out | e].
      * intros f. rewrite IH.
        destruct (data !! f) as [v |] eqn:Hf; [| reflexivity].
        assert (Hne : f <> k) by congruence.
        assert (Hiff : f ∈ k :: rest <-> f ∈ rest)
          by (rewrite elem_of_cons; tauto).
        now rewrite (bool_decide_ext _ _ Hiff).
      * destruct IH as (f & v & Hin & Hf & He).
        exists f, v. split; [by apply list_elem_of_further | done].
Qed.

Lemma encode_all_features_spec (self : EncoderManager) (data : gmap string string) :
  match encode_all_features self data with
  | OK out =>
      forall f : string,
        out !! f =
          match data !! f with
          | Some v => if bool_decide (f ∈ dict_keys (encoders self))
                      then code_of self f v else None
          | None => None
          end
  | Raise e =>
      exists f v, f ∈ dict_keys (encoders self) /\ data !! f = Some v /\
                  encode_feature self f v = Raise e
  end.
Proof.
  unfold encode_all_features.
  pose proof (encode_all_loop_spec self (dict_keys (encoders self)) data ∅) as H.
  destruct (encode_all_loop _ _ _ _) as [out | e]; [| exact H].
  intros f. rewrite H. now rewrite lookup_empty.
Qed.

Lemma encode_all_loop_present (self : EncoderManager) (keys : list string)
    (data : gmap string string) (encoded_data out : gmap string Z) :
  encode_all_loop self keys data encoded_data = OK out ->
  forall f v, f ∈ keys -> data !! f = Some v ->
    exists code, encode_feature self f v = OK code.
Proof.
  revert encoded_data.
  induction keys as [| k rest IH]; intros encoded_data Hrun f v Hin Hf.
  - by apply elem_of_nil in Hin.
  - cbn [encode_all_loop] in Hrun.
    apply elem_of_cons in Hin as [-> | Hin].
    + rewrite Hf in Hrun.
      destruct (encode_feature self k v) as [code | e]; [by exists code | discriminate].
    + destruct (data !! k) as [value |].
      * destruct (encode_feature self k value) as [code | e]; [| discriminate].
        exact (IH _ Hrun f v Hin Hf).
      * exact (IH _ Hrun f v Hin Hf).
Qed.

(** ** Assembling the vector *)

Lemma engineered_dict_lookup (r1 : pyfloat) (seg new : Z) (r2 : pyfloat) (k : string) :
  engineered_dict r1 seg new r2 !! k = engineered_lookup r1 seg new r2 k.
Proof.
  unfold engineered_dict, engineered_lookup.
  repeat match goal with
         | |- context [String.eqb k ?s] =>
             destruct (String.eqb_spec k s) as [-> | ?]; [lookup_literal |]
         end.
  lookup_literal.
Qed.

Lemma raw_dict_lookup (t : Z) (m tc : Q) (k : string) :
  (<["tenure" := PyInt t]> (<["MonthlyCharges" := PyFloat m]>
     (<["TotalCharges" := PyFloat tc]> (∅ : gmap string pynum)))) !! k
  = raw_lookup t m tc k.
Proof.
  unfold raw_lookup.
  repeat match goal with
         | |- context [String.eqb k ?s] =>
             destruct (String.eqb_spec k s) as [-> | ?]; [lookup_literal |]
         end.
  lookup_literal.
Qed.

Lemma dict_update_lookup {V : Type} (a b : gmap string V) (k : string) :
  dict_update a b !! k = match b !! k with Some v => Some v | None => a !! k end.
Proof.
  unfold dict_update. rewrite lookup_union.
  destruct (b !! k), (a !! k); reflexivity.
Qed.

(** [build_feature_vector] on the engineered dict: either the values in
    model order, handed to [np.array], or the first categorical feature the
    encoded dict lacks. *)
Lemma build_feature_vector_cases (self : ChurnPreprocessor)
    (validated_input : ClientInput) (encoded : gmap string Z)
    (r1 : pyfloat) (seg new : Z) (r2 : pyfloat) :
  feature_order self = MODEL_FEATURES ->
  (forall f, f ∉ recognized_fields -> encoded !! f = None) ->
  build_feature_vector self validated_input encoded (engineered_dict r1 seg new r2) =
    match encoded !! "Contract" with
    | None => Raise (MissingFeature "Contract")
    | Some c =>
        match encoded !! "PaymentMethod" with
        | None => Raise (MissingFeature "PaymentMethod")
        | Some p =>
            match encoded !! "InternetService" with
            | None => Raise (MissingFeature "InternetService")
            | Some i =>
                match encoded !! "PaperlessBilling" with
                | None => Raise (MissingFeature "PaperlessBilling")
                | Some b =>
                    np_array
                      [PyFloat r1; PyInt c; PyInt (tenure validated_input);
                       PyFloat (monthly_charges validated_input); PyInt seg;
                       PyFloat (total_charges validated_input); PyInt new;
                       PyInt p; PyInt i; PyInt b; PyFloat r2]
                end
            end
        end
    end.
Proof.
  intros Horder Hdom.
  assert (Hlook : forall k,
    dict_update
      (dict_update
         (<["tenure" := PyInt (tenure validated_input)]>
          (<["MonthlyCharges" := PyFloat (monthly_charges validated_input)]>
          (<["TotalCharges" := PyFloat (total_charges validated_input)]> ∅)))
         (PyInt <$> encoded))
      (engineered_dict r1 seg new r2) !! k
    = match engineered_lookup r1 seg new r2 k with
      | Some v => Some v
      | None =>
          match encoded !! k with
          | Some c => Some (PyInt c)
          | None => raw_lookup (tenure validated_input)
                      (monthly_charges validated_input)
                      (total_charges validated_input) k
          end
      end).
  { intros k. rewrite !dict_update_lookup, engineered_dict_lookup, lookup_fmap,
      raw_dict_lookup.
    destruct (engineered_lookup r1 seg new r2 k); [reflexivity |].
    destruct (encoded !! k); reflexivity. }
  assert (Ht : encoded !! "tenure" = None) by (apply Hdom; by_decide).
  assert (Hm : encoded !! "MonthlyCharges" = None) by (apply Hdom; by_decide).
  assert (Htc : encoded !! "TotalCharges" = None) by (apply Hdom; by_decide).
  unfold build_feature_vector. rewrite Horder. unfold MODEL_FEATURES.
  cbn [build_loop]. rewrite !Hlook.
  cbn [engineered_lookup raw_lookup String.eqb Ascii.eqb Bool.eqb].
  rewrite Ht, Hm, Htc.
  destruct (encoded !! "Contract") as [c |]; [| reflexivity].
  destruct (encoded !! "PaymentMethod") as [p |]; [| reflexivity].
  destruct (encoded !! "InternetService") as [i |]; [| reflexivity].
  destruct (encoded !! "PaperlessBilling") as [b |]; reflexivity.
Qed.

(** ** Stage 1: validation *)

Lemma validate_field_app {A : Type} (loc : string) (check : A -> option field_error)
    (v : A) (errors : list (string * field_error)) :
  validate_field loc check v errors = (errors ++ error_entry loc (check v))%list.
Proof.
  unfold validate_field. destruct (check v); cbn; [reflexivity |].
  by rewrite app_nil_r.
Qed.

(** The collected errors, field by field. *)
Lemma ClientInput_errors_by_field (d : Raw.t) :
  ClientInput_errors d =
   (error_entry "contract" (validate_contract (Raw.contract d))
    ++ error_entry "tenure" (field_ge MIN_TENURE (Raw.tenure d))
    ++ error_entry "monthly_charges"
         (field_gt_float MIN_MONTHLY_CHARGES (Raw.monthly_charges d))
    ++ error_entry "total_charges"
         (field_ge_float MIN_TOTAL_CHARGES (Raw.total_charges d))
    ++ error_entry "payment_method" (validate_payment_method (Raw.payment_method d))
    ++ error_entry "internet_service"
         (validate_internet_service (Raw.internet_service d))
    ++ error_entry "paperless_billing"
         (validate_paperless_billing (Raw.paperless_billing d)))%list.
Proof.
  unfold ClientInput_errors. rewrite !validate_field_app.
  cbn [app]. by rewrite <- !app_assoc.
Qed.

Lemma error_entry_nil (loc : string) (o : option field_error) :
  error_entry loc o = [] <-> o = None.
Proof. destruct o; cbn; split; congruence. Qed.

Lemma validator_none_iff (label : string) (allowed : list string) (v : string) :
  (if negb (bool_decide (v ∈ allowed)) then Some (NotAllowed label allowed) else None)
    = None <-> v ∈ allowed.
Proof.
  destruct (bool_decide_reflect (v ∈ allowed)); cbn; split;
    congruence || tauto.
Qed.

Lemma field_ge_none_iff (limit v : Z) : field_ge limit v = None <-> limit <= v.
Proof.
  unfold field_ge. destruct (Z.leb_spec limit v); split; congruence || lia.
Qed.

Lemma field_gt_float_none_iff (limit v : Q) :
  field_gt_float limit v = None <-> (limit < v)%Q.
Proof.
  unfold field_gt_float. rewrite <- Qlt_bool_iff.
  destruct (Qlt_bool limit v); split; congruence.
Qed.

Lemma field_ge_float_none_iff (limit : Z) (v : Q) :
  field_ge_float limit v = None <-> (inject_Z limit <= v)%Q.
Proof.
  unfold field_ge_float. rewrite <- Qle_bool_iff.
  destruct (Qle_bool (inject_Z limit) v); split; congruence.
Qed.

(** No error is collected exactly when the seven checks pass. *)
Lemma ClientInput_errors_nil_iff (d : Raw.t) :
  ClientInput_errors d = [] <-> accepted d.
Proof.
  rewrite ClientInput_errors_by_field, !app_nil, !error_entry_nil.
  unfold validate_contract, validate_payment_method, validate_internet_service,
    validate_paperless_billing.
  rewrite !validator_none_iff, field_ge_none_iff, field_gt_float_none_iff,
    field_ge_float_none_iff.
  split.
  - intros (? & ? & ? & ? & ? & ? & ?). by constructor.
  - intros []. by repeat split.
Qed.

Lemma validate_input_ok_iff (d : Raw.t) (validated_input : ClientInput) :
  validate_input d = OK validated_input <->
  accepted d /\ validated_input = of_raw d.
Proof.
  rewrite <- ClientInput_errors_nil_iff.
  unfold validate_input, ClientInput_new. fold (of_raw d).
  destruct (ClientInput_errors d) as [| e errors]; split.
  - intros [= <-]. by split.
  - intros [_ ->]. reflexivity.
  - discriminate.
  - intros [[=] _].
Qed.

(** ** The whole pipeline on an accepted record *)

Lemma ChurnPreprocessor_init_inv (pickle_load : string -> unpickled)
    (pp : ChurnPreprocessor) :
  ChurnPreprocessor_init pickle_load = OK pp ->
  EncoderManager_init pickle_load = OK (encoder_manager pp) /\
  feature_order pp = MODEL_FEATURES.
Proof.
  unfold ChurnPreprocessor_init.
  destruct (EncoderManager_init pickle_load) as [em | e]; cbn; [| discriminate].
  intros [= <-]. split; reflexivity.
Qed.

(** [compute_engineered_features] on a validated record: the engineered
    dict when [tenure + 1] converts to a float, [OverflowError] otherwise. *)
Lemma compute_engineered_closed_form (validated_input : ClientInput) :
  0 <= tenure validated_input ->
  (pow2 (-50) <= monthly_charges validated_input)%Q ->
  (0 <= total_charges validated_input)%Q ->
  compute_engineered_features validated_input =
    if converts (tenure validated_input + 1) then
      OK (engineered_dict
            (ratio_monthly_of (monthly_charges validated_input) (tenure validated_input))
            (segment_of (tenure validated_input))
            (new_of (tenure validated_input))
            (ratio_total_of (total_charges validated_input)
               (monthly_charges validated_input) (tenure validated_input)))
    else Raise OverflowError.
Proof.
  intros Ht Hm Htc. unfold compute_engineered_features.
  assert (Hm' : (pow2 emin <= monthly_charges validated_input)%Q).
  { apply Qle_trans with (pow2 (-50)); [apply pow2_le; discriminate | exact Hm]. }
  rewrite (compute_all_closed_form _ _ _ Ht Hm' Htc).
  destruct (converts (tenure validated_input + 1)) eqn:Hc; [| reflexivity].
  unfold mbind, result_bind.
  rewrite validate_engineered_dict, segment_of_range, new_of_range.
  unfold num_ltb, num_leb. cbn [num_value]. change (inject_Z 0) with 0%Q.
  rewrite ratio_monthly_of_positive, ratio_total_of_nonneg; try assumption.
  - reflexivity.
  - rewrite (converts_mono (tenure validated_input) (tenure validated_input + 1)
               ltac:(lia) Hc).
    apply orb_true_r.
Qed.

Lemma accepted_numeric (d : Raw.t) :
  accepted d ->
  0 <= Raw.tenure d /\ (pow2 (-50) <= Raw.monthly_charges d)%Q /\
  (0 <= Raw.total_charges d)%Q.
Proof.
  intros [_ Ht Hm Htc _ _ _]. repeat split.
  - exact Ht.
  - apply Qle_trans with MIN_MONTHLY_CHARGES; [| now apply Qlt_le_weak].
    apply Qle_bool_iff. vm_compute. reflexivity.
  - exact Htc.
Qed.

(** The codes of an encoder are indices into its classes. *)
Lemma index_of_bound (value : string) (classes : list string) (code : Z) :
  index_of value classes = Some code -> 0 <= code < Z.of_nat (length classes).
Proof.
  revert code. induction classes as [| c rest IH]; intros code; cbn [index_of].
  - discriminate.
  - destruct (String.eqb c value).
    + intros [= <-]. cbn [length]. lia.
    + destruct (index_of value rest) as [i |]; [| discriminate].
      intros [= <-]. specialize (IH i eq_refl). cbn [length]. lia.
Qed.

Lemma encode_feature_code_range (self : EncoderManager) (feature_name value : string)
    (code : Z) :
  encode_feature self feature_name value = OK code -> 0 <= code <= 2 ^ 63.
Proof.
  unfold encode_feature.
  destruct (dict_get (encoders self) feature_name) as [encoder |]; [| discriminate].
  destruct (subscript (feature_mappings self) feature_name) as [values | e];
    [| discriminate].
  cbn [mbind result_bind].
  destruct (negb _); [discriminate |].
  unfold transform.
  destruct (index_of value (classes_ encoder)) as [i |] eqn:E; [| discriminate].
  intros [= <-]. apply index_of_bound in E.
  pose proof (classes_size encoder) as Hsize. apply Z.ltb_lt in Hsize. lia.
Qed.

Lemma segment_of_small (tenure : Z) : 0 <= segment_of tenure <= 2 ^ 63.
Proof. unfold segment_of. repeat case_match; split; lia. Qed.

Lemma new_of_small (tenure : Z) : 0 <= new_of tenure <= 2 ^ 63.
Proof. unfold new_of. case_match; split; lia. Qed.

(** [np.array] on the eleven values of an accepted record. *)
Lemma np_array_vector (r1 r2 : pyfloat) (m tc : Q) (c t seg new p i b : Z) :
  0 <= c <= 2 ^ 63 -> 0 <= p <= 2 ^ 63 -> 0 <= i <= 2 ^ 63 -> 0 <= b <= 2 ^ 63 ->
  0 <= seg <= 2 ^ 63 -> 0 <= new <= 2 ^ 63 -> converts t = true ->
  np_array [PyFloat r1; PyInt c; PyInt t; PyFloat m; PyInt seg; PyFloat tc;
            PyInt new; PyInt p; PyInt i; PyInt b; PyFloat r2]
  = OK [r1; as_float c; as_float t; Finite m; as_float seg; Finite tc;
        as_float new; as_float p; as_float i; as_float b; r2].
Proof.
  intros Hc Hp Hi Hb Hseg Hnew Ht.
  cbn [np_array].
  rewrite (proj2 (as_float_small c Hc)), (proj2 (as_float_small p Hp)),
    (proj2 (as_float_small i Hi)), (proj2 (as_float_small b Hb)),
    (proj2 (as_float_small seg Hseg)), (proj2 (as_float_small new Hnew)).
  cbn [float64]. rewrite (float_of_int_converts t Ht). reflexivity.
Qed.

Lemma encoded_dict_lookups (c p i b : Z) :
  encoded_dict c p i b !! "Contract" = Some c /\
  encoded_dict c p i b !! "PaymentMethod" = Some p /\
  encoded_dict c p i b !! "InternetService" = Some i /\
  encoded_dict c p i b !! "PaperlessBilling" = Some b /\
  (forall f, f ∉ recognized_fields -> encoded_dict c p i b !! f = None).
Proof.
  unfold encoded_dict. repeat split; try lookup_literal.
  intros f Hf. unfold recognized_fields in Hf.
  rewrite !not_elem_of_cons in Hf. destruct Hf as (? & ? & ? & ? & _).
  lookup_literal.
Qed.

Lemma encode_categorical_features_ok (pickle_load : string -> unpickled)
    (pp : ChurnPreprocessor) (validated_input : ClientInput) :
  ChurnPreprocessor_init pickle_load = OK pp ->
  artifacts_cover (encoder_manager pp) = true ->
  contract validated_input ∈ CONTRACT_VALUES ->
  payment_method validated_input ∈ PAYMENT_METHOD_VALUES ->
  internet_service validated_input ∈ INTERNET_SERVICE_VALUES ->
  paperless_billing validated_input ∈ PAPERLESS_BILLING_VALUES ->
  exists c p i b,
    encode_feature (encoder_manager pp) "Contract" (contract validated_input) = OK c /\
    encode_feature (encoder_manager pp) "PaymentMethod"
      (payment_method validated_input) = OK p /\
    encode_feature (encoder_manager pp) "InternetService"
      (internet_service validated_input) = OK i /\
    encode_feature (encoder_manager pp) "PaperlessBilling"
      (paperless_billing validated_input) = OK b /\
    encode_categorical_features pp validated_input = OK (encoded_dict c p i b).
Proof.
  intros Hinit Hcover Hc Hp Hi Hb.
  destruct (ChurnPreprocessor_init_inv _ _ Hinit) as [Hem _].
  pose proof (encode_feature_cases _ _ "Contract" (contract validated_input)
                Hem Hcover) as Ec.
  pose proof (encode_feature_cases _ _ "PaymentMethod" (payment_method validated_input)
                Hem Hcover) as Ep.
  pose proof (encode_feature_cases _ _ "InternetService"
                (internet_service validated_input) Hem Hcover) as Ei.
  pose proof (encode_feature_cases _ _ "PaperlessBilling"
                (paperless_billing validated_input) Hem Hcover) as Eb.
  cbn [allowed_values String.eqb Ascii.eqb Bool.eqb] in Ec, Ep, Ei, Eb.
  rewrite bool_decide_eq_true_2 in Ec, Ep, Ei, Eb by assumption.
  destruct Ec as [c Ec], Ep as [p Ep], Ei as [i Ei], Eb as [b Eb].
  exists c, p, i, b. repeat split; try assumption.
  unfold encode_categorical_features, encode_all_features.
  destruct (EncoderManager_init_inv _ _ Hem) as (e1 & e2 & e3 & e4 & Eem).
  rewrite Eem in *. cbn [encoders dict_keys map fst encode_all_loop].
  repeat match goal with
         | |- context [(<[?k := ?v]> ?m) !! ?q] =>
             let E := fresh in
             assert (E : (<[k := v]> m) !! q = Some
                     (if String.eqb q "Contract" then contract validated_input
                      else if String.eqb q "PaymentMethod" then payment_method validated_input
                      else if String.eqb q "InternetService" then internet_service validated_input
                      else paperless_billing validated_input)) by lookup_literal;
             rewrite E; clear E; cbn [String.eqb Ascii.eqb Bool.eqb]
         end.
  rewrite Ec. cbn [mbind result_bind].
  rewrite Ep. cbn [mbind result_bind].
  rewrite Ei. cbn [mbind result_bind].
  rewrite Eb. reflexivity.
Qed.

(** On an accepted record the encoding succeeds; the pipeline then
    returns the expected vector when [tenure + 1] converts to a float and
    raises [OverflowError], from the first ratio, when it does not. *)
Lemma preprocess_accepted (pickle_load : string -> unpickled)
    (pp : ChurnPreprocessor) (d : Raw.t) :
  ChurnPreprocessor_init pickle_load = OK pp ->
  artifacts_cover (encoder_manager pp) = true ->
  accepted d ->
  exists c p i b,
    encode_feature (encoder_manager pp) "Contract" (Raw.contract d) = OK c /\
    encode_feature (encoder_manager pp) "PaymentMethod" (Raw.payment_method d) = OK p /\
    encode_feature (encoder_manager pp) "InternetService"
      (Raw.internet_service d) = OK i /\
    encode_feature (encoder_manager pp) "PaperlessBilling"
      (Raw.paperless_billing d) = OK b /\
    preprocess pp d =
      if converts (Raw.tenure d + 1)
      then OK (expected_vector d c p i b, expected_metadata d c p i b)
      else Raise OverflowError.
Proof.
  intros Hinit Hcover Hacc.
  destruct (accepted_numeric d Hacc) as (Ht & Hm & Htc).
  destruct (ChurnPreprocessor_init_inv _ _ Hinit) as [_ Horder].
  destruct (encode_categorical_features_ok _ pp (of_raw d) Hinit Hcover)
    as (c & p & i & b & Ec & Ep & Ei & Eb & Eenc); try apply Hacc.
  exists c, p, i, b. repeat split; try assumption.
  unfold preprocess.
  rewrite (proj2 (validate_input_ok_iff d (of_raw d)) (conj Hacc eq_refl)).
  cbn [mbind result_bind]. rewrite Eenc. cbn [mbind result_bind].
  rewrite (compute_engineered_closed_form (of_raw d) Ht Hm Htc).
  change (tenure (of_raw d)) with (Raw.tenure d).
  destruct (converts (Raw.tenure d + 1)) eqn:Hconv; [| reflexivity].
  cbn [mbind result_bind].
  destruct (encoded_dict_lookups c p i b) as (L1 & L2 & L3 & L4 & Lother).
  rewrite (build_feature_vector_cases pp (of_raw d) _ _ _ _ _ Horder Lother).
  rewrite L1, L2, L3, L4.
  rewrite np_array_vector.
  - cbn [mbind result_bind]. rewrite Horder. reflexivity.
  - exact (encode_feature_code_range _ _ _ _ Ec).
  - exact (encode_feature_code_range _ _ _ _ Ep).
  - exact (encode_feature_code_range _ _ _ _ Ei).
  - exact (encode_feature_code_range _ _ _ _ Eb).
  - apply segment_of_small.
  - apply new_of_small.
  - exact (converts_mono (Raw.tenure d) (Raw.tenure d + 1) ltac:(lia) Hconv).
Qed.

Lemma spec_valid_fields (d : Raw.t) (field : string) :
  Spec.valid d -> In field Spec.fields -> Spec.field_ok d field = true.
Proof.
  unfold Spec.valid, Spec.violated_fields. intros Hvalid Hin.
  destruct (Spec.field_ok d field) eqn:E; [reflexivity |].
  assert (Hbad : In field (List.filter (fun f => negb (Spec.field_ok d f)) Spec.fields)).
  { apply filter_In. split; [exact Hin |]. by rewrite E. }
  rewrite Hvalid in Hbad. destruct Hbad.
Qed.

(** Every record the data model admits whose monthly_charges does not
    exceed 0.01 is refused, with monthly_charges as the only reported field. *)
Lemma small_monthly_charges_rejected (d : Raw.t) :
  Spec.valid d ->
  (Raw.monthly_charges d <= MIN_MONTHLY_CHARGES)%Q ->
  validate_input d
    = Raise (InvalidData
               [("monthly_charges", NumberNotGt (PyFloat MIN_MONTHLY_CHARGES))]).
Proof.
  intros Hvalid Hsmall.
  assert (Hfield : forall field, In field Spec.fields -> Spec.field_ok d field = true)
    by (intros field; apply spec_valid_fields, Hvalid).
  pose proof (Hfield "contract" ltac:(cbn; tauto)) as Hc.
  pose proof (Hfield "tenure" ltac:(cbn; tauto)) as Ht.
  pose proof (Hfield "total_charges" ltac:(cbn; tauto)) as Htc.
  pose proof (Hfield "payment_method" ltac:(cbn; tauto)) as Hp.
  pose proof (Hfield "internet_service" ltac:(cbn; tauto)) as Hi.
  pose proof (Hfield "paperless_billing" ltac:(cbn; tauto)) as Hb.
  cbn [Spec.field_ok String.eqb Ascii.eqb Bool.eqb] in Hc, Ht, Htc, Hp, Hi, Hb.
  apply bool_decide_eq_true_1 in Hc, Hp, Hi, Hb.
  apply Z.leb_le in Ht. apply Qle_bool_iff in Htc.
  unfold validate_input, ClientInput_new. rewrite ClientInput_errors_by_field.
  unfold validate_contract, validate_payment_method, validate_internet_service,
    validate_paperless_billing.
  rewrite !(proj2 (validator_none_iff _ _ _)) by assumption.
  rewrite (proj2 (field_ge_none_iff MIN_TENURE _) Ht).
  rewrite (proj2 (field_ge_float_none_iff MIN_TOTAL_CHARGES _) Htc).
  unfold field_gt_float. rewrite (Qlt_bool_false _ _ Hsmall). reflexivity.
Qed.

(** C1. The claim that every record satisfying the data-model constraints
    (monthly_charges > 0 in particular) passes [validate_input] fails on
    the code: with monthly_charges = 0.005, and with 0.01, every constraint
    of the data model holds, yet [validate_input] raises, naming
    monthly_charges, because the field is declared [gt=0.01]. *)
Theorem C1_validate_input_rejects_small_monthly_charges :
  Spec.valid small_charges_client /\
  (0 < Raw.monthly_charges small_charges_client <= 1 # 100)%Q /\
  validate_input small_charges_client
    = Raise (InvalidData
               [("monthly_charges", NumberNotGt (PyFloat MIN_MONTHLY_CHARGES))]) /\
  Spec.valid one_cent_client /\
  validate_input one_cent_client
    = Raise (InvalidData
               [("monthly_charges", NumberNotGt (PyFloat MIN_MONTHLY_CHARGES))]).
Proof.
  repeat split; try (vm_compute; reflexivity); vm_compute; discriminate.
Qed.




(** ** Aggregated validation errors *)

Lemma elem_of_error_entry (loc : string) (o : option field_error) :
  is_Some o -> loc ∈ map fst (error_entry loc o).
Proof. intros [e ->]. cbn. apply list_elem_of_here. Qed.

(** A field the data model calls violated is a field the code reports. *)
Lemma violated_field_reported (d : Raw.t) (field : string) :
  field ∈ Spec.violated_fields d -> field ∈ map fst (ClientInput_errors d).
Proof.
  intros Hin. apply list_elem_of_In, filter_In in Hin as [Hf Hbad].
  apply negb_true_iff in Hbad.
  rewrite ClientInput_errors_by_field, !map_app, !elem_of_app.
  assert (Hmonthly : Qlt_bool 0 (Raw.monthly_charges d) = false ->
                     Qlt_bool MIN_MONTHLY_CHARGES (Raw.monthly_charges d) = false).
  { intros H0. apply not_true_iff_false. rewrite Qlt_bool_iff. intros Hlt.
    apply not_true_iff_false in H0. apply H0, Qlt_bool_iff.
    apply Qlt_trans with MIN_MONTHLY_CHARGES; [reflexivity | exact Hlt]. }
  cbn in Hf.
  destruct Hf as [<- | [<- | [<- | [<- | [<- | [<- | [<- | []]]]]]]];
    cbn [Spec.field_ok String.eqb Ascii.eqb Bool.eqb] in Hbad.
  - left. apply elem_of_error_entry.
    unfold validate_contract, CONTRACT_VALUES. rewrite Hbad. by eexists.
  - right; left. apply elem_of_error_entry.
    unfold field_ge, MIN_TENURE. rewrite Hbad. by eexists.
  - do 2 right; left. apply elem_of_error_entry.
    unfold field_gt_float. rewrite (Hmonthly Hbad). by eexists.
  - do 3 right; left. apply elem_of_error_entry.
    unfold field_ge_float, MIN_TOTAL_CHARGES. change (inject_Z 0) with 0%Q.
    rewrite Hbad. by eexists.
  - do 4 right; left. apply elem_of_error_entry.
    unfold validate_payment_method, PAYMENT_METHOD_VALUES. rewrite Hbad. by eexists.
  - do 5 right; left. apply elem_of_error_entry.
    unfold validate_internet_service, INTERNET_SERVICE_VALUES. rewrite Hbad. by eexists.
  - do 6 right. apply elem_of_error_entry.
    unfold validate_paperless_billing, PAPERLESS_BILLING_VALUES. rewrite Hbad. by eexists.
Qed.

(** C7. A raw input that violates the data-model constraints on more than
    one field makes [validate_input] raise one error whose detail names
    every violated field, not only the first. *)
Theorem C7_validation_error_names_every_violated_field (d : Raw.t) :
  (1 < length (Spec.violated_fields d))%nat ->
  exists errors,
    validate_input d = Raise (InvalidData errors) /\
    (forall field, field ∈ Spec.violated_fields d -> field ∈ map fst errors) /\
    (length (Spec.violated_fields d) <= length errors)%nat /\
    NoDup (map fst errors).
Proof.
  intros Hmany. exists (ClientInput_errors d).
  assert (Hreported : forall field,
            field ∈ Spec.violated_fields d -> field ∈ map fst (ClientInput_errors d))
    by apply violated_field_reported.
  assert (Hnodup_spec : NoDup (Spec.violated_fields d)).
  { unfold Spec.violated_fields. apply NoDup_ListNoDup, List.NoDup_filter,
      NoDup_ListNoDup. unfold Spec.fields. by_decide. }
  assert (Hlen : (length (Spec.violated_fields d) <= length (ClientInput_errors d))%nat).
  { rewrite <- (length_map fst (ClientInput_errors d)).
    apply submseteq_length, NoDup_submseteq; assumption. }
  repeat split; try assumption.
  - assert (Hpos : (0 < length (ClientInput_errors d))%nat) by lia.
    unfold validate_input, ClientInput_new.
    destruct (ClientInput_errors d) as [| e errors]; [cbn in Hpos; lia |].
    reflexivity.
  - rewrite ClientInput_errors_by_field.
    destruct (validate_contract _), (field_ge _ _), (field_gt_float _ _),
      (field_ge_float _ _), (validate_payment_method _),
      (validate_internet_service _), (validate_paperless_billing _);
      cbn; by_decide.
Qed.

Lemma C7_validation_error_names_every_violated_field_witness :
  exists errors,
    validate_input
      (Raw.mk "Monthly" (-1) 50 (-3) "Electronic check" "Fiber optic" "yes")
      = Raise (InvalidData errors) /\
    (forall field,
       field ∈ Spec.violated_fields
                 (Raw.mk "Monthly" (-1) 50 (-3) "Electronic check" "Fiber optic" "yes") ->
       field ∈ map fst errors) /\
    (length (Spec.violated_fields
               (Raw.mk "Monthly" (-1) 50 (-3) "Electronic check" "Fiber optic" "yes"))
       <= length errors)%nat /\
    NoDup (map fst errors).
Proof.
  apply (C7_validation_error_names_every_violated_field
           (Raw.mk "Monthly" (-1) 50 (-3) "Electronic check" "Fiber optic" "yes")).
  vm_compute. lia.
Defined.

(** ** Absent categorical fields *)

Lemma compute_engineered_features_shape (validated_input : ClientInput)
    (engineered : gmap string pynum) :
  compute_engineered_features validated_input = OK engineered ->
  exists r1 seg new r2, engineered = engineered_dict r1 seg new r2.
Proof.
  unfold compute_engineered_features, compute_all_engineered_features.
  destruct (tenure validated_input <? 0); [discriminate |].
  destruct (fleb _ _); [discriminate |].
  destruct (fltb _ _); [discriminate |].
  destruct (calculate_ratio_monthly_charges_tenure _ _) as [r1 |]; [| discriminate].
  destruct (calculate_tenure_segment_encoded _) as [seg |]; [| discriminate].
  destruct (calculate_is_new_customer _) as [new |]; [| discriminate].
  destruct (calculate_ratio_total_monthly_tenure _ _ _) as [r2 |]; [| discriminate].
  cbn [mbind result_bind mret result_ret].
  fold (engineered_dict r1 seg new r2).
  destruct (negb _); [discriminate |].
  intros [= <-]. by exists r1, seg, new, r2.
Qed.

Lemma loaded_keys (pickle_load : string -> unpickled) (em : EncoderManager) :
  EncoderManager_init pickle_load = OK em ->
  dict_keys (encoders em) = recognized_fields.
Proof.
  intros Hinit.
  destruct (EncoderManager_init_inv _ _ Hinit) as (e1 & e2 & e3 & e4 & ->).
  reflexivity.
Qed.

(** C9. [encode_all_features] never raises because a field is absent: on
    any dictionary it visits the recognized categorical fields, encodes
    those present as keys and skips the others, so an exception can only
    come from [encode_feature] on a field that is present; when the present
    fields encode, the result is the partial dict holding exactly them.
    A recognized field missing from the dictionary surfaces only in
    [build_feature_vector], as the missing-feature error. *)
Theorem C9_encode_all_features_skips_absent
    (pickle_load : string -> unpickled) (pp : ChurnPreprocessor)
    (data : gmap string string) :
  ChurnPreprocessor_init pickle_load = OK pp ->
  (forall e, encode_all_features (encoder_manager pp) data = Raise e ->
     exists f v, f ∈ recognized_fields /\ data !! f = Some v /\
                 encode_feature (encoder_manager pp) f v = Raise e) /\
  ((forall f v, f ∈ recognized_fields -> data !! f = Some v ->
      exists code, encode_feature (encoder_manager pp) f v = OK code) ->
   exists out,
     encode_all_features (encoder_manager pp) data = OK out /\
     (forall f v, f ∈ recognized_fields -> data !! f = Some v ->
        exists code, encode_feature (encoder_manager pp) f v = OK code /\
                     out !! f = Some code) /\
     (forall f, data !! f = None -> out !! f = None) /\
     (forall f, f ∉ recognized_fields -> out !! f = None)) /\
  (forall validated_input encoded engineered f,
     encode_all_features (encoder_manager pp) data = OK encoded ->
     compute_engineered_features validated_input = OK engineered ->
     f ∈ recognized_fields -> data !! f = None ->
     exists g, g ∈ recognized_fields /\ data !! g = None /\
       build_feature_vector pp validated_input encoded engineered
         = Raise (MissingFeature g)).
Proof.
  intros Hinit.
  destruct (ChurnPreprocessor_init_inv _ _ Hinit) as [Hem Horder].
  pose proof (loaded_keys _ _ Hem) as Hkeys.
  pose proof (encode_all_features_spec (encoder_manager pp) data) as Hspec.
  rewrite Hkeys in Hspec.
  assert (Hpresent : forall out,
    encode_all_features (encoder_manager pp) data = OK out ->
    forall f v, f ∈ recognized_fields -> data !! f = Some v ->
      exists code, encode_feature (encoder_manager pp) f v = OK code /\
                   out !! f = Some code).
  { intros out Hrun f v Hin Hf. rewrite Hrun in Hspec.
    unfold encode_all_features in Hrun. rewrite Hkeys in Hrun.
    destruct (encode_all_loop_present _ _ _ _ _ Hrun f v Hin Hf) as [code Hcode].
    exists code. split; [exact Hcode |].
    rewrite Hspec, Hf, bool_decide_eq_true_2 by exact Hin.
    unfold code_of. by rewrite Hcode. }
  split; [| split].
  - intros e Hrun. rewrite Hrun in Hspec. exact Hspec.
  - intros Hall.
    destruct (encode_all_features (encoder_manager pp) data) as [out | e] eqn:Hrun.
    + exists out. split; [reflexivity |]. split; [| split].
      * by apply Hpresent.
      * intros f Hf. by rewrite Hspec, Hf.
      * intros f Hf. rewrite Hspec. destruct (data !! f); [| reflexivity].
        by rewrite bool_decide_eq_false_2.
    + destruct Hspec as (f & v & Hin & Hf & He).
      destruct (Hall f v Hin Hf) as [code Hcode]. congruence.
  - intros validated_input encoded engineered f Hrun Heng Hin Hf.
    rewrite Hrun in Hspec.
    destruct (compute_engineered_features_shape _ _ Heng)
      as (r1 & seg & new & r2 & ->).
    assert (Hother : forall k, k ∉ recognized_fields -> encoded !! k = None).
    { intros k Hk. rewrite Hspec. destruct (data !! k); [| reflexivity].
      by rewrite bool_decide_eq_false_2. }
    assert (Habsent : forall g, g ∈ recognized_fields -> encoded !! g = None ->
                                data !! g = None).
    { intros g Hg Hnone. destruct (data !! g) as [v |] eqn:Hv; [| reflexivity].
      destruct (Hpresent _ Hrun g v Hg Hv) as (code & _ & Hsome). congruence. }
    rewrite (build_feature_vector_cases pp validated_input encoded _ _ _ _
               Horder Hother).
    destruct (encoded !! "Contract") as [c |] eqn:Lc;
      [| exists "Contract"; repeat split; [by_decide | apply Habsent; [by_decide | done]]].
    destruct (encoded !! "PaymentMethod") as [p |] eqn:Lp;
      [| exists "PaymentMethod"; repeat split;
         [by_decide | apply Habsent; [by_decide | done]]].
    destruct (encoded !! "InternetService") as [i |] eqn:Li;
      [| exists "InternetService"; repeat split;
         [by_decide | apply Habsent; [by_decide | done]]].
    destruct (encoded !! "PaperlessBilling") as [b |] eqn:Lb;
      [| exists "PaperlessBilling"; repeat split;
         [by_decide | apply Habsent; [by_decide | done]]].
    exfalso.
    assert (Hnone : encoded !! f = None) by (by rewrite Hspec, Hf).
    unfold recognized_fields in Hin.
    repeat (apply elem_of_cons in Hin as [-> | Hin]; [congruence |]).
    by apply elem_of_nil in Hin.
Qed.

Lemma C9_encode_all_features_skips_absent_witness :
  exists out,
    encode_all_features fitted_manager {["PaymentMethod" := "Electronic check"]}
      = OK out /\
    out !! "PaymentMethod" = Some 2 /\
    out !! "Contract" = None.
Proof.
  destruct (C9_encode_all_features_skips_absent fitted_artifacts fitted_preprocessor
              {["PaymentMethod" := "Electronic check"]} eq_refl)
    as (_ & Hpartial & _).
  destruct Hpartial as (out & Hrun & Hpresent & Habsent & _).
  - intros f v Hin Hf. unfold recognized_fields in Hin.
    repeat (apply elem_of_cons in Hin as [-> | Hin];
            [vm_compute in Hf; try discriminate Hf |]).
    + injection Hf as <-. exists 2. vm_compute. reflexivity.
    + by apply elem_of_nil in Hin.
  - exists out. split; [exact Hrun |]. split.
    + destruct (Hpresent "PaymentMethod" "Electronic check") as (code & Hcode & Hout).
      * by_decide.
      * vm_compute. reflexivity.
      * vm_compute in Hcode. injection Hcode as <-. exact Hout.
    + apply Habsent. vm_compute. reflexivity.
Defined.

(** ** Batches *)

Lemma preprocess_batch_loop_ok (self : ChurnPreprocessor)
    (clients_data : list Raw.t) (outs : list (list pyfloat * Metadata)) (i : nat)
    (feature_vectors : list (list pyfloat)) (metadatas : list Metadata) :
  Forall2 (fun d o => preprocess self d = OK o) clients_data outs ->
  preprocess_batch_loop self i clients_data feature_vectors metadatas =
    OK ((feature_vectors ++ map fst outs)%list, (metadatas ++ map snd outs)%list).
Proof.
  intros Hall. revert i feature_vectors metadatas.
  induction Hall as [| d [v m] rest outs Hd _ IH]; intros i feature_vectors metadatas.
  - cbn. by rewrite !app_nil_r.
  - cbn [preprocess_batch_loop]. rewrite Hd, IH. cbn [map fst snd].
    by rewrite <- !app_assoc.
Qed.

Lemma preprocess_batch_loop_first_failure (self : ChurnPreprocessor)
    (clients_data : list Raw.t) (k : nat) (dk : Raw.t) (ek : exn) (i : nat)
    (feature_vectors : list (list pyfloat)) (metadatas : list Metadata) :
  clients_data !! k = Some dk ->
  preprocess self dk = Raise ek ->
  (forall j dj, (j < k)%nat -> clients_data !! j = Some dj ->
     exists o, preprocess self dj = OK o) ->
  preprocess_batch_loop self i clients_data feature_vectors metadatas =
    Raise (BatchError (i + k) ek).
Proof.
  revert k i feature_vectors metadatas.
  induction clients_data as [| d rest IH];
    intros k i feature_vectors metadatas Hk Hfail Hbefore.
  - discriminate Hk.
  - cbn [preprocess_batch_loop]. destruct k as [| k].
    + injection Hk as ->. rewrite Hfail. by rewrite Nat.add_0_r.
    + destruct (Hbefore 0%nat d) as [[v m] Hd]; [lia | reflexivity |].
      rewrite Hd, (IH k (S i)).
      * f_equal. f_equal. lia.
      * exact Hk.
      * exact Hfail.
      * intros j dj Hj Hdj. apply (Hbefore (S j) dj); [lia | exact Hdj].
Qed.






(** * Further properties of the code *)

(** ** Feature engineering: guards, bounds and monotonicity *)



Lemma Qdiv_antitone (m a b : Q) :
  (0 <= m)%Q -> (0 < a)%Q -> (a <= b)%Q -> (m / b <= m / a)%Q.
Proof.
  intros Hm Ha Hab.
  assert (Hb : (0 < b)%Q) by (eapply Qlt_le_trans; eassumption).
  apply Qle_shift_div_r; [exact Hb |].
  assert (E : (m / a * b == m * b / a)%Q) by (field; intros E; rewrite E in Ha; by apply Qlt_irrefl in Ha).
  rewrite E. apply Qle_shift_div_l; [exact Ha |].
  rewrite (Qmult_comm m a), (Qmult_comm m b).
  by apply Qmult_le_compat_r.
Qed.

Lemma binary64_round (x : Q) :
  binary64 x = true -> exists y, round64 x = Finite y /\ (y == x)%Q.
Proof.
  unfold binary64. destruct (round64 x) as [y | |]; try discriminate.
  intros H. apply Qeq_bool_iff in H. eauto.
Qed.

(** X2. For a float monthly_charges > 0 and tenures 0 <= t1 <= t2 such
    that t2 + 1 converts to a float, [calculate_ratio_monthly_charges_tenure]
    returns the float quotients monthly_charges / (t + 1); they are
    non-negative, do not grow with tenure and do not exceed
    monthly_charges. (Positivity is not claimed: the quotient of a tiny
    charge can underflow to zero.) *)
Theorem X2_ratio_monthly_bounds (monthly_charges : Q) (t1 t2 : Z) :
  binary64 monthly_charges = true ->
  (0 < monthly_charges)%Q -> 0 <= t1 -> t1 <= t2 -> converts (t2 + 1) = true ->
  exists r1 r2,
    calculate_ratio_monthly_charges_tenure monthly_charges t1 = OK r1 /\
    calculate_ratio_monthly_charges_tenure monthly_charges t2 = OK r2 /\
    r1 = fdiv monthly_charges (as_float (t1 + 1)) /\
    fleb 0%Q r2 = true /\ fleb r2 r1 = true /\ fleb r1 monthly_charges = true.
Proof.
  intros Hb Hm H1 H12 Hc2.
  assert (Hc1 : converts (t1 + 1) = true)
    by exact (converts_mono (t1 + 1) (t2 + 1) ltac:(lia) Hc2).
  exists (ratio_monthly_of monthly_charges t1), (ratio_monthly_of monthly_charges t2).
  rewrite !ratio_monthly_closed_form by (assumption || lia).
  rewrite Hc1, Hc2. split; [reflexivity |]. split; [reflexivity |].
  split; [reflexivity |].
  unfold ratio_monthly_of.
  assert (Hle : fleb (as_float (t1 + 1)) (as_float (t2 + 1)) = true).
  { apply round64_mono.
    - change 0%Q with (inject_Z 0). rewrite <- Zle_Qle. lia.
    - rewrite <- Zle_Qle. lia. }
  destruct (as_float_ge1 (t1 + 1) ltac:(lia) Hc1) as (y1 & E1 & Hy1 & _).
  destruct (as_float_ge1 (t2 + 1) ltac:(lia) Hc2) as (y2 & E2 & Hy2 & _).
  rewrite E1, E2 in Hle |- *. cbn in Hle. apply Qle_bool_iff in Hle.
  cbn [fdiv].
  assert (P1 : (0 < y1)%Q) by (apply Qlt_le_trans with 1%Q; [reflexivity | exact Hy1]).
  assert (P2 : (0 < y2)%Q) by (apply Qlt_le_trans with 1%Q; [reflexivity | exact Hy2]).
  split; [| split].
  - apply round64_nonneg, Qdiv_nonneg; [now apply Qlt_le_weak | exact P2].
  - apply round64_mono.
    + apply Qdiv_nonneg; [now apply Qlt_le_weak | exact P2].
    + apply Qdiv_antitone; [now apply Qlt_le_weak | exact P1 | exact Hle].
  - destruct (binary64_round _ Hb) as (y & Ey & Hy).
    assert (Hq : fleb (round64 (monthly_charges / y1)) (round64 monthly_charges) = true).
    { apply round64_mono.
      - apply Qdiv_nonneg; [now apply Qlt_le_weak | exact P1].
      - apply Qle_shift_div_r; [exact P1 |].
        rewrite <- (Qmult_1_r monthly_charges) at 1.
        apply Qmult_le_compat_nonneg.
        + split; [now apply Qlt_le_weak | apply Qle_refl].
        + split; [discriminate | exact Hy1]. }
    rewrite Ey in Hq.
    destruct (round64 (monthly_charges / y1)) as [r | [] |]; try discriminate.
    + cbn in Hq |- *. apply Qle_bool_iff in Hq. apply Qle_bool_iff. now rewrite <- Hy.
    + reflexivity.
Qed.

Lemma X2_ratio_monthly_bounds_witness :
  exists r1 r2,
    calculate_ratio_monthly_charges_tenure 50%Q 0 = OK r1 /\
    calculate_ratio_monthly_charges_tenure 50%Q 12 = OK r2 /\
    r1 = fdiv 50%Q (as_float (0 + 1)) /\
    fleb 0%Q r2 = true /\ fleb r2 r1 = true /\ fleb r1 50%Q = true.
Proof.
  apply (X2_ratio_monthly_bounds 50 0 12);
    [reflexivity | reflexivity | lia | lia | reflexivity].
Defined.

(** X3. On tenures >= 0 the segment code never decreases with tenure and
    stays within 0..3, while the new-customer flag never increases and is 1
    exactly up to tenure 6. *)
Theorem X3_segment_and_flag_monotone (t1 t2 : Z) :
  0 <= t1 -> t1 <= t2 ->
  exists s1 s2 n1 n2,
    calculate_tenure_segment_encoded t1 = OK s1 /\
    calculate_tenure_segment_encoded t2 = OK s2 /\
    calculate_is_new_customer t1 = OK n1 /\
    calculate_is_new_customer t2 = OK n2 /\
    0 <= s1 /\ s1 <= s2 /\ s2 <= 3 /\
    0 <= n2 /\ n2 <= n1 /\ n1 <= 1 /\
    (n1 = 1 <-> t1 <= 6).
Proof.
  intros H1 H12.
  exists (segment_of t1), (segment_of t2), (new_of t1), (new_of t2).
  rewrite !segment_closed_form by lia.
  unfold calculate_is_new_customer.
  destruct (Z.ltb_spec t1 0); [lia |]. destruct (Z.ltb_spec t2 0); [lia |].
  unfold segment_of, new_of.
  repeat match goal with
         | |- context [?a <=? ?b] => destruct (Z.leb_spec a b)
         end; repeat split; try reflexivity; lia.
Qed.

Lemma X3_segment_and_flag_monotone_witness :
  exists s1 s2 n1 n2,
    calculate_tenure_segment_encoded 6 = OK s1 /\
    calculate_tenure_segment_encoded 30 = OK s2 /\
    calculate_is_new_customer 6 = OK n1 /\
    calculate_is_new_customer 30 = OK n2 /\
    0 <= s1 /\ s1 <= s2 /\ s2 <= 3 /\
    0 <= n2 /\ n2 <= n1 /\ n1 <= 1 /\
    (n1 = 1 <-> 6 <= 6).
Proof.
  apply (X3_segment_and_flag_monotone 6 30); lia.
Defined.



(** ** The encoder: codes, introspection and loading *)

Lemma index_of_lookup (value : string) (classes : list string) (code : Z) :
  index_of value classes = Some code ->
  0 <= code < Z.of_nat (length classes) /\
  classes !! Z.to_nat code = Some value.
Proof.
  revert code. induction classes as [| c rest IH]; intros code; cbn.
  - discriminate.
  - destruct (String.eqb_spec c value) as [-> | NE].
    + intros [= <-]. split; [lia | reflexivity].
    + destruct (index_of value rest) as [i |]; [| discriminate].
      intros [= <-]. destruct (IH i eq_refl) as [Hrange Hlook].
      split; [lia |].
      replace (Z.to_nat (i + 1)) with (S (Z.to_nat i)) by lia. exact Hlook.
Qed.

(** X5. Whatever encoders are loaded, a code returned by [encode_feature]
    is the position of the value in the encoder's [classes_]: it lies in
    0 .. len(classes_) - 1, [classes_[code]] gives the value back, and two
    values of one field never share a code. *)
Theorem X5_encode_feature_round_trip (self : EncoderManager)
    (feature_name value : string) (code : Z) :
  encode_feature self feature_name value = OK code ->
  (exists encoder,
     dict_get (encoders self) feature_name = Some encoder /\
     0 <= code < Z.of_nat (length (classes_ encoder)) /\
     classes_ encoder !! Z.to_nat code = Some value) /\
  (forall other, encode_feature self feature_name other = OK code -> other = value).
Proof.
  assert (Hinv : forall v c,
    encode_feature self feature_name v = OK c ->
    exists encoder,
      dict_get (encoders self) feature_name = Some encoder /\
      index_of v (classes_ encoder) = Some c).
  { intros v c. unfold encode_feature.
    destruct (dict_get (encoders self) feature_name) as [encoder |]; [| discriminate].
    destruct (subscript _ _) as [values |]; cbn; [| discriminate].
    destruct (negb _); [discriminate |]. unfold transform.
    destruct (index_of v (classes_ encoder)) as [i |] eqn:E; [| discriminate].
    intros [= <-]. by exists encoder. }
  intros Hcode. destruct (Hinv _ _ Hcode) as (encoder & Hget & Hidx).
  destruct (index_of_lookup _ _ _ Hidx) as [Hrange Hlook].
  split; [by exists encoder |].
  intros other Hother. destruct (Hinv _ _ Hother) as (encoder' & Hget' & Hidx').
  assert (encoder' = encoder) as -> by congruence.
  destruct (index_of_lookup _ _ _ Hidx') as [_ Hlook']. congruence.
Qed.

Lemma X5_encode_feature_round_trip_witness :
  (exists encoder,
     dict_get (encoders fitted_manager) "PaymentMethod" = Some encoder /\
     0 <= 2 < Z.of_nat (length (classes_ encoder)) /\
     classes_ encoder !! Z.to_nat 2 = Some "Electronic check") /\
  (forall other,
     encode_feature fitted_manager "PaymentMethod" other = OK 2 ->
     other = "Electronic check").
Proof.
  apply (X5_encode_feature_round_trip fitted_manager "PaymentMethod"
           "Electronic check" 2).
  vm_compute. reflexivity.
Defined.

Lemma feature_mappings_lookup (field : string) :
  FEATURE_MAPPINGS !! field = allowed_values field.
Proof.
  unfold FEATURE_MAPPINGS, allowed_values.
  repeat match goal with
         | |- context [String.eqb field ?s] =>
             destruct (String.eqb_spec field s) as [-> | ?]; [lookup_literal |]
         end.
  lookup_literal.
Qed.

Lemma allowed_values_recognized (field : string) :
  is_Some (allowed_values field) <-> field ∈ recognized_fields.
Proof.
  unfold allowed_values, recognized_fields. rewrite !elem_of_cons, elem_of_nil.
  repeat match goal with
         | |- context [String.eqb field ?s] =>
             destruct (String.eqb_spec field s) as [-> | ?];
               [split; [tauto | by eexists] |]
         end.
  split; [intros [? [=]] | tauto].
Qed.

Lemma validate_input_values_lookup
    (pickle_load : string -> unpickled) (em : EncoderManager)
    (data : gmap string string) (field : string) :
  EncoderManager_init pickle_load = OK em ->
  validate_input_values em data !! field =
    match allowed_values field, data !! field with
    | Some values, Some value => Some (bool_decide (value ∈ values))
    | _, _ => None
    end.
Proof.
  intros Hinit.
  destruct (EncoderManager_init_inv _ _ Hinit) as (e1 & e2 & e3 & e4 & ->).
  unfold validate_input_values. cbn [feature_mappings].
  rewrite map_lookup_imap, feature_mappings_lookup.
  destruct (allowed_values field); cbn; [| reflexivity].
  destruct (data !! field); reflexivity.
Qed.

(** X6. For a manager built by [__init__], [validate_input_values] has an
    entry exactly for the recognized fields that are keys of the input;
    the entry is True exactly when the value is allowed. Any other key of
    the input is ignored, and nothing is raised. *)
Theorem X6_validate_input_values_entries
    (pickle_load : string -> unpickled) (em : EncoderManager)
    (data : gmap string string) (field : string) :
  EncoderManager_init pickle_load = OK em ->
  validate_input_values em data !! field =
    match allowed_values field, data !! field with
    | Some values, Some value => Some (bool_decide (value ∈ values))
    | _, _ => None
    end.
Proof. apply validate_input_values_lookup. Qed.

Lemma X6_validate_input_values_entries_witness :
  validate_input_values fitted_manager
    (<["Contract" := "Weekly"]> {["color" := "red"]}) !! "Contract" =
    match allowed_values "Contract",
          (<["Contract" := "Weekly"]> ({["color" := "red"]} : gmap string string))
            !! "Contract" with
    | Some values, Some value => Some (bool_decide (value ∈ values))
    | _, _ => None
    end.
Proof.
  apply (X6_validate_input_values_entries fitted_artifacts fitted_manager
           (<["Contract" := "Weekly"]> {["color" := "red"]}) "Contract").
  reflexivity.
Defined.

(** X7. With the encoders loaded and covering the allowed values,
    [validate_input_values] predicts [encode_all_features]: the encoding of
    a dictionary succeeds if and only if every entry of the validation
    report is True. *)
Theorem X7_validation_report_predicts_encoding
    (pickle_load : string -> unpickled) (em : EncoderManager)
    (data : gmap string string) :
  EncoderManager_init pickle_load = OK em ->
  artifacts_cover em = true ->
  ((exists encoded, encode_all_features em data = OK encoded) <->
   (forall field ok, validate_input_values em data !! field = Some ok -> ok = true)).
Proof.
  intros Hinit Hcover.
  pose proof (loaded_keys _ _ Hinit) as Hkeys.
  pose proof (encode_all_features_spec em data) as Hspec. rewrite Hkeys in Hspec.
  split.
  - intros [encoded Hrun] field ok Hreport.
    rewrite (validate_input_values_lookup _ _ _ _ Hinit) in Hreport.
    destruct (allowed_values field) as [values |] eqn:Ea; [| discriminate].
    destruct (data !! field) as [value |] eqn:Ed; [| discriminate].
    injection Hreport as <-.
    pose proof (encode_feature_cases pickle_load em field value Hinit Hcover)
      as Hcases.
    rewrite Ea in Hcases.
    destruct (bool_decide (value ∈ values)) eqn:Eb; [reflexivity |].
    unfold encode_all_features in Hrun. rewrite Hkeys in Hrun.
    destruct (encode_all_loop_present _ _ _ _ _ Hrun field value) as [code Hcode].
    + apply allowed_values_recognized. by rewrite Ea.
    + exact Ed.
    + congruence.
  - intros Hreport.
    destruct (encode_all_features em data) as [encoded | e]; [by eexists |].
    destruct Hspec as (field & value & Hin & Hd & Hraise).
    apply allowed_values_recognized in Hin as [values Ea].
    pose proof (encode_feature_cases _ _ field value Hinit Hcover) as Hcases.
    rewrite Ea in Hcases.
    specialize (Hreport field (bool_decide (value ∈ values))).
    rewrite (validate_input_values_lookup _ _ _ _ Hinit), Ea, Hd in Hreport.
    rewrite (Hreport eq_refl) in Hcases.
    destruct Hcases as [code Hcode]. congruence.
Qed.

Lemma X7_validation_report_predicts_encoding_witness :
  (exists encoded,
     encode_all_features fitted_manager {["Contract" := "Weekly"]} = OK encoded) <->
  (forall field ok,
     validate_input_values fitted_manager {["Contract" := "Weekly"]} !! field
       = Some ok -> ok = true).
Proof.
  apply (X7_validation_report_predicts_encoding fitted_artifacts fitted_manager
           {["Contract" := "Weekly"]}); reflexivity.
Defined.

Lemma mapping_loop_lookup (encoder : LabelEncoder) (allowed : list string)
    (mapping : gmap string (option Z)) (value : string) :
  mapping_loop encoder allowed mapping !! value =
    if bool_decide (value ∈ allowed) then Some (transform encoder value)
    else mapping !! value.
Proof.
  revert mapping. induction allowed as [| v rest IH]; intros mapping; cbn.
  - rewrite bool_decide_eq_false_2; [reflexivity | apply not_elem_of_nil].
  - rewrite IH. destruct (decide (value = v)) as [-> | Hne].
    + rewrite (bool_decide_eq_true_2 (v ∈ v :: rest)) by apply list_elem_of_here.
      rewrite lookup_insert_eq. by destruct (bool_decide (v ∈ rest)).
    + rewrite lookup_insert_ne by congruence.
      assert (Hiff : value ∈ v :: rest <-> value ∈ rest)
        by (rewrite elem_of_cons; tauto).
      by rewrite (bool_decide_ext _ _ Hiff).
Qed.

Lemma loaded_dict_get (pickle_load : string -> unpickled)
    (em : EncoderManager) (field : string) :
  EncoderManager_init pickle_load = OK em ->
  is_Some (dict_get (encoders em) field) <-> field ∈ recognized_fields.
Proof.
  intros Hinit.
  destruct (EncoderManager_init_inv _ _ Hinit) as (e1 & e2 & e3 & e4 & ->).
  cbn [encoders dict_get]. unfold recognized_fields.
  rewrite !elem_of_cons, elem_of_nil.
  repeat match goal with
         | |- context [String.eqb ?s field] =>
             destruct (String.eqb_spec s field) as [<- | ?];
               [split; [tauto | by eexists] |]
         end.
  split; [intros [? [=]] | intros [-> | [-> | [-> | [-> | []]]]]; congruence].
Qed.

(** The report of [get_feature_info] on a recognized field of a loaded
    manager. *)
Lemma get_feature_info_loaded (pickle_load : string -> unpickled)
    (em : EncoderManager) (field : string) :
  EncoderManager_init pickle_load = OK em ->
  field ∈ recognized_fields ->
  exists encoder values,
    dict_get (encoders em) field = Some encoder /\
    allowed_values field = Some values /\
    feature_mappings em !! field = Some values /\
    get_feature_info em field =
      inr {| info_feature_name := field;
             info_allowed_values := values;
             info_mapping := mapping_loop encoder values ∅;
             info_encoder_classes := classes_ encoder |}.
Proof.
  intros Hinit Hin.
  destruct (proj2 (loaded_dict_get _ _ field Hinit) Hin) as [encoder Hget].
  destruct (proj2 (allowed_values_recognized field) Hin) as [values Ha].
  assert (Hmap : feature_mappings em !! field = Some values).
  { destruct (EncoderManager_init_inv _ _ Hinit) as (e1 & e2 & e3 & e4 & ->).
    cbn [feature_mappings]. by rewrite feature_mappings_lookup. }
  exists encoder, values. repeat split; try assumption.
  unfold get_feature_info. by rewrite Hget, Hmap.
Qed.

(** X8. On a manager built by [__init__], [get_feature_info] raises the
    not-found [KeyError] for every field that is not recognized; for a
    recognized field it reports the allowed values of that field and a
    mapping that agrees with [encode_feature]: the mapping sends a value to
    a code exactly when [encode_feature] returns that code, and has no
    entry for a value outside the allowed set. *)
Theorem X8_get_feature_info_agrees_with_encoding
    (pickle_load : string -> unpickled) (em : EncoderManager)
    (field : string) :
  EncoderManager_init pickle_load = OK em ->
  (field ∉ recognized_fields ->
     get_feature_info em field = inl (FeatureNotFound field)) /\
  (field ∈ recognized_fields ->
     exists info,
       get_feature_info em field = inr info /\
       info_feature_name info = field /\
       allowed_values field = Some (info_allowed_values info) /\
       (forall value code,
          info_mapping info !! value = Some (Some code) <->
          encode_feature em field value = OK code) /\
       (forall value, value ∉ info_allowed_values info ->
          info_mapping info !! value = None)).
Proof.
  intros Hinit. split.
  - intros Hout. unfold get_feature_info.
    destruct (dict_get (encoders em) field) as [encoder |] eqn:Hget; [| reflexivity].
    exfalso. apply Hout, (loaded_dict_get _ _ field Hinit). by eexists.
  - intros Hin.
    destruct (get_feature_info_loaded _ _ field Hinit Hin)
      as (encoder & values & Hget & Ha & Hmap & Hinfo).
    eexists. split; [exact Hinfo |]. cbn.
    split; [reflexivity |]. split; [exact Ha |]. split.
    + intros value code. rewrite mapping_loop_lookup, lookup_empty.
      rewrite (encode_feature_known em field value encoder values Hget Hmap).
      destruct (bool_decide (value ∈ values)).
      * destruct (transform encoder value); split; congruence.
      * split; discriminate.
    + intros value Hout. rewrite mapping_loop_lookup, lookup_empty.
      by rewrite bool_decide_eq_false_2.
Qed.

Lemma X8_get_feature_info_agrees_with_encoding_witness :
  exists info,
    get_feature_info fitted_manager "Contract" = inr info /\
    info_feature_name info = "Contract" /\
    allowed_values "Contract" = Some (info_allowed_values info) /\
    (forall value code,
       info_mapping info !! value = Some (Some code) <->
       encode_feature fitted_manager "Contract" value = OK code) /\
    (forall value, value ∉ info_allowed_values info ->
       info_mapping info !! value = None).
Proof.
  apply (X8_get_feature_info_agrees_with_encoding fitted_artifacts fitted_manager
           "Contract"); [reflexivity | by_decide].
Defined.

Lemma all_info_loop_spec (self : EncoderManager) (keys : list string)
    (infos : gmap string FeatureInfo) :
  (forall name, name ∈ keys -> exists info, get_feature_info self name = inr info) ->
  exists out,
    all_info_loop self keys infos = inr out /\
    forall name,
      out !! name =
        if bool_decide (name ∈ keys)
        then match get_feature_info self name with
             | inr info => Some info
             | inl _ => None
             end
        else infos !! name.
Proof.
  revert infos. induction keys as [| k rest IH]; intros infos Hall; cbn.
  - exists infos. split; [reflexivity |]. intros name.
    rewrite bool_decide_eq_false_2; [reflexivity | apply not_elem_of_nil].
  - destruct (Hall k) as [info Hk]; [apply list_elem_of_here |]. rewrite Hk.
    destruct (IH (<[k := info]> infos)) as (out & Hrun & Hout).
    { intros name Hname. apply Hall. by apply list_elem_of_further. }
    exists out. split; [exact Hrun |]. intros name. rewrite Hout.
    destruct (decide (name = k)) as [-> | Hne].
    + rewrite (bool_decide_eq_true_2 (k ∈ k :: rest)) by apply list_elem_of_here.
      rewrite Hk, lookup_insert_eq. by destruct (bool_decide (k ∈ rest)).
    + rewrite lookup_insert_ne by congruence.
      assert (Hiff : name ∈ k :: rest <-> name ∈ rest)
        by (rewrite elem_of_cons; tauto).
      by rewrite (bool_decide_ext _ _ Hiff).
Qed.

(** X9. On a manager built by [__init__], [get_all_features_info] never
    raises: it returns a dict whose keys are exactly the four recognized
    fields, each holding the report [get_feature_info] gives for it. *)
Theorem X9_get_all_features_info_keys
    (pickle_load : string -> unpickled) (em : EncoderManager) :
  EncoderManager_init pickle_load = OK em ->
  exists infos,
    get_all_features_info em = inr infos /\
    dom infos = list_to_set recognized_fields /\
    forall field info,
      infos !! field = Some info <->
      field ∈ recognized_fields /\ get_feature_info em field = inr info.
Proof.
  intros Hinit. unfold get_all_features_info. rewrite (loaded_keys _ _ Hinit).
  destruct (all_info_loop_spec em recognized_fields ∅) as (infos & Hrun & Hout).
  { intros name Hname.
    destruct (get_feature_info_loaded _ _ name Hinit Hname)
      as (? & ? & _ & _ & _ & ->). by eexists. }
  assert (Hlook : forall field info,
            infos !! field = Some info <->
            field ∈ recognized_fields /\ get_feature_info em field = inr info).
  { intros field info. rewrite Hout, lookup_empty.
    destruct (bool_decide_reflect (field ∈ recognized_fields)) as [Hin | Hnot].
    - destruct (get_feature_info em field); split; try tauto; try congruence.
      + intros [_ [=]].
      + intros [= <-]. by split.
      + intros [_ [= <-]]. reflexivity.
    - split; [discriminate | tauto]. }
  exists infos. split; [exact Hrun |]. split; [| exact Hlook].
  apply set_eq. intros field. rewrite elem_of_dom, elem_of_list_to_set.
  split.
  - intros [info Hinfo]. by apply Hlook in Hinfo as [? _].
  - intros Hin.
    destruct (get_feature_info_loaded _ _ field Hinit Hin)
      as (? & ? & _ & _ & _ & Hinfo).
    eexists. apply Hlook. split; [exact Hin | exact Hinfo].
Qed.

Lemma X9_get_all_features_info_keys_witness :
  exists infos,
    get_all_features_info fitted_manager = inr infos /\
    dom infos = list_to_set recognized_fields /\
    forall field info,
      infos !! field = Some info <->
      field ∈ recognized_fields /\ get_feature_info fitted_manager field = inr info.
Proof.
  apply (X9_get_all_features_info_keys fitted_artifacts fitted_manager).
  reflexivity.
Defined.

(** X10. [EncoderManager()] reads the four encoder files in the order of
    [ENCODER_FILES] and succeeds exactly when all four load; it then holds
    each file's encoder under its feature name. Otherwise the first file
    that does not load decides the error: [FileNotFoundError] naming it
    when it is missing, and whatever [open] or [pickle.load] raised,
    unchanged, when it is unreadable. [ChurnPreprocessor()] fails with that
    same error. *)
Theorem X10_encoder_files_all_or_nothing
    (pickle_load : string -> unpickled) :
  ((exists em, EncoderManager_init pickle_load = OK em) <->
   (forall path, path ∈ encoder_paths -> loads pickle_load path = true)) /\
  (forall em, EncoderManager_init pickle_load = OK em ->
     feature_mappings em = FEATURE_MAPPINGS /\
     forall name path, (name, path) ∈ ENCODER_FILES ->
       exists encoder, pickle_load path = Unpickled encoder /\
                       dict_get (encoders em) name = Some encoder) /\
  (forall e, EncoderManager_init pickle_load = Raise e ->
     exists i path,
       encoder_paths !! i = Some path /\
       load_error path (pickle_load path) = Some e /\
       forall j earlier, (j < i)%nat -> encoder_paths !! j = Some earlier ->
         loads pickle_load earlier = true) /\
  (forall e, ChurnPreprocessor_init pickle_load = Raise e <->
             EncoderManager_init pickle_load = Raise e).
Proof.
  assert (Hpp : forall e, ChurnPreprocessor_init pickle_load = Raise e <->
                          EncoderManager_init pickle_load = Raise e).
  { intros e. unfold ChurnPreprocessor_init.
    destruct (EncoderManager_init pickle_load); cbn; split; congruence. }
  assert (Hearlier : forall i,
            (forall path, path ∈ take i encoder_paths -> loads pickle_load path = true) ->
            forall j earlier, (j < i)%nat -> encoder_paths !! j = Some earlier ->
              loads pickle_load earlier = true).
  { intros i Hall j earlier Hj Hlook. apply Hall.
    apply list_elem_of_lookup. exists j. by rewrite lookup_take_lt. }
  assert (Hfail : forall (i : nat) path e,
            encoder_paths !! i = Some path ->
            load_error path (pickle_load path) = Some e ->
            (forall p, p ∈ take i encoder_paths -> loads pickle_load p = true) ->
            ((exists em : EncoderManager, Raise e = OK em) <->
             (forall p, p ∈ encoder_paths -> loads pickle_load p = true)) /\
            (forall e', @Raise EncoderManager e = Raise e' ->
               exists i path,
                 encoder_paths !! i = Some path /\
                 load_error path (pickle_load path) = Some e' /\
                 forall j earlier, (j < i)%nat -> encoder_paths !! j = Some earlier ->
                   loads pickle_load earlier = true)).
  { intros i path e Hi He Hbefore. split.
    - split; [intros [? [=]] |]. intros Hall.
      assert (Hin : path ∈ encoder_paths) by (apply list_elem_of_lookup; eauto).
      specialize (Hall path Hin). unfold loads in Hall.
      destruct (pickle_load path); [discriminate He | discriminate | discriminate].
    - intros e' [= <-]. exists i, path.
      split; [exact Hi |]. split; [exact He |]. now apply Hearlier. }
  revert Hpp. generalize (ChurnPreprocessor_init pickle_load). intros r Hpp.
  unfold EncoderManager_init, ENCODER_FILES in Hpp |- *.
  cbn [_load_encoders dict_set] in Hpp |- *.
  destruct (pickle_load "labelencoder_Contract.pkl") as [e1 | | err] eqn:E1.
  2,3: (cbn [mbind result_bind];
        edestruct (Hfail 0%nat "labelencoder_Contract.pkl") as [H1 H3];
        [reflexivity | rewrite E1; reflexivity
        | intros p Hin; by apply elem_of_nil in Hin |];
        split; [exact H1 | split; [discriminate | split; [exact H3 | exact Hpp]]]).
  cbn [String.eqb Ascii.eqb Bool.eqb].
  assert (L1 : loads pickle_load "labelencoder_Contract.pkl" = true)
    by (unfold loads; now rewrite E1).
  destruct (pickle_load "labelencoder_PaymentMethod.pkl") as [e2 | | err] eqn:E2.
  2,3: (cbn [mbind result_bind];
        edestruct (Hfail 1%nat "labelencoder_PaymentMethod.pkl") as [H1 H3];
        [reflexivity | rewrite E2; reflexivity
        | intros p Hin; cbn in Hin;
          repeat (apply elem_of_cons in Hin as [-> | Hin]; [assumption |]);
          by apply elem_of_nil in Hin |];
        split; [exact H1 | split; [discriminate | split; [exact H3 | exact Hpp]]]).
  assert (L2 : loads pickle_load "labelencoder_PaymentMethod.pkl" = true)
    by (unfold loads; now rewrite E2).
  destruct (pickle_load "labelencoder_InternetService.pkl") as [e3 | | err] eqn:E3.
  2,3: (cbn [mbind result_bind];
        edestruct (Hfail 2%nat "labelencoder_InternetService.pkl") as [H1 H3];
        [reflexivity | rewrite E3; reflexivity
        | intros p Hin; cbn in Hin;
          repeat (apply elem_of_cons in Hin as [-> | Hin]; [assumption |]);
          by apply elem_of_nil in Hin |];
        split; [exact H1 | split; [discriminate | split; [exact H3 | exact Hpp]]]).
  assert (L3 : loads pickle_load "labelencoder_InternetService.pkl" = true)
    by (unfold loads; now rewrite E3).
  destruct (pickle_load "labelencoder_PaperlessBilling.pkl") as [e4 | | err] eqn:E4.
  2,3: (cbn [mbind result_bind];
        edestruct (Hfail 3%nat "labelencoder_PaperlessBilling.pkl") as [H1 H3];
        [reflexivity | rewrite E4; reflexivity
        | intros p Hin; cbn in Hin;
          repeat (apply elem_of_cons in Hin as [-> | Hin]; [assumption |]);
          by apply elem_of_nil in Hin |];
        split; [exact H1 | split; [discriminate | split; [exact H3 | exact Hpp]]]).
  assert (L4 : loads pickle_load "labelencoder_PaperlessBilling.pkl" = true)
    by (unfold loads; now rewrite E4).
  cbn. split; [| split; [| split]]; [| | discriminate | exact Hpp].
  - split; [| by eexists]. intros _ path Hin.
    unfold encoder_paths, ENCODER_FILES in Hin. cbn in Hin.
    repeat (apply elem_of_cons in Hin as [-> | Hin]; [assumption |]).
    by apply elem_of_nil in Hin.
  - intros em [= <-]. split; [reflexivity |]. intros name path Hin.
    repeat (apply elem_of_cons in Hin as [[= -> ->] | Hin]; [by eexists |]).
    by apply elem_of_nil in Hin.
Qed.

(** ** The pipeline: what can fail and what success implies *)



Lemma build_loop_spec (all_features : gmap string pynum) (order : list string)
    (acc : list pynum) :
  match build_loop all_features order acc with
  | OK out =>
      exists values,
        out = (acc ++ values)%list /\
        Forall2 (fun name v => all_features !! name = Some v) order values
  | Raise e =>
      exists i name,
        order !! i = Some name /\ all_features !! name = None /\
        e = MissingFeature name /\
        forall j earlier, (j < i)%nat -> order !! j = Some earlier ->
          is_Some (all_features !! earlier)
  end.
Proof.
  revert acc. induction order as [| name rest IH]; intros acc; cbn [build_loop].
  - exists []. split; [by rewrite app_nil_r | constructor].
  - destruct (all_features !! name) as [v |] eqn:E.
    + specialize (IH (acc ++ [v])%list).
      destruct (build_loop all_features rest _) as [out | e].
      * destruct IH as (values & -> & Hall). exists (v :: values).
        split; [by rewrite <- app_assoc | by constructor].
      * destruct IH as (i & k & Hi & Hk & -> & Hbefore).
        exists (S i), k. repeat split; try assumption.
        intros [| j] earlier Hj Hlook.
        -- injection Hlook as <-. by eexists.
        -- apply (Hbefore j); [lia | exact Hlook].
    + exists 0%nat, name. repeat split; [exact E |]. intros j earlier Hj. lia.
Qed.

Lemma merged_lookup_spec (validated_input : ClientInput) (encoded : gmap string Z)
    (engineered : gmap string pynum) (k : string) :
  dict_update
    (dict_update
       (<["tenure" := PyInt (tenure validated_input)]>
        (<["MonthlyCharges" := PyFloat (monthly_charges validated_input)]>
        (<["TotalCharges" := PyFloat (total_charges validated_input)]> ∅)))
       (PyInt <$> encoded))
    engineered !! k
  = merged_lookup validated_input encoded engineered k.
Proof.
  unfold merged_lookup.
  rewrite !dict_update_lookup, lookup_fmap, raw_dict_lookup.
  destruct (engineered !! k); [reflexivity |].
  destruct (encoded !! k); reflexivity.
Qed.

(** [np.array]: one float per value, or [OverflowError] because one of
    the values is an int that does not convert. *)
Lemma np_array_spec (values : list pynum) :
  match np_array values with
  | OK v => Forall2 (fun y x => float64 y = OK x) values v
  | Raise e =>
      e = OverflowError /\
      exists n, PyInt n ∈ values /\ converts n = false
  end.
Proof.
  induction values as [| y rest IH]; cbn [np_array].
  - constructor.
  - destruct (float64 y) as [x | e] eqn:Ey; cbn [mbind result_bind].
    + destruct (np_array rest) as [xs | e]; cbn [mbind result_bind].
      * by constructor.
      * destruct IH as (-> & n & Hin & Hn). split; [reflexivity |].
        exists n. split; [by apply list_elem_of_further | exact Hn].
    + destruct y as [n | x]; [| discriminate]. cbn [float64] in Ey.
      assert (Hn : converts n = false) by (unfold converts; now rewrite Ey).
      rewrite (float_of_int_overflow n Hn) in Ey. injection Ey as <-.
      split; [reflexivity |]. exists n. split; [apply list_elem_of_here | exact Hn].
Qed.

Lemma build_feature_vector_length (self : ChurnPreprocessor)
    (validated_input : ClientInput) (encoded : gmap string Z)
    (engineered : gmap string pynum) (v : list pyfloat) :
  build_feature_vector self validated_input encoded engineered = OK v ->
  length v = length (feature_order self).
Proof.
  unfold build_feature_vector.
  match goal with
  | |- context [build_loop ?m ?o ?a] =>
      pose proof (build_loop_spec m o a) as Hspec;
      destruct (build_loop m o a) as [out | e]
  end; cbn [mbind result_bind]; [| discriminate].
  destruct Hspec as (values & -> & Hall). cbn [app].
  pose proof (np_array_spec values) as Hnp. intros E. rewrite E in Hnp.
  rewrite <- (Forall2_length _ _ _ Hnp). symmetry. by eapply Forall2_length.
Qed.

(** X12. [build_feature_vector], for any feature order and any three
    inputs: it looks each name up in the merged dict, where an engineered
    feature shadows an encoded one of the same name and an encoded one
    shadows a raw one. If a name of the order is absent it raises the
    missing-feature error for the first such name, before anything is
    converted. When every name is found the values go to [np.array]: the
    vector has one float per name, in order, a float kept and an int
    converted; if one of the values is an int too large to convert, the
    result is [OverflowError] instead. *)
Theorem X12_build_feature_vector_merge (self : ChurnPreprocessor)
    (validated_input : ClientInput) (encoded : gmap string Z)
    (engineered : gmap string pynum) :
  match build_feature_vector self validated_input encoded engineered with
  | OK v =>
      length v = length (feature_order self) /\
      Forall2 (fun name x =>
                 exists y, merged_lookup validated_input encoded engineered name
                             = Some y /\ float64 y = OK x)
              (feature_order self) v
  | Raise e =>
      (exists i name,
         feature_order self !! i = Some name /\
         merged_lookup validated_input encoded engineered name = None /\
         e = MissingFeature name /\
         forall j earlier, (j < i)%nat -> feature_order self !! j = Some earlier ->
           is_Some (merged_lookup validated_input encoded engineered earlier)) \/
      (e = OverflowError /\
       (forall name, name ∈ feature_order self ->
          is_Some (merged_lookup validated_input encoded engineered name)) /\
       exists name n,
         name ∈ feature_order self /\
         merged_lookup validated_input encoded engineered name = Some (PyInt n) /\
         converts n = false)
  end.
Proof.
  unfold build_feature_vector.
  match goal with
  | |- context [build_loop ?m ?o ?a] =>
      pose proof (build_loop_spec m o a) as Hspec;
      assert (Hm : forall k, m !! k
                     = merged_lookup validated_input encoded engineered k)
        by (intros k; apply merged_lookup_spec);
      destruct (build_loop m o a) as [out | e]
  end; cbn [mbind result_bind].
  - destruct Hspec as (values & -> & Hall). cbn [app].
    pose proof (np_array_spec values) as Hnp.
    destruct (np_array values) as [v | e].
    + split.
      * rewrite <- (Forall2_length _ _ _ Hnp). symmetry. by eapply Forall2_length.
      * clear -Hall Hnp Hm. revert v Hnp.
        induction Hall as [| name y rest ys Hy _ IH]; intros v Hnp;
          inversion Hnp as [| ? x ? xs Hx Hxs]; subst; constructor.
        -- exists y. by rewrite <- Hm.
        -- by apply IH.
    + destruct Hnp as (-> & n & Hin & Hn). right. split; [reflexivity |]. split.
      * intros name Hname. apply list_elem_of_lookup in Hname as [i Hi].
        destruct (Forall2_lookup_l _ _ _ _ _ Hall Hi) as (y & _ & Hy).
        rewrite <- Hm. by eexists.
      * apply list_elem_of_lookup in Hin as [i Hi].
        destruct (Forall2_lookup_r _ _ _ _ _ Hall Hi) as (name & Hname & Hy).
        exists name, n. split; [by eapply list_elem_of_lookup_2 |].
        split; [by rewrite <- Hm | exact Hn].
  - destruct Hspec as (i & name & Hi & Hnone & -> & Hbefore). left.
    exists i, name. repeat split; try assumption.
    + by rewrite <- Hm.
    + intros j earlier Hj Hlook. rewrite <- Hm. by eapply Hbefore.
Qed.

(** X13. Whatever preprocessor runs it, a successful [preprocess] means the
    record passed validation, and its metadata is consistent with the
    vector: it echoes the input values unchanged, names the features in the
    order of the vector, records the vector's length, and holds exactly the
    encoded and engineered dicts the two middle stages return. *)
Theorem X13_preprocess_success_metadata (self : ChurnPreprocessor) (d : Raw.t)
    (v : list pyfloat) (metadata : Metadata) :
  preprocess self d = OK (v, metadata) ->
  accepted d /\
  input_data metadata = of_raw d /\
  feature_names metadata = feature_order self /\
  feature_vector_shape metadata = length v /\
  length v = length (feature_order self) /\
  encode_categorical_features self (of_raw d) = OK (encoded_features metadata) /\
  compute_engineered_features (of_raw d) = OK (engineered_features metadata) /\
  build_feature_vector self (of_raw d) (encoded_features metadata)
    (engineered_features metadata) = OK v.
Proof.
  unfold preprocess.
  destruct (validate_input d) as [validated |] eqn:Ev; [| discriminate].
  apply validate_input_ok_iff in Ev as [Hacc ->]. cbn [mbind result_bind].
  destruct (encode_categorical_features self (of_raw d)) as [encoded |];
    [| discriminate]. cbn [mbind result_bind].
  destruct (compute_engineered_features (of_raw d)) as [engineered |];
    [| discriminate]. cbn [mbind result_bind].
  pose proof (build_feature_vector_length self (of_raw d) encoded engineered)
    as Hlen.
  destruct (build_feature_vector self (of_raw d) encoded engineered) as [fv |] eqn:Eb;
    [| discriminate]. cbn [mbind result_bind].
  intros [= <- <-]. cbn.
  split; [exact Hacc |]. do 3 (split; [reflexivity |]).
  split; [by apply Hlen |]. repeat split. exact Eb.
Qed.

Lemma X13_preprocess_success_metadata_witness :
  accepted health_test_data /\
  input_data (expected_metadata health_test_data 0 2 1 1) = of_raw health_test_data.
Proof.
  destruct (X13_preprocess_success_metadata fitted_preprocessor health_test_data
              (expected_vector health_test_data 0 2 1 1)
              (expected_metadata health_test_data 0 2 1 1))
    as (Hacc & Hin & _).
  - vm_compute. reflexivity.
  - split; [exact Hacc | exact Hin].
Defined.

(** X14. [preprocess_batch], for any preprocessor: it returns a result if
    and only if [preprocess] succeeds on every record, and the result is
    then the list of the individual outputs, in order; the empty batch
    gives two empty lists. Any exception it raises is the batch error
    carrying the index of a record of the batch and that record's own
    error. *)
Theorem X14_preprocess_batch_exact (self : ChurnPreprocessor)
    (clients_data : list Raw.t) :
  (forall matrix metadatas,
     preprocess_batch self clients_data = OK (matrix, metadatas) <->
     exists outs,
       Forall2 (fun d o => preprocess self d = OK o) clients_data outs /\
       matrix = map fst outs /\ metadatas = map snd outs) /\
  (forall e,
     preprocess_batch self clients_data = Raise e ->
     exists k dk ek,
       e = BatchError k ek /\ clients_data !! k = Some dk /\
       preprocess self dk = Raise ek) /\
  preprocess_batch self [] = OK ([], []).
Proof.
  assert (Hdich :
    (exists outs, Forall2 (fun d o => preprocess self d = OK o) clients_data outs) \/
    (exists k dk ek, clients_data !! k = Some dk /\ preprocess self dk = Raise ek /\
       forall j dj, (j < k)%nat -> clients_data !! j = Some dj ->
         exists o, preprocess self dj = OK o)).
  { induction clients_data as [| d rest IH].
    - left. exists []. constructor.
    - destruct (preprocess self d) as [o | e] eqn:Ed.
      + destruct IH as [[outs Houts] | (k & dk & ek & Hk & Hek & Hbefore)].
        * left. exists (o :: outs). by constructor.
        * right. exists (S k), dk, ek. repeat split; try assumption.
          intros [| j] dj Hj Hdj.
          -- injection Hdj as <-. by exists o.
          -- apply (Hbefore j); [lia | exact Hdj].
      + right. exists 0%nat, d, e. repeat split; [exact Ed |].
        intros j dj Hj. lia. }
  split; [| split; [| reflexivity]].
  - intros matrix metadatas. split.
    + intros Hrun.
      destruct Hdich as [[outs Houts] | (k & dk & ek & Hk & Hek & Hbefore)].
      * exists outs. split; [exact Houts |].
        unfold preprocess_batch in Hrun.
        rewrite (preprocess_batch_loop_ok _ _ outs) in Hrun by exact Houts.
        cbn in Hrun. injection Hrun as <- <-. by split.
      * unfold preprocess_batch in Hrun.
        rewrite (preprocess_batch_loop_first_failure self clients_data k dk ek)
          in Hrun by assumption.
        discriminate.
    + intros (outs & Houts & -> & ->). unfold preprocess_batch.
      by rewrite (preprocess_batch_loop_ok _ _ outs).
  - intros e Hrun.
    destruct Hdich as [[outs Houts] | (k & dk & ek & Hk & Hek & Hbefore)].
    + unfold preprocess_batch in Hrun.
      rewrite (preprocess_batch_loop_ok _ _ outs) in Hrun by exact Houts.
      discriminate.
    + unfold preprocess_batch in Hrun.
      rewrite (preprocess_batch_loop_first_failure self clients_data k dk ek)
        in Hrun by assumption.
      injection Hrun as <-. by exists k, dk, ek.
Qed.

(** ** The predictor: confidence and risk labels *)

Lemma Qlt_bool_spec (x y : Q) :
  (Qlt_bool x y = true /\ (x < y)%Q) \/ (Qlt_bool x y = false /\ (y <= x)%Q).
Proof.
  destruct (Qlt_bool x y) eqn:E.
  - left. split; [reflexivity | by apply Qlt_bool_iff].
  - right. split; [reflexivity |]. apply Qnot_lt_le. intros H.
    apply Qlt_bool_iff in H. congruence.
Qed.

Lemma Qle_bool_spec (x y : Q) :
  (Qle_bool x y = true /\ (x <= y)%Q) \/ (Qle_bool x y = false /\ (y < x)%Q).
Proof.
  destruct (Qle_bool x y) eqn:E.
  - left. split; [reflexivity | by apply Qle_bool_iff].
  - right. split; [reflexivity |]. apply Qnot_le_lt. intros H.
    apply Qle_bool_iff in H. congruence.
Qed.

Lemma py_abs_spec (x : Q) :
  (0 <= py_abs x)%Q /\ ((py_abs x == 0)%Q <-> (x == 0)%Q).
Proof.
  unfold py_abs. destruct (Qlt_bool_spec x 0) as [[-> H] | [-> H]].
  - split; [lra |]. split; intros E; lra.
  - split; [lra |]. tauto.
Qed.

Lemma py_max_threshold (t : Q) : ((1 # 2) <= py_max t (1 - t))%Q.
Proof.
  unfold py_max. destruct (Qlt_bool_spec t (1 - t)) as [[-> H] | [-> H]]; lra.
Qed.

Lemma confidence_closed_form (t p : Q) :
  _calculate_confidence t p =
    OK (py_min ((1 # 2) + py_abs (p - t) / py_max t (1 - t) * (1 # 2)) 1)%Q.
Proof.
  unfold _calculate_confidence. rewrite py_quotient_pos; [reflexivity |].
  pose proof (py_max_threshold t). lra.
Qed.

(** X15. [_calculate_confidence] never divides by zero, whatever the
    threshold: the distance is normalised by max(threshold, 1 - threshold),
    which is at least 1/2. The score always lies between 0.5 and 1, and it
    is 0.5 when the probability equals the threshold. (The converse is not
    claimed: once the sum is rounded, a probability next to the threshold
    scores 0.5 as well.) *)
Theorem X15_confidence_range (optimal_threshold probability : Q) :
  _calculate_confidence optimal_threshold probability <> Raise ZeroDivisionError /\
  ((1 # 2) <= py_max optimal_threshold (1 - optimal_threshold))%Q /\
  (exists confidence,
     _calculate_confidence optimal_threshold probability = OK confidence /\
     ((1 # 2) <= confidence)%Q /\ (confidence <= 1)%Q) /\
  (exists confidence,
     _calculate_confidence optimal_threshold optimal_threshold = OK confidence /\
     (confidence == 1 # 2)%Q).
Proof.
  pose proof (py_max_threshold optimal_threshold) as Hmax.
  split; [rewrite confidence_closed_form; discriminate |].
  split; [exact Hmax |].
  set (m := py_max optimal_threshold (1 - optimal_threshold)) in *.
  assert (Hm : (0 < m)%Q) by lra.
  split.
  - rewrite confidence_closed_form. eexists. split; [reflexivity |].
    destruct (py_abs_spec (probability - optimal_threshold)) as [Hd _].
    set (d := py_abs (probability - optimal_threshold)) in *.
    assert (Hr : (0 <= d / m)%Q) by (by apply Qdiv_nonneg).
    fold m. set (r := (d / m)%Q) in *.
    unfold py_min.
    destruct (Qlt_bool_spec 1 ((1 # 2) + r * (1 # 2))) as [[-> H] | [-> H]];
      split; lra.
  - rewrite confidence_closed_form. eexists. split; [reflexivity |].
    destruct (py_abs_spec (optimal_threshold - optimal_threshold)) as [_ Hd0].
    set (d := py_abs (optimal_threshold - optimal_threshold)) in *.
    assert (Ed : (d == 0)%Q) by (apply Hd0; lra).
    assert (Er : (d / m == 0)%Q) by (rewrite Ed; field; lra).
    fold m. set (r := (d / m)%Q) in *.
    unfold py_min.
    destruct (Qlt_bool_spec 1 ((1 # 2) + r * (1 # 2))) as [[-> H] | [-> H]]; lra.
Qed.

(** Case analysis on every comparison of [_interpret_probability]. *)
Ltac interpret_cases :=
  unfold _interpret_probability;
  repeat match goal with
         | |- context [Qle_bool ?a ?b] =>
             destruct (Qle_bool_spec a b) as [[-> ?] | [-> ?]]
         end;
  cbn [fst snd].

(** X16. The label of [_interpret_probability] is always one of the six
    risk levels (never "Error" nor empty), and it is one of the three
    levels "Medium-High Risk", "High Risk", "Critical Risk" exactly when the
    probability reaches the decision threshold, that is exactly when
    [predict_single] decides churn. *)
Theorem X16_risk_level_matches_decision (optimal_threshold probability : Q) :
  fst (_interpret_probability optimal_threshold probability) ∈ risk_levels /\
  (fst (_interpret_probability optimal_threshold probability) ∈ churn_levels
   <-> (optimal_threshold <= probability)%Q).
Proof.
  interpret_cases; (split; [by_decide |]); split.
  all: try (intros _; assumption).
  all: try (intros _; by_decide).
  all: try (intros Hle; exfalso; lra).
  all: intros Hin; exfalso; unfold churn_levels in Hin;
    repeat (apply elem_of_cons in Hin as [Hin | Hin]; [discriminate Hin |]);
    by apply elem_of_nil in Hin.
Qed.

(** X17. For a fixed threshold the risk level never gets milder when the
    probability grows: the levels are ordered Low, Low-Medium, Medium,
    Medium-High, High, Critical. *)
Theorem X17_risk_level_monotone (optimal_threshold p1 p2 : Q) :
  (p1 <= p2)%Q ->
  (risk_rank (fst (_interpret_probability optimal_threshold p1))
   <= risk_rank (fst (_interpret_probability optimal_threshold p2)))%nat.
Proof.
  intros Hle. interpret_cases; try lra; vm_compute; lia.
Qed.

Lemma X17_risk_level_monotone_witness :
  (risk_rank (fst (_interpret_probability (351 # 1000) (3 # 10)))
   <= risk_rank (fst (_interpret_probability (351 # 1000) (7 # 10))))%nat.
Proof.
  apply (X17_risk_level_monotone (351 # 1000) (3 # 10) (7 # 10)).
  vm_compute. discriminate.
Defined.


(** ** The predictor: single records *)

Lemma confidence_bounds (t p : Q) :
  exists c, _calculate_confidence t p = OK c /\ ((1 # 2) <= c)%Q /\ (c <= 1)%Q.
Proof.
  rewrite confidence_closed_form. eexists. split; [reflexivity |].
  pose proof (py_max_threshold t) as Hmax.
  destruct (py_abs_spec (p - t)) as [Hd _].
  assert (Hr : (0 <= py_abs (p - t) / py_max t (1 - t))%Q)
    by (apply Qdiv_nonneg; [exact Hd | lra]).
  set (r := (py_abs (p - t) / py_max t (1 - t))%Q) in *.
  unfold py_min.
  destruct (Qlt_bool_spec 1 ((1 # 2) + r * (1 # 2))) as [[-> H] | [-> H]]; lra.
Qed.

Lemma interpret_level_cases (t p : Q) :
  fst (_interpret_probability t p) ∈ risk_levels /\
  (if Qle_bool t p
   then fst (_interpret_probability t p) ∈ churn_levels
   else fst (_interpret_probability t p) ∉ churn_levels).
Proof.
  interpret_cases; (split; [by_decide |]);
    first [ by_decide
          | intros Hin; unfold churn_levels in Hin;
            repeat (apply elem_of_cons in Hin as [Hin | Hin]; [discriminate Hin |]);
            by apply elem_of_nil in Hin ].
Qed.

(** What [predict_single] returns once every attribute is set, the record
    preprocesses and the model gives a probability. *)
Lemma predict_single_scored (self : ChurnPredictor) (now : string) (d : Raw.t)
    (cid : option string) (pp : ChurnPreprocessor) (m : list pyfloat -> string + Q)
    (t : Q) (v : list pyfloat) (md : Metadata) (p : Q) :
  is_loaded self = true -> preprocessor self = Some pp -> model self = Some m ->
  optimal_threshold self = Some t ->
  preprocess pp d = OK (v, md) -> m v = inr p ->
  exists c,
    _calculate_confidence t p = OK c /\
    predict_single self now d cid =
      inr {| client_id := cid;
             churn_probability := p;
             churn_prediction := if Qle_bool t p then 1 else 0;
             risk_level := fst (_interpret_probability t p);
             business_recommendation := Advice (snd (_interpret_probability t p));
             confidence_score := c;
             prediction_timestamp := now;
             model_metadata :=
               Some {| meta_optimal_threshold := t;
                       meta_preprocessing_metadata := md;
                       meta_model_version := "XGBoost_Champion_11_Features";
                       meta_features_used := feature_names md |} |}.
Proof.
  intros Hl Hpp Hm Ht Hrun Hp.
  destruct (confidence_bounds t p) as (c & Hc & _).
  exists c. split; [exact Hc |].
  unfold predict_single. rewrite Hl, Hpp, Hrun, Hm, Hp, Ht, Hc. cbn [negb].
  by destruct (_interpret_probability t p).
Qed.

(** The stages [predict_single] went through when it returns a result. *)
Lemma predict_single_inv (self : ChurnPredictor) (now : string) (d : Raw.t)
    (cid : option string) (r : ChurnPredictionResult) :
  predict_single self now d cid = inr r ->
  exists pp m t v md p,
    is_loaded self = true /\ preprocessor self = Some pp /\ model self = Some m /\
    optimal_threshold self = Some t /\
    preprocess pp d = OK (v, md) /\ m v = inr p.
Proof.
  unfold predict_single.
  destruct (is_loaded self); cbn [negb]; [| discriminate].
  destruct (preprocessor self) as [pp |]; [| discriminate].
  destruct (preprocess pp d) as [[v md] |] eqn:Hrun; [| discriminate].
  destruct (model self) as [m |]; [| discriminate].
  destruct (m v) as [msg | p] eqn:Hp; [discriminate |].
  destruct (optimal_threshold self) as [t |]; [| discriminate].
  intros _. by exists pp, m, t, v, md, p.
Qed.

(** X19. Every result [predict_single] returns is well formed: the predictor
    was loaded, the record passed validation and the probability is the
    model's score of its feature vector; the client id and the clock reading
    are echoed; the decision is 1 exactly when the probability reaches the
    threshold, which is exactly when the risk level is one of the three
    churn levels; the level is one of the six labels (never "Error"); and
    the confidence lies between 0.5 and 1. *)
Theorem X19_predict_single_result_well_formed (self : ChurnPredictor)
    (now : string) (d : Raw.t) (cid : option string) (r : ChurnPredictionResult) :
  predict_single self now d cid = inr r ->
  exists pp m t v md,
    is_loaded self = true /\ preprocessor self = Some pp /\ model self = Some m /\
    optimal_threshold self = Some t /\
    accepted d /\ preprocess pp d = OK (v, md) /\
    m v = inr (churn_probability r) /\
    client_id r = cid /\ prediction_timestamp r = now /\
    (churn_prediction r = 1 \/ churn_prediction r = 0) /\
    (churn_prediction r = 1 <-> (t <= churn_probability r)%Q) /\
    (churn_prediction r = 1 <-> risk_level r ∈ churn_levels) /\
    risk_level r ∈ risk_levels /\
    ((1 # 2) <= confidence_score r)%Q /\ (confidence_score r <= 1)%Q.
Proof.
  intros Hr.
  destruct (predict_single_inv _ _ _ _ _ Hr)
    as (pp & m & t & v & md & p & Hl & Hpp & Hm & Ht & Hrun & Hp).
  destruct (predict_single_scored self now d cid pp m t v md p Hl Hpp Hm Ht Hrun Hp)
    as (c & Hc & Heq).
  rewrite Heq in Hr. injection Hr as <-. cbn.
  destruct (confidence_bounds t p) as (c' & Hc' & Hlow & Hhigh).
  assert (c' = c) as -> by congruence.
  destruct (interpret_level_cases t p) as [Hlevel Hchurn].
  assert (Hacc : accepted d).
  { unfold preprocess in Hrun.
    destruct (validate_input d) as [vi |] eqn:Ev; [| discriminate].
    by apply validate_input_ok_iff in Ev as [? _]. }
  exists pp, m, t, v, md.
  do 9 (split; [first [assumption | reflexivity] |]).
  destruct (Qle_bool_spec t p) as [[E Hle] | [E Hlt]]; rewrite E in *.
  - split; [by left |]. split; [tauto |]. split; [tauto |]. by repeat split.
  - split; [by right |].
    split; [split; [discriminate | intros H; exfalso; lra] |].
    split; [split; [discriminate | tauto] |]. by repeat split.
Qed.

(** What a predictor built by [__init__] does on any record. *)
Lemma loaded_predict_single
    (load_model : option (list pyfloat -> string + Q)) (load_threshold : option Q)
    (pickle_load : string -> unpickled)
    (self : ChurnPredictor) (pp : ChurnPreprocessor)
    (now : string) (d : Raw.t) (cid : option string) :
  ChurnPredictor_init load_model load_threshold pickle_load = inr self ->
  ChurnPreprocessor_init pickle_load = OK pp ->
  artifacts_cover (encoder_manager pp) = true ->
  exists m t,
    self = {| model := Some m; optimal_threshold := Some t;
              preprocessor := Some pp; is_loaded := true |} /\
    match ClientInput_errors d with
    | [] =>
        if converts (Raw.tenure d + 1) then
          exists v md,
            preprocess pp d = OK (v, md) /\
            match m v with
            | inl message =>
                predict_single self now d cid
                  = inl (PredictionError (ModelError message))
            | inr p =>
                exists r, predict_single self now d cid = inr r /\
                          churn_probability r = p
            end
        else
          predict_single self now d cid
            = inl (PredictionError (PipelineError OverflowError))
    | errors =>
        predict_single self now d cid
          = inl (PredictionError (PipelineError (InvalidData errors)))
    end.
Proof.
  intros Hinit Hpp Hcover. unfold ChurnPredictor_init in Hinit.
  destruct load_model as [m |]; [| discriminate].
  destruct load_threshold as [t |]; [| discriminate].
  rewrite Hpp in Hinit. injection Hinit as <-.
  exists m, t. split; [reflexivity |].
  destruct (ClientInput_errors d) as [| e errors] eqn:E.
  - apply ClientInput_errors_nil_iff in E.
    destruct (preprocess_accepted _ _ d Hpp Hcover E)
      as (c & p' & i & b & _ & _ & _ & _ & Hrun).
    destruct (converts (Raw.tenure d + 1)).
    + do 2 eexists. split; [exact Hrun |].
      destruct (m _) as [message | p] eqn:Hm.
      * unfold predict_single. cbn [is_loaded preprocessor model negb].
        by rewrite Hrun, Hm.
      * edestruct (predict_single_scored
                     {| model := Some m; optimal_threshold := Some t;
                        preprocessor := Some pp; is_loaded := true |}
                     now d cid pp m t) as (conf & _ & Heq);
          [reflexivity | reflexivity | reflexivity | reflexivity
          | exact Hrun | exact Hm |].
        eexists. split; [exact Heq | reflexivity].
    + unfold predict_single. cbn [is_loaded preprocessor negb]. by rewrite Hrun.
  - unfold predict_single. cbn [is_loaded preprocessor negb].
    unfold preprocess, validate_input, ClientInput_new. by rewrite E.
Qed.


Lemma X19_predict_single_result_well_formed_witness :
  exists pp m t v md,
    is_loaded demo_predictor = true /\ preprocessor demo_predictor = Some pp /\
    model demo_predictor = Some m /\ optimal_threshold demo_predictor = Some t /\
    accepted health_test_data /\ preprocess pp health_test_data = OK (v, md) /\
    m v = inr (churn_probability
                 (batch_entry demo_predictor "now" health_test_data "c1")) /\
    client_id (batch_entry demo_predictor "now" health_test_data "c1") = Some "c1" /\
    prediction_timestamp (batch_entry demo_predictor "now" health_test_data "c1")
      = "now" /\
    (churn_prediction (batch_entry demo_predictor "now" health_test_data "c1") = 1 \/
     churn_prediction (batch_entry demo_predictor "now" health_test_data "c1") = 0) /\
    (churn_prediction (batch_entry demo_predictor "now" health_test_data "c1") = 1 <->
     (t <= churn_probability
             (batch_entry demo_predictor "now" health_test_data "c1"))%Q) /\
    (churn_prediction (batch_entry demo_predictor "now" health_test_data "c1") = 1 <->
     risk_level (batch_entry demo_predictor "now" health_test_data "c1")
       ∈ churn_levels) /\
    risk_level (batch_entry demo_predictor "now" health_test_data "c1") ∈ risk_levels /\
    ((1 # 2) <= confidence_score
                  (batch_entry demo_predictor "now" health_test_data "c1"))%Q /\
    (confidence_score (batch_entry demo_predictor "now" health_test_data "c1") <= 1)%Q.
Proof.
  apply (X19_predict_single_result_well_formed demo_predictor "now"
           health_test_data (Some "c1")
           (batch_entry demo_predictor "now" health_test_data "c1")).
  vm_compute. reflexivity.
Defined.


(** ** The predictor: batches and health *)

Lemma batch_entry_client_id (self : ChurnPredictor) (now : string) (d : Raw.t)
    (cid : string) :
  client_id (batch_entry self now d cid) = Some cid.
Proof.
  unfold batch_entry.
  destruct (predict_single self now d (Some cid)) as [e | r] eqn:Hr; [reflexivity |].
  destruct (predict_single_inv _ _ _ _ _ Hr)
    as (pp & m & t & v & md & p & Hl & Hpp & Hm & Ht & Hrun & Hp).
  destruct (predict_single_scored self now d (Some cid) pp m t v md p
              Hl Hpp Hm Ht Hrun Hp) as (c & _ & Heq).
  rewrite Heq in Hr. by injection Hr as <-.
Qed.

Lemma predict_batch_loop_spec (self : ChurnPredictor) (now : nat -> string)
    (clients_data : list Raw.t) (ids : list string) (i : nat)
    (results : list ChurnPredictionResult) :
  length ids = length clients_data ->
  exists entries,
    predict_batch_loop self now i clients_data ids results
      = (results ++ entries)%list /\
    length entries = length clients_data /\
    forall k d cid, clients_data !! k = Some d -> ids !! k = Some cid ->
      entries !! k = Some (batch_entry self (now (i + k)%nat) d cid).
Proof.
  revert ids i results.
  induction clients_data as [| d rest IH]; intros [| cid ids] i results Hlen;
    try discriminate Hlen; cbn [predict_batch_loop].
  - exists []. split; [by rewrite app_nil_r |]. split; [reflexivity |].
    intros k ? ? Hk. discriminate Hk.
  - injection Hlen as Hlen.
    destruct (IH ids (S i) (results ++ [batch_entry self (now i) d cid])%list Hlen)
      as (entries & Hrun & Hn & Hlook).
    exists (batch_entry self (now i) d cid :: entries).
    split; [| split].
    + fold (batch_entry self (now i) d cid). rewrite Hrun.
      by rewrite <- app_assoc.
    + cbn. by rewrite Hn.
    + intros [| k] d' cid' Hd Hc.
      * injection Hd as <-. injection Hc as <-. by rewrite Nat.add_0_r.
      * transitivity (entries !! k); [reflexivity |].
        rewrite (Hlook k d' cid' Hd Hc). do 2 f_equal. f_equal. lia.
Qed.

(** X21. On a loaded predictor, [predict_batch] with one id per record never
    aborts on a bad record: it returns exactly one result per record, in
    order and under the given ids. A record on which [predict_single]
    succeeds contributes that result; any other contributes a result with
    risk level "Error", probability 0 and decision 0 that carries the error. *)
Theorem X21_predict_batch_one_result_per_record (self : ChurnPredictor)
    (now : nat -> string) (clients_data : list Raw.t) (ids : list string) :
  is_loaded self = true ->
  length ids = length clients_data ->
  exists results,
    predict_batch self now clients_data (Some ids) = inr results /\
    length results = length clients_data /\
    map client_id results = map Some ids /\
    forall k d cid, clients_data !! k = Some d -> ids !! k = Some cid ->
      match predict_single self (now k) d (Some cid) with
      | inr r => results !! k = Some r
      | inl e =>
          results !! k = Some (error_result (now k) (Some cid) e) /\
          risk_level (error_result (now k) (Some cid) e) = "Error"
      end.
Proof.
  intros Hl Hlen.
  destruct (predict_batch_loop_spec self now clients_data ids 0 [] Hlen)
    as (entries & Hrun & Hn & Hlook).
  exists entries. unfold predict_batch. rewrite Hl, Hlen, Nat.eqb_refl. cbn [negb].
  split; [by rewrite Hrun |]. split; [exact Hn |]. split.
  - apply list_eq. intros k. rewrite !list_lookup_fmap.
    destruct (clients_data !! k) as [d |] eqn:Hd.
    + destruct (ids !! k) as [cid |] eqn:Hc.
      * rewrite (Hlook k d cid Hd Hc). cbn. by rewrite batch_entry_client_id.
      * apply lookup_ge_None in Hc. apply lookup_lt_Some in Hd. lia.
    + apply lookup_ge_None in Hd.
      rewrite (proj2 (lookup_ge_None entries k)) by lia.
      by rewrite (proj2 (lookup_ge_None ids k)) by lia.
  - intros k d cid Hd Hc. specialize (Hlook k d cid Hd Hc).
    unfold batch_entry in Hlook. cbn [Nat.add] in Hlook.
    destruct (predict_single self (now k) d (Some cid)); [by split | exact Hlook].
Qed.

Lemma X21_predict_batch_one_result_per_record_witness :
  exists results,
    predict_batch demo_predictor (fun _ => "now")
      [health_test_data;
       Raw.mk "Monthly" 12 75 900 "Electronic check" "Fiber optic" "Yes"]
      (Some ["a"; "b"]) = inr results /\
    length results = 2%nat /\
    map client_id results = [Some "a"; Some "b"].
Proof.
  destruct (X21_predict_batch_one_result_per_record demo_predictor (fun _ => "now")
              [health_test_data;
               Raw.mk "Monthly" 12 75 900 "Electronic check" "Fiber optic" "Yes"]
              ["a"; "b"] eq_refl eq_refl) as (results & Hrun & Hn & Hids & _).
  exists results. split; [exact Hrun |]. split; [exact Hn | exact Hids].
Defined.

Lemma default_client_ids_spec (n i : nat) :
  length (default_client_ids i n) = n /\
  forall k, (k < n)%nat ->
    default_client_ids i n !! k = Some ("client_" +:+ pretty (i + k)%nat).
Proof.
  revert i. induction n as [| n IH]; intros i; cbn.
  - split; [reflexivity |]. intros k Hk. lia.
  - destruct (IH (S i)) as [Hlen Hlook]. split; [by rewrite Hlen |].
    intros [| k] Hk; cbn.
    + by rewrite Nat.add_0_r.
    + rewrite Hlook by lia. do 3 f_equal. lia.
Qed.

(** X22. Called without ids on a loaded predictor, [predict_batch] never
    raises, not even the id-count error: it numbers the records itself, so
    record number k is reported under the id "client_k", and there is again
    exactly one result per record. Called on a predictor that is not
    loaded it raises "Modèle non chargé", and with a list of ids of the wrong
    length it raises the id-count error. *)
Theorem X22_predict_batch_default_ids (self : ChurnPredictor)
    (now : nat -> string) (clients_data : list Raw.t) :
  (is_loaded self = true ->
   exists results,
     predict_batch self now clients_data None = inr results /\
     length results = length clients_data /\
     forall k d, clients_data !! k = Some d ->
       results !! k
         = Some (batch_entry self (now k) d ("client_" +:+ pretty k)) /\
       client_id (batch_entry self (now k) d ("client_" +:+ pretty k))
         = Some ("client_" +:+ pretty k)) /\
  (is_loaded self = false ->
   forall ids, predict_batch self now clients_data ids = inl ModelNotLoaded) /\
  (is_loaded self = true ->
   forall ids, length ids <> length clients_data ->
     predict_batch self now clients_data (Some ids) = inl ClientIdsMismatch).
Proof.
  split; [| split].
  - intros Hl.
    destruct (default_client_ids_spec (length clients_data) 0) as [Hlen Hids].
    destruct (predict_batch_loop_spec self now clients_data
                (default_client_ids 0 (length clients_data)) 0 [] Hlen)
      as (entries & Hrun & Hn & Hlook).
    exists entries. unfold predict_batch. rewrite Hl, Hlen, Nat.eqb_refl. cbn [negb].
    split; [by rewrite Hrun |]. split; [exact Hn |].
    intros k d Hd. split; [| apply batch_entry_client_id].
    apply (Hlook k d); [exact Hd |].
    apply Hids. by apply lookup_lt_Some in Hd.
  - intros Hl ids. unfold predict_batch. by rewrite Hl.
  - intros Hl ids Hne. unfold predict_batch. rewrite Hl. cbn [negb].
    by rewrite (proj2 (Nat.eqb_neq _ _) Hne).
Qed.

Lemma X22_predict_batch_default_ids_witness :
  exists results,
    predict_batch demo_predictor (fun _ => "now") [health_test_data] None
      = inr results /\
    length results = 1%nat.
Proof.
  destruct (X22_predict_batch_default_ids demo_predictor (fun _ => "now")
              [health_test_data]) as [Hdefault _].
  destruct (Hdefault eq_refl) as (results & Hrun & Hn & _).
  exists results. split; [exact Hrun | exact Hn].
Defined.

(** X23. [health_check] never raises and reports one of three statuses:
    "unhealthy" exactly when the predictor is not loaded (no test
    prediction is then attempted), "healthy" exactly when it is loaded and
    the test prediction succeeds, and "degraded" otherwise, in which case
    the error of the test prediction is reported. The success flag is True
    exactly in the healthy case and the probability is reported only then. *)
Theorem X23_health_check_status (self : ChurnPredictor) (now now_test : string) :
  health_status (health_check self now now_test)
    ∈ ["healthy"; "degraded"; "unhealthy"] /\
  health_model_loaded (health_check self now now_test) = is_loaded self /\
  health_timestamp (health_check self now now_test) = now /\
  (health_status (health_check self now now_test) = "unhealthy" <->
   is_loaded self = false) /\
  (is_loaded self = false ->
   health_test_prediction_success (health_check self now now_test) = None) /\
  (health_status (health_check self now now_test) = "healthy" <->
   is_loaded self = true /\
   exists r, predict_single self now_test health_test_data (Some "health_check")
               = inr r) /\
  (forall r,
     predict_single self now_test health_test_data (Some "health_check") = inr r ->
     health_test_prediction_success (health_check self now now_test) = Some true /\
     health_test_probability (health_check self now now_test)
       = Some (churn_probability r)) /\
  (forall e,
     is_loaded self = true ->
     predict_single self now_test health_test_data (Some "health_check") = inl e ->
     health_status (health_check self now now_test) = "degraded" /\
     health_test_prediction_success (health_check self now now_test) = Some false /\
     health_test_probability (health_check self now now_test) = None /\
     health_test_error (health_check self now now_test) = Some e).
Proof.
  unfold health_check.
  destruct (is_loaded self) eqn:Hl.
  - destruct (predict_single self now_test health_test_data (Some "health_check"))
      as [e | r] eqn:Hr; cbn.
    + split; [by_decide |]. do 2 (split; [reflexivity |]).
      split; [split; discriminate |]. split; [discriminate |].
      split; [split; [discriminate | intros [_ [? [=]]]] |].
      split; [discriminate |]. intros e' _ [= <-]. by repeat split.
    + split; [by_decide |]. do 2 (split; [reflexivity |]).
      split; [split; discriminate |]. split; [discriminate |].
      split; [split; [intros _; split; [reflexivity | by eexists] | reflexivity] |].
      split; [| discriminate]. intros r' [= <-]. by split.
  - cbn. split; [by_decide |]. do 2 (split; [reflexivity |]).
    split; [by split |]. split; [reflexivity |].
    split; [split; [discriminate | intros [[=] _]] |].
    split; [| discriminate].
    intros r Hr. destruct (predict_single_inv _ _ _ _ _ Hr)
      as (? & ? & ? & ? & ? & ? & Hl' & _). congruence.
Qed.

(** X24. The health check of a predictor built by [__init__] over encoders
    that cover the allowed values: every component is reported loaded, the
    test record always passes preprocessing, and the status is "healthy"
    with the model's score of the test vector as probability, unless the
    model itself raises on that vector, which is the only way to be
    "degraded". It is never "unhealthy". *)
Theorem X24_loaded_predictor_health
    (load_model : option (list pyfloat -> string + Q)) (load_threshold : option Q)
    (pickle_load : string -> unpickled)
    (self : ChurnPredictor) (pp : ChurnPreprocessor) (now now_test : string) :
  ChurnPredictor_init load_model load_threshold pickle_load = inr self ->
  ChurnPreprocessor_init pickle_load = OK pp ->
  artifacts_cover (encoder_manager pp) = true ->
  health_model_loaded (health_check self now now_test) = true /\
  health_threshold_loaded (health_check self now now_test) = true /\
  health_preprocessor_ready (health_check self now now_test) = true /\
  exists m v md,
    model self = Some m /\ preprocess pp health_test_data = OK (v, md) /\
    match m v with
    | inr p =>
        health_status (health_check self now now_test) = "healthy" /\
        health_test_prediction_success (health_check self now now_test) = Some true /\
        health_test_probability (health_check self now now_test) = Some p
    | inl message =>
        health_status (health_check self now now_test) = "degraded" /\
        health_test_prediction_success (health_check self now now_test) = Some false /\
        health_test_error (health_check self now now_test)
          = Some (PredictionError (ModelError message))
    end.
Proof.
  intros Hinit Hpp Hcover.
  destruct (loaded_predict_single _ _ _ _ _ now_test health_test_data
              (Some "health_check") Hinit Hpp Hcover) as (m & t & -> & Hcases).
  change (ClientInput_errors health_test_data) with (@nil (string * field_error))
    in Hcases.
  destruct Hcases as (v & md & Hrun & Hout).
  unfold health_check. cbn [is_loaded optimal_threshold preprocessor model].
  destruct (m v) as [message | p] eqn:Hm.
  - rewrite Hout. cbn.
    split; [reflexivity |]. split; [reflexivity |]. split; [reflexivity |].
    exists m, v, md. rewrite Hm. by repeat split.
  - destruct Hout as (r & Hr & Hp). rewrite Hr. cbn.
    split; [reflexivity |]. split; [reflexivity |]. split; [reflexivity |].
    exists m, v, md. rewrite Hm, Hp. by repeat split.
Qed.

Lemma X24_loaded_predictor_health_witness :
  health_model_loaded (health_check demo_predictor "now" "then") = true /\
  health_threshold_loaded (health_check demo_predictor "now" "then") = true /\
  health_preprocessor_ready (health_check demo_predictor "now" "then") = true.
Proof.
  destruct (X24_loaded_predictor_health (Some demo_model) (Some (351 # 1000))
              fitted_artifacts demo_predictor fitted_preprocessor "now" "then"
              eq_refl eq_refl eq_refl) as (H1 & H2 & H3 & _).
  by repeat split.
Defined.

(** ** Validation, exactly *)




